(** * Logo Generator: upload, artboard selection, contain-fit compositing

    A shallow embedding of the application script (the artboard-selecting
    version of [app.js], with the earlier single-page version in module
    [FirstPageOnly]) and the properties of its specification.

    Modelling conventions.
    - Numbers.  The functions of the script are given over exact rational
      arithmetic ([Q]), with equations between numbers stated with [==].
      Module [Binary64] gives the geometry as the engine computes it, each
      operation rounded to the nearest IEEE-754 binary64 number; the
      properties of the specification that depend on the value of a size
      are settled there, and what holds exactly over [Q] holds over
      [Binary64] up to [tolerance].  The rounding is checked against the
      machine's floats on the operations of the examples ([Machine]).
    - Canvas and image sizes are DOM [unsigned long] attributes: assigning
      a fractional number keeps its integer part ([toPixels]).
    - Script variables and the DOM nodes the script touches are the fields
      of one record, [State], passed explicitly.
    - An [async] function is the list of states an observer can see at its
      suspension points, ending with the state it settles in.  [handle]
      lets an action settle before the next one starts; module
      [Overlapped] keeps the pending operations of all actions beside the
      state and lets them complete in any order.
    - [alert] texts are an enumeration ([Alert]); their wording is a
      presentation matter. *)

From Stdlib Require Import ZArith QArith Qround Qpower Qminmax Lqa Lia.
From Stdlib Require Import String Ascii List.
From Stdlib Require PrimFloat FloatOps SpecFloat Uint63.
From stdpp Require Import base list.
Import ListNotations.

(** ** JavaScript string operations used by the script *)

Module JsString.
Open Scope string_scope.
Open Scope char_scope.

Definition dot : ascii := ".".
Definition slash : ascii := "/".

(** [ch.toLowerCase()] on the ASCII range; other code units are kept. *)
Definition lowerChar (c : ascii) : ascii :=
  let n := nat_of_ascii c in
  if ((65 <=? n) && (n <=? 90))%nat then ascii_of_nat (n + 32) else c.

(** [s.toLowerCase()] *)
Fixpoint toLowerCase (s : string) : string :=
  match s with
  | EmptyString => EmptyString
  | String c r => String (lowerChar c) (toLowerCase r)
  end.

(** [s.split(sep)] for a one-character separator: never empty. *)
Fixpoint split (sep : ascii) (s : string) : list string :=
  match s with
  | EmptyString => [EmptyString]
  | String c r =>
      if Ascii.eqb c sep then EmptyString :: split sep r
      else match split sep r with
           | [] => [String c EmptyString]
           | p :: ps => String c p :: ps
           end
  end.

(** [parts.pop()] as a value: the last element ([undefined] is [None]). *)
Definition pop (parts : list string) : option string := last parts.

(** [arr.includes(x)] on strings. *)
Definition includes_elem (arr : list string) (x : string) : bool :=
  existsb (String.eqb x) arr.

(** [hay.includes(needle)]: [needle] occurs at some position of [hay]. *)
Fixpoint includes (hay needle : string) : bool :=
  String.prefix needle hay ||
  match hay with
  | EmptyString => false
  | String _ r => includes r needle
  end.

(** The character class [[^/.]]. *)
Definition notSlashDot (c : ascii) : bool :=
  negb (Ascii.eqb c slash) && negb (Ascii.eqb c dot).

Fixpoint allChars (p : ascii -> bool) (s : string) : bool :=
  match s with
  | EmptyString => true
  | String c r => p c && allChars p r
  end.

(** Does [/\.[^/.]+$/] match starting exactly at the head of [s]? *)
Definition matchesExtHere (s : string) : bool :=
  match s with
  | String c (String d r) =>
      Ascii.eqb c dot && allChars notSlashDot (String d r)
  | _ => false
  end.

(** [s.replace(/\.[^/.]+$/, '')]: the leftmost match is removed. *)
Fixpoint replaceExt (s : string) : string :=
  if matchesExtHere s then EmptyString
  else match s with
       | EmptyString => EmptyString
       | String c r => String c (replaceExt r)
       end.

End JsString.

(** ** Geometry of the output canvas *)

Open Scope Q_scope.

Definition CANVAS_WIDTH : Q := 786.
Definition CANVAS_HEIGHT : Q := 280.

(** The literal [0.9]. *)
Definition nineTenths : Q := 9 # 10.

(** [a > b] on numbers. *)
Definition Qgtb (a b : Q) : bool := negb (Qle_bool a b).

(** Where the pixels of an image come from. *)
Inductive ImageSource : Type :=
  | FromFile (name : string)      (* the uploaded raster file *)
  | FromPage (pageNum : Z).       (* the temporary canvas of a rendered page *)

(** An [HTMLImageElement] once loaded. *)
Record Image : Type := mkImage {
  src : ImageSource;
  width : Q;
  height : Q
}.

(** The arguments of [ctx.drawImage(img, x, y, drawWidth, drawHeight)]. *)
Record Rect : Type := mkRect {
  rect_x : Q;
  rect_y : Q;
  drawWidth : Q;
  drawHeight : Q
}.

(** The contain-mode computation of [drawImageToCanvas], in exact
    arithmetic. *)
Definition drawRect (img : Image) : Rect :=
  let imgAspect := width img / height img in
  let canvasAspect := CANVAS_WIDTH / CANVAS_HEIGHT in
  let '(drawWidth, drawHeight) :=
    if Qgtb imgAspect canvasAspect then
      let drawWidth := CANVAS_WIDTH * nineTenths in
      let drawHeight := drawWidth / imgAspect in
      (drawWidth, drawHeight)
    else
      let drawHeight := CANVAS_HEIGHT * nineTenths in
      let drawWidth := drawHeight * imgAspect in
      (drawWidth, drawHeight) in
  let x := (CANVAS_WIDTH - drawWidth) / 2 in
  let y := (CANVAS_HEIGHT - drawHeight) / 2 in
  mkRect x y drawWidth drawHeight.

(** The pixels of a canvas: [fillRect] with white, then at most one
    [drawImage]. *)
Inductive Pixels : Type :=
  | White
  | Painted (img : Image) (at_ : Rect).

(** [canvas.width] and [canvas.height] are [unsigned long] attributes of
    [HTMLCanvasElement]: a Number assigned to them is converted by
    truncation, so the canvas gets the integer part (the numbers assigned
    here lie in [0, 786]).  The image loaded from [canvas.toDataURL()] has
    the size of the canvas. *)
Definition toPixels (x : Q) : Z := Qfloor x.

(** ** The page-rendering library, as far as the script uses it

    [pdfjsLib] is an external collaborator.  A document is the list of its
    pages; a page has a size at scale 1, and rendering it at a given scale
    either resolves or rejects with an error. *)

(** A thrown value; [error.message] may be missing. *)
Record JsError : Type := mkError {
  message : option string
}.

Record Page : Type := mkPage {
  page_width : Q;
  page_height : Q;
  render : Q -> option JsError       (* [None]: [page.render(...)] resolves *)
}.

Record Viewport : Type := mkViewport {
  vp_width : Q;
  vp_height : Q
}.

(** [page.getViewport({ scale })] *)
Definition getViewport (page : Page) (scale : Q) : Viewport :=
  mkViewport (page_width page * scale) (page_height page * scale).

Record PDFDocumentProxy : Type := mkPDF {
  pages : list Page
}.

(** [pdf.numPages] *)
Definition numPages (pdf : PDFDocumentProxy) : Z :=
  Z.of_nat (length (pages pdf)).

(** [pdf.getPage(pageNum)]: pages are numbered from 1; any other request is
    rejected ([None]). *)
Definition getPage (pdf : PDFDocumentProxy) (pageNum : Z) : option Page :=
  if ((1 <=? pageNum) && (pageNum <=? numPages pdf))%Z
  then pages pdf !! Z.to_nat (pageNum - 1)
  else None.

(** The error a rejected [getPage] carries. *)
Definition invalidPageRequest : JsError :=
  mkError (Some "Invalid page request."%string).

(** ** Uploaded files *)

(** What decoding the file as an image gives: [img.onerror], or
    [img.onload] with the natural size. *)
Inductive Decode : Type :=
  | DecodeFails
  | Decodes (naturalWidth naturalHeight : Z).

(** What opening the file as a document gives: [file.arrayBuffer()]
    rejects, [getDocument(...).promise] rejects, or a document. *)
Inductive DocumentBytes : Type :=
  | ReadRejects (e : JsError)
  | ParseRejects (e : JsError)
  | Parses (pdf : PDFDocumentProxy).

Record File : Type := mkFile {
  name : string;
  readAsDataURL : option Decode;     (* [None]: [reader.onerror] *)
  asDocument : DocumentBytes
}.

(** ** Program state *)

(** The [alert(...)] calls of the script, by call site. *)
Inductive Alert : Type :=
  | UnsupportedFormat        (* handleFile *)
  | ImageLoadFailed          (* img.onerror *)
  | FileReadFailed           (* reader.onerror *)
  | DocumentFailed           (* processPDFFile, generic message *)
  | NotPdfCompatible         (* processPDFFile, dedicated message *)
  | PageRenderFailed         (* renderPDFPage *)
  | NoImageYet.              (* downloadImage *)

(** A child of an [artboard-thumbnail] wrapper. *)
Inductive ThumbnailChild : Type :=
  | ThumbnailImg (alt : Z) (w h : Z)   (* <img alt="... pageNum"> *)
  | LoadFailedText.                    (* the placeholder <span> *)

(** One [artboard-item] of the grid. *)
Record ArtboardItem : Type := mkItem {
  dataset_page : Z;
  label : Z;
  selected : bool;
  thumbnail : list ThumbnailChild
}.

Record State : Type := mkState {
  (* script variables *)
  currentFileName : string;
  hasImage : bool;
  currentPDF : option PDFDocumentProxy;
  selectedArtboard : option Z;
  (* DOM *)
  previewCanvas : Pixels;
  saveBtn_disabled : bool;
  fileInfo_visible : bool;
  fileName_text : string;
  fileInput_value : string;
  uploadArea_loading : bool;
  artboardSection_visible : bool;
  artboardGrid : list ArtboardItem;
  artboardCount_text : option Z;
  (* dialogs shown so far, latest first *)
  alerts : list Alert
}.

Definition set_currentFileName (v : string) (s : State) : State :=
  {| currentFileName := v; hasImage := hasImage s; currentPDF := currentPDF
     s; selectedArtboard := selectedArtboard s; previewCanvas :=
     previewCanvas s; saveBtn_disabled := saveBtn_disabled s;
     fileInfo_visible := fileInfo_visible s; fileName_text := fileName_text
     s; fileInput_value := fileInput_value s; uploadArea_loading :=
     uploadArea_loading s; artboardSection_visible :=
     artboardSection_visible s; artboardGrid := artboardGrid s;
     artboardCount_text := artboardCount_text s; alerts := alerts s |}.

Definition set_hasImage (v : bool) (s : State) : State :=
  {| currentFileName := currentFileName s; hasImage := v; currentPDF :=
     currentPDF s; selectedArtboard := selectedArtboard s; previewCanvas :=
     previewCanvas s; saveBtn_disabled := saveBtn_disabled s;
     fileInfo_visible := fileInfo_visible s; fileName_text := fileName_text
     s; fileInput_value := fileInput_value s; uploadArea_loading :=
     uploadArea_loading s; artboardSection_visible :=
     artboardSection_visible s; artboardGrid := artboardGrid s;
     artboardCount_text := artboardCount_text s; alerts := alerts s |}.

Definition set_currentPDF (v : option PDFDocumentProxy) (s : State) : State :=
  {| currentFileName := currentFileName s; hasImage := hasImage s;
     currentPDF := v; selectedArtboard := selectedArtboard s; previewCanvas
     := previewCanvas s; saveBtn_disabled := saveBtn_disabled s;
     fileInfo_visible := fileInfo_visible s; fileName_text := fileName_text
     s; fileInput_value := fileInput_value s; uploadArea_loading :=
     uploadArea_loading s; artboardSection_visible :=
     artboardSection_visible s; artboardGrid := artboardGrid s;
     artboardCount_text := artboardCount_text s; alerts := alerts s |}.

Definition set_selectedArtboard (v : option Z) (s : State) : State :=
  {| currentFileName := currentFileName s; hasImage := hasImage s;
     currentPDF := currentPDF s; selectedArtboard := v; previewCanvas :=
     previewCanvas s; saveBtn_disabled := saveBtn_disabled s;
     fileInfo_visible := fileInfo_visible s; fileName_text := fileName_text
     s; fileInput_value := fileInput_value s; uploadArea_loading :=
     uploadArea_loading s; artboardSection_visible :=
     artboardSection_visible s; artboardGrid := artboardGrid s;
     artboardCount_text := artboardCount_text s; alerts := alerts s |}.

Definition set_previewCanvas (v : Pixels) (s : State) : State :=
  {| currentFileName := currentFileName s; hasImage := hasImage s;
     currentPDF := currentPDF s; selectedArtboard := selectedArtboard s;
     previewCanvas := v; saveBtn_disabled := saveBtn_disabled s;
     fileInfo_visible := fileInfo_visible s; fileName_text := fileName_text
     s; fileInput_value := fileInput_value s; uploadArea_loading :=
     uploadArea_loading s; artboardSection_visible :=
     artboardSection_visible s; artboardGrid := artboardGrid s;
     artboardCount_text := artboardCount_text s; alerts := alerts s |}.

Definition set_saveBtn_disabled (v : bool) (s : State) : State :=
  {| currentFileName := currentFileName s; hasImage := hasImage s;
     currentPDF := currentPDF s; selectedArtboard := selectedArtboard s;
     previewCanvas := previewCanvas s; saveBtn_disabled := v;
     fileInfo_visible := fileInfo_visible s; fileName_text := fileName_text
     s; fileInput_value := fileInput_value s; uploadArea_loading :=
     uploadArea_loading s; artboardSection_visible :=
     artboardSection_visible s; artboardGrid := artboardGrid s;
     artboardCount_text := artboardCount_text s; alerts := alerts s |}.

Definition set_fileInfo_visible (v : bool) (s : State) : State :=
  {| currentFileName := currentFileName s; hasImage := hasImage s;
     currentPDF := currentPDF s; selectedArtboard := selectedArtboard s;
     previewCanvas := previewCanvas s; saveBtn_disabled := saveBtn_disabled
     s; fileInfo_visible := v; fileName_text := fileName_text s;
     fileInput_value := fileInput_value s; uploadArea_loading :=
     uploadArea_loading s; artboardSection_visible :=
     artboardSection_visible s; artboardGrid := artboardGrid s;
     artboardCount_text := artboardCount_text s; alerts := alerts s |}.

Definition set_fileName_text (v : string) (s : State) : State :=
  {| currentFileName := currentFileName s; hasImage := hasImage s;
     currentPDF := currentPDF s; selectedArtboard := selectedArtboard s;
     previewCanvas := previewCanvas s; saveBtn_disabled := saveBtn_disabled
     s; fileInfo_visible := fileInfo_visible s; fileName_text := v;
     fileInput_value := fileInput_value s; uploadArea_loading :=
     uploadArea_loading s; artboardSection_visible :=
     artboardSection_visible s; artboardGrid := artboardGrid s;
     artboardCount_text := artboardCount_text s; alerts := alerts s |}.

Definition set_fileInput_value (v : string) (s : State) : State :=
  {| currentFileName := currentFileName s; hasImage := hasImage s;
     currentPDF := currentPDF s; selectedArtboard := selectedArtboard s;
     previewCanvas := previewCanvas s; saveBtn_disabled := saveBtn_disabled
     s; fileInfo_visible := fileInfo_visible s; fileName_text :=
     fileName_text s; fileInput_value := v; uploadArea_loading :=
     uploadArea_loading s; artboardSection_visible :=
     artboardSection_visible s; artboardGrid := artboardGrid s;
     artboardCount_text := artboardCount_text s; alerts := alerts s |}.

Definition set_uploadArea_loading (v : bool) (s : State) : State :=
  {| currentFileName := currentFileName s; hasImage := hasImage s;
     currentPDF := currentPDF s; selectedArtboard := selectedArtboard s;
     previewCanvas := previewCanvas s; saveBtn_disabled := saveBtn_disabled
     s; fileInfo_visible := fileInfo_visible s; fileName_text :=
     fileName_text s; fileInput_value := fileInput_value s;
     uploadArea_loading := v; artboardSection_visible :=
     artboardSection_visible s; artboardGrid := artboardGrid s;
     artboardCount_text := artboardCount_text s; alerts := alerts s |}.

Definition set_artboardSection_visible (v : bool) (s : State) : State :=
  {| currentFileName := currentFileName s; hasImage := hasImage s;
     currentPDF := currentPDF s; selectedArtboard := selectedArtboard s;
     previewCanvas := previewCanvas s; saveBtn_disabled := saveBtn_disabled
     s; fileInfo_visible := fileInfo_visible s; fileName_text :=
     fileName_text s; fileInput_value := fileInput_value s;
     uploadArea_loading := uploadArea_loading s; artboardSection_visible :=
     v; artboardGrid := artboardGrid s; artboardCount_text :=
     artboardCount_text s; alerts := alerts s |}.

Definition set_artboardGrid (v : list ArtboardItem) (s : State) : State :=
  {| currentFileName := currentFileName s; hasImage := hasImage s;
     currentPDF := currentPDF s; selectedArtboard := selectedArtboard s;
     previewCanvas := previewCanvas s; saveBtn_disabled := saveBtn_disabled
     s; fileInfo_visible := fileInfo_visible s; fileName_text :=
     fileName_text s; fileInput_value := fileInput_value s;
     uploadArea_loading := uploadArea_loading s; artboardSection_visible :=
     artboardSection_visible s; artboardGrid := v; artboardCount_text :=
     artboardCount_text s; alerts := alerts s |}.

Definition set_artboardCount_text (v : option Z) (s : State) : State :=
  {| currentFileName := currentFileName s; hasImage := hasImage s;
     currentPDF := currentPDF s; selectedArtboard := selectedArtboard s;
     previewCanvas := previewCanvas s; saveBtn_disabled := saveBtn_disabled
     s; fileInfo_visible := fileInfo_visible s; fileName_text :=
     fileName_text s; fileInput_value := fileInput_value s;
     uploadArea_loading := uploadArea_loading s; artboardSection_visible :=
     artboardSection_visible s; artboardGrid := artboardGrid s;
     artboardCount_text := v; alerts := alerts s |}.

Definition set_alerts (v : list Alert) (s : State) : State :=
  {| currentFileName := currentFileName s; hasImage := hasImage s;
     currentPDF := currentPDF s; selectedArtboard := selectedArtboard s;
     previewCanvas := previewCanvas s; saveBtn_disabled := saveBtn_disabled
     s; fileInfo_visible := fileInfo_visible s; fileName_text :=
     fileName_text s; fileInput_value := fileInput_value s;
     uploadArea_loading := uploadArea_loading s; artboardSection_visible :=
     artboardSection_visible s; artboardGrid := artboardGrid s;
     artboardCount_text := artboardCount_text s; alerts := v |}.

Definition set_selected (v : bool) (it : ArtboardItem) : ArtboardItem :=
  mkItem (dataset_page it) (label it) v (thumbnail it).

Definition set_thumbnail (v : list ThumbnailChild) (it : ArtboardItem)
  : ArtboardItem :=
  mkItem (dataset_page it) (label it) (selected it) v.

Definition alert (a : Alert) (s : State) : State :=
  set_alerts (a :: alerts s) s.


(** ** The functions of the script *)

Open Scope string_scope.
Open Scope list_scope.

Definition validExtensions : list string :=
  ["jpg"; "jpeg"; "png"; "pdf"; "ai"].

(** [file.name.split('.').pop().toLowerCase()] *)
Definition extensionOf (fname : string) : option string :=
  option_map JsString.toLowerCase
    (JsString.pop (JsString.split JsString.dot fname)).

Definition initCanvas (s : State) : State :=
  set_previewCanvas White s.

Definition hideArtboardSection (s : State) : State :=
  set_selectedArtboard None
    (set_currentPDF None
       (set_artboardGrid []
          (set_artboardSection_visible false s))).

(** [drawImageToCanvas(img)]: the white fill and the image in its
    rectangle ([Painted]), then the flag and the save button. *)
Definition drawImageToCanvas (img : Image) (s : State) : State :=
  set_saveBtn_disabled false
    (set_hasImage true
       (set_previewCanvas (Painted img (drawRect img)) s)).

Definition clearCanvas (s : State) : State :=
  hideArtboardSection
    (set_fileInput_value ""
       (set_fileInfo_visible false
          (set_saveBtn_disabled true
             (set_hasImage false
                (set_currentFileName "" (initCanvas s)))))).

(** The anchor that [downloadImage] clicks. *)
Record Download : Type := mkDownload {
  download : string;
  href : Pixels          (* [previewCanvas.toDataURL('image/png')] *)
}.

Definition downloadImage (s : State) : option Download * State :=
  if negb (hasImage s) then (None, alert NoImageYet s)
  else (Some (mkDownload (currentFileName s ++ "_logo.png")%string
                (previewCanvas s)),
        s).

(** An image whose [src] is [canvas.toDataURL(...)]: a canvas without
    pixels gives a URL that never loads. *)
Definition imageOfCanvas (from : ImageSource) (w h : Z) : option Image :=
  if ((0 <? w) && (0 <? h))%Z
  then Some (mkImage from (inject_Z w) (inject_Z h))
  else None.

(** The scale [renderPDFPage] computes for a page, in exact arithmetic. *)
Definition pageScale (page : Page) : Q :=
  let viewport := getViewport page 1 in
  let scaleX := CANVAS_WIDTH / vp_width viewport in
  let scaleY := CANVAS_HEIGHT / vp_height viewport in
  Qmin scaleX scaleY * nineTenths.

(** [scaledViewport] of [renderPDFPage]. *)
Definition scaledViewport (page : Page) : Viewport :=
  getViewport page (pageScale page).

(** The image [renderPDFPage] makes from its temporary canvas. *)
Definition pageRaster (page : Page) (pageNum : Z) : option Image :=
  let tempCanvas_width := toPixels (vp_width (scaledViewport page)) in
  let tempCanvas_height := toPixels (vp_height (scaledViewport page)) in
  imageOfCanvas (FromPage pageNum) tempCanvas_width tempCanvas_height.

(** [renderPDFPage(pdf, pageNum)] up to the point where its promise
    settles: the state then, and the image whose [onload] is still to come. *)
Definition renderPDFPage (pdf : PDFDocumentProxy) (pageNum : Z) (s : State)
  : State * option Image :=
  match getPage pdf pageNum with
  | None => (alert PageRenderFailed s, None)
  | Some page =>
      match render page (pageScale page) with
      | None => (s, pageRaster page pageNum)
      | Some _ => (alert PageRenderFailed s, None)
      end
  end.

(** [img.onload] of [renderPDFPage], when there is an image to load. *)
Definition onloadRendered (pending : option Image) (s : State) : list State :=
  match pending with
  | Some img => [drawImageToCanvas img s]
  | None => []
  end.

(** What [generateThumbnail] leaves in a container that held [before]. *)
Definition thumbnailOf (pdf : PDFDocumentProxy) (pageNum : Z)
  (before : list ThumbnailChild) : list ThumbnailChild :=
  match getPage pdf pageNum with
  | None => [LoadFailedText]
  | Some page =>
      let viewport := getViewport page 1 in
      let maxWidth := 200 in
      let scale := maxWidth / vp_width viewport in
      let scaledViewport := getViewport page scale in
      match render page scale with
      | None => before ++ [ThumbnailImg pageNum
                             (toPixels (vp_width scaledViewport))
                             (toPixels (vp_height scaledViewport))]
      | Some _ => [LoadFailedText]
      end
  end.

(** [generateThumbnail(pdf, pageNum, container)], at completion; the
    container is the wrapper of the grid item at position [container]. *)
Definition generateThumbnail (pdf : PDFDocumentProxy) (pageNum : Z)
  (container : nat) (s : State) : State :=
  set_artboardGrid
    (alter (fun it => set_thumbnail (thumbnailOf pdf pageNum (thumbnail it)) it)
       container (artboardGrid s)) s.

(** A started [generateThumbnail(pdf, pageNum, container)]. *)
Definition Task : Type := Z * nat.

(** One turn of the loop of [showArtboardSelector]: the item appended to
    the grid, and the thumbnail task started for its wrapper. *)
Definition appendArtboard (acc : list ArtboardItem * list Task) (i : Z)
  : list ArtboardItem * list Task :=
  let '(grid, tasks) := acc in
  (grid ++ [mkItem i i false []], tasks ++ [(i, length grid)]).

(** [showArtboardSelector(pdf, numPages)] up to its return, with the
    thumbnail tasks it has started. *)
Definition showArtboardSelector (pdf : PDFDocumentProxy) (numPages : Z)
  (s : State) : State * list Task :=
  let s := set_artboardGrid [] s in
  let s := set_selectedArtboard None s in
  let s := set_artboardCount_text (Some numPages) s in
  let '(grid, tasks) :=
    fold_left appendArtboard (seqZ 1 numPages) (artboardGrid s, []) in
  let s := set_artboardGrid grid s in
  (set_artboardSection_visible true s, tasks).

(** Started thumbnail tasks completing in the order [order]. *)
Definition settleThumbnails (pdf : PDFDocumentProxy) (order : list Task)
  (s : State) : State :=
  fold_left (fun s t => generateThumbnail pdf (fst t) (snd t) s) order s.

(** [artboardGrid.querySelector('.selected')], then dropping the class. *)
Definition unselectPrevious (grid : list ArtboardItem) : list ArtboardItem :=
  match list_find (fun it => selected it = true) grid with
  | Some (i, _) => alter (set_selected false) i grid
  | None => grid
  end.

(** The part of [selectArtboard] before the render. *)
Definition markSelected (element : nat) (pageNum : Z) (s : State) : State :=
  let s := set_artboardGrid (unselectPrevious (artboardGrid s)) s in
  let s := set_artboardGrid
             (alter (set_selected true) element (artboardGrid s)) s in
  set_selectedArtboard (Some pageNum) s.

(** [selectArtboard(element, pageNum)]; [element] is a position in the
    grid, a position past its end an element that is not in the grid. *)
Definition selectArtboard (element : nat) (pageNum : Z) (s : State)
  : list State :=
  let s := markSelected element pageNum s in
  match currentPDF s with
  | Some pdf =>
      let '(s', pending) := renderPDFPage pdf pageNum s in
      [s; s'] ++ onloadRendered pending s'
  | None => [s]
  end.

(** [processImageFile(file)] *)
Definition processImageFile (file : File) (s : State) : list State :=
  match readAsDataURL file with
  | Some (Decodes w h) =>
      let img := mkImage (FromFile (name file)) (inject_Z w) (inject_Z h) in
      [s; set_uploadArea_loading false (drawImageToCanvas img s)]
  | Some DecodeFails =>
      [s; clearCanvas (set_uploadArea_loading false (alert ImageLoadFailed s))]
  | None =>
      [s; set_uploadArea_loading false (alert FileReadFailed s)]
  end.

(** The message chosen in the [catch] of [processPDFFile]. *)
Definition errorMessage (error : JsError) : Alert :=
  match message error with
  | Some m =>
      if negb (String.eqb m "") && JsString.includes m "Invalid PDF"
      then NotPdfCompatible
      else DocumentFailed
  | None => DocumentFailed
  end.

(** [processPDFFile(file)] *)
Definition processPDFFile (file : File) (s : State) : list State :=
  let catch error :=
    clearCanvas (set_uploadArea_loading false (alert (errorMessage error) s)) in
  match asDocument file with
  | ReadRejects error => [s; catch error]
  | ParseRejects error => [s; catch error]
  | Parses pdf =>
      let s1 := set_currentPDF (Some pdf) s in
      let numPages := numPages pdf in
      if (1 <? numPages)%Z then
        let '(s2, _) := showArtboardSelector pdf numPages s1 in
        [s; s2; set_uploadArea_loading false s2]
      else
        let '(s2, pending) := renderPDFPage pdf 1 s1 in
        let s3 := set_uploadArea_loading false s2 in
        [s; s1; s3] ++ onloadRendered pending s3
  end.

(** [handleFile(file)] and the processing it starts. *)
Definition handleFile (file : File) (s : State) : list State :=
  match extensionOf (name file) with
  | None => [s]                        (* [undefined.toLowerCase()] throws *)
  | Some extension =>
      if negb (JsString.includes_elem validExtensions extension)
      then [alert UnsupportedFormat s]
      else
        let s := set_currentFileName (JsString.replaceExt (name file)) s in
        let s := set_fileName_text (name file) s in
        let s := set_fileInfo_visible true s in
        let s := set_uploadArea_loading true s in
        let s := hideArtboardSection s in
        if String.eqb extension "pdf" || String.eqb extension "ai"
        then processPDFFile file s
        else processImageFile file s
  end.

(** The state a run of observable states ends in. *)
Definition settled (run : list State) (s0 : State) : State :=
  default s0 (last run).

(** ** User actions *)

Inductive Event : Type :=
  | Upload (file : File)                    (* drop, or file input change *)
  | Pick (element : nat) (pageNum : Z)      (* selectArtboard *)
  | Clear                                   (* clearBtn *)
  | Save.                                   (* saveBtn *)

Definition handle (e : Event) (s : State) : State :=
  match e with
  | Upload file => settled (handleFile file s) s
  | Pick element pageNum => settled (selectArtboard element pageNum s) s
  | Clear => clearCanvas s
  | Save => snd (downloadImage s)
  end.

(** Clicking the grid item made for page [i]. *)
Definition clickArtboard (i : Z) : Event := Pick (Z.to_nat (i - 1)) i.

(** What [handleFile] does to the state before the file is processed. *)
Definition accepted (file : File) (s : State) : State :=
  hideArtboardSection
    (set_uploadArea_loading true
       (set_fileInfo_visible true
          (set_fileName_text (name file)
             (set_currentFileName (JsString.replaceExt (name file)) s)))).

(** The item [showArtboardSelector] appends for page [i]. *)
Definition freshItem (i : Z) : ArtboardItem := mkItem i i false [].

(** What a finished thumbnail task does to its item. *)
Definition withThumbnail (pdf : PDFDocumentProxy) (i : Z) (it : ArtboardItem)
  : ArtboardItem :=
  set_thumbnail (thumbnailOf pdf i (thumbnail it)) it.

(** ** The earlier version of the script ([app.js]): first page only *)

Module FirstPageOnly.

Definition clearCanvas (s : State) : State :=
  set_fileInput_value ""
    (set_fileInfo_visible false
       (set_saveBtn_disabled true
          (set_hasImage false
             (set_currentFileName "" (initCanvas s))))).

Definition processImageFile (file : File) (s : State) : list State :=
  match readAsDataURL file with
  | Some (Decodes w h) =>
      let img := mkImage (FromFile (name file)) (inject_Z w) (inject_Z h) in
      [s; set_uploadArea_loading false (drawImageToCanvas img s)]
  | Some DecodeFails =>
      [s; clearCanvas (set_uploadArea_loading false (alert ImageLoadFailed s))]
  | None =>
      [s; set_uploadArea_loading false (alert FileReadFailed s)]
  end.

Definition processPDFFile (file : File) (s : State) : list State :=
  let catch error :=
    clearCanvas (set_uploadArea_loading false (alert (errorMessage error) s)) in
  match asDocument file with
  | ReadRejects error => [s; catch error]
  | ParseRejects error => [s; catch error]
  | Parses pdf =>
      match getPage pdf 1 with
      | None => [s; catch invalidPageRequest]
      | Some page =>
          match render page (pageScale page) with
          | Some error => [s; catch error]
          | None =>
              match pageRaster page 1 with
              | Some img =>
                  [s; set_uploadArea_loading false (drawImageToCanvas img s)]
              | None => [s]
              end
          end
      end
  end.

Definition handleFile (file : File) (s : State) : list State :=
  match extensionOf (name file) with
  | None => [s]
  | Some extension =>
      if negb (JsString.includes_elem validExtensions extension)
      then [alert UnsupportedFormat s]
      else
        let s := set_currentFileName (JsString.replaceExt (name file)) s in
        let s := set_fileName_text (name file) s in
        let s := set_fileInfo_visible true s in
        let s := set_uploadArea_loading true s in
        if String.eqb extension "pdf" || String.eqb extension "ai"
        then processPDFFile file s
        else processImageFile file s
  end.

End FirstPageOnly.

(** ** Numbers as the engine computes them

    A JavaScript [Number] is an IEEE-754 binary64 value, and every
    arithmetic operation returns the representable number nearest to the
    exact result, ties going to the even significand.  [round] is that
    rounding on rationals, for 53-bit significands and any exponent: it
    agrees with binary64 wherever binary64 neither overflows nor
    underflows, which covers all sizes a canvas, an image or a page can
    have here (the properties below assume sizes between 1 and 2^32). *)

Module Binary64.

(** The integer nearest to [s]; halfway cases go to the even one. *)
Definition nearestEven (s : Q) : Z :=
  let f := Qfloor s in
  match Qcompare (s - inject_Z f) (1 # 2) with
  | Lt => f
  | Gt => (f + 1)%Z
  | Eq => if Z.even f then f else (f + 1)%Z
  end.

(** The exponent [e] with [2^e <= x < 2^(e+1)], for positive [x]. *)
Definition ilog2 (x : Q) : Z :=
  let e0 := (Z.log2 (Qnum x) - Z.log2 (Zpos (Qden x)))%Z in
  if Qle_bool (2 ^ e0) x then e0 else (e0 - 1)%Z.

(** Rounding a positive number to 53 significant bits. *)
Definition roundPos (x : Q) : Q :=
  let e := ilog2 x in
  inject_Z (nearestEven (x * 2 ^ (52 - e))) * 2 ^ (e - 52).

Definition round (x : Q) : Q :=
  match Qcompare 0 x with
  | Lt => Qred (roundPos x)
  | Eq => 0
  | Gt => Qred (- roundPos (- x))
  end.

(** Half the gap between 1 and the next number: 2^-53. *)
Definition unitRoundoff : Q := 1 # 9007199254740992.

(** [x] is a Number. *)
Definition isNumber (x : Q) : Prop := round x == x.

(** [a * b], [a / b], [a - b] on Numbers. *)
Definition mul (a b : Q) : Q := round (a * b).
Definition div (a b : Q) : Q := round (a / b).
Definition sub (a b : Q) : Q := round (a - b).

(** The literal [0.9]. *)
Definition nineTenths : Q := round (9 # 10).

(** The contain-mode computation of [drawImageToCanvas]. *)
Definition drawRect (img : Image) : Rect :=
  let imgAspect := div (width img) (height img) in
  let canvasAspect := div CANVAS_WIDTH CANVAS_HEIGHT in
  let '(drawWidth, drawHeight) :=
    if Qgtb imgAspect canvasAspect then
      let drawWidth := mul CANVAS_WIDTH nineTenths in
      let drawHeight := div drawWidth imgAspect in
      (drawWidth, drawHeight)
    else
      let drawHeight := mul CANVAS_HEIGHT nineTenths in
      let drawWidth := mul drawHeight imgAspect in
      (drawWidth, drawHeight) in
  let x := div (sub CANVAS_WIDTH drawWidth) 2 in
  let y := div (sub CANVAS_HEIGHT drawHeight) 2 in
  mkRect x y drawWidth drawHeight.

(** [drawImageToCanvas(img)] *)
Definition drawImageToCanvas (img : Image) (s : State) : State :=
  set_saveBtn_disabled false
    (set_hasImage true
       (set_previewCanvas (Painted img (drawRect img)) s)).

(** [page.getViewport({ scale })] *)
Definition getViewport (page : Page) (scale : Q) : Viewport :=
  mkViewport (mul (page_width page) scale) (mul (page_height page) scale).

(** The scale [renderPDFPage] computes for a page. *)
Definition pageScale (page : Page) : Q :=
  let viewport := getViewport page 1 in
  let scaleX := div CANVAS_WIDTH (vp_width viewport) in
  let scaleY := div CANVAS_HEIGHT (vp_height viewport) in
  mul (Qmin scaleX scaleY) nineTenths.

(** [scaledViewport] of [renderPDFPage]. *)
Definition scaledViewport (page : Page) : Viewport :=
  getViewport page (pageScale page).

(** The image [renderPDFPage] makes from its temporary canvas. *)
Definition pageRaster (page : Page) (pageNum : Z) : option Image :=
  let tempCanvas_width := toPixels (vp_width (scaledViewport page)) in
  let tempCanvas_height := toPixels (vp_height (scaledViewport page)) in
  imageOfCanvas (FromPage pageNum) tempCanvas_width tempCanvas_height.

(** The viewport [generateThumbnail] renders a page into. *)
Definition thumbnailViewport (page : Page) : Viewport :=
  let viewport := getViewport page 1 in
  let maxWidth := 200 in
  let scale := div maxWidth (vp_width viewport) in
  getViewport page scale.

(** The size of the canvas [generateThumbnail] appends. *)
Definition thumbnailSize (page : Page) : Z * Z :=
  (toPixels (vp_width (thumbnailViewport page)),
   toPixels (vp_height (thumbnailViewport page))).

End Binary64.

(** The tolerance within which computed sizes follow the exact ones:
    2^-50, eight times the unit roundoff. *)
Definition tolerance : Q := 1 # 1125899906842624.

(** [computed] is [exact] up to a relative error between [lo - 1] and
    [hi - 1]. *)
Definition rel (lo hi exact computed : Q) : Prop :=
  lo * exact <= computed /\ computed <= hi * exact.

(** [computed] is [exact] within the tolerance. *)
Definition near (exact computed : Q) : Prop :=
  rel (1 - tolerance) (1 + tolerance) exact computed.

(** ** The machine's binary64

    The primitive floats of the proof assistant are IEEE-754 binary64
    numbers, computed by the machine.  They serve one purpose here: to
    check [Binary64.round] against them on the operations the examples
    go through. *)

Module Machine.

(** A whole number as a float (exact up to 2^53). *)
Definition ofZ (z : Z) : PrimFloat.float :=
  PrimFloat.of_uint63 (Uint63.of_Z z).

(** The value of a finite float. *)
Definition toQ (f : PrimFloat.float) : option Q :=
  match FloatOps.Prim2SF f with
  | SpecFloat.S754_zero _ => Some 0
  | SpecFloat.S754_finite negative m e =>
      Some ((if negative then - (1) else 1) * inject_Z (Zpos m) * 2 ^ e)
  | _ => None
  end.

(** The machine's operation and the model's give the same number. *)
Definition agrees (machine : PrimFloat.float -> PrimFloat.float -> PrimFloat.float)
  (model : Q -> Q -> Q) (ab : PrimFloat.float * PrimFloat.float) : bool :=
  match toQ (fst ab), toQ (snd ab), toQ (machine (fst ab) (snd ab)) with
  | Some a, Some b, Some c => Qeq_bool (model a b) c
  | _, _, _ => false
  end.

Definition nineTenths : PrimFloat.float := PrimFloat.div (ofZ 9) (ofZ 10).

(** The quotients, products and differences computed for a 1x65 and a
    400x100 image, a 1000x100 and a 400x550 page, and the thumbnail of a
    610x100 page. *)
Definition quotients : list (PrimFloat.float * PrimFloat.float) :=
  [(ofZ 786, ofZ 280); (ofZ 1, ofZ 65); (ofZ 400, ofZ 100);
   (ofZ 786, ofZ 1000); (ofZ 280, ofZ 100); (ofZ 786, ofZ 400);
   (ofZ 280, ofZ 550); (ofZ 200, ofZ 610); (ofZ 707, ofZ 70);
   (ofZ 183, ofZ 251);
   (PrimFloat.mul (ofZ 786) nineTenths, PrimFloat.div (ofZ 400) (ofZ 100));
   (PrimFloat.mul (ofZ 786) nineTenths, PrimFloat.div (ofZ 707) (ofZ 70));
   (PrimFloat.sub (ofZ 786) (PrimFloat.mul (ofZ 786) nineTenths), ofZ 2);
   (PrimFloat.sub (ofZ 786)
      (PrimFloat.mul (ofZ 252) (PrimFloat.div (ofZ 1) (ofZ 65))), ofZ 2);
   (PrimFloat.sub (ofZ 280) (ofZ 252), ofZ 2)].

Definition products : list (PrimFloat.float * PrimFloat.float) :=
  [(ofZ 786, nineTenths); (ofZ 280, nineTenths);
   (ofZ 252, PrimFloat.div (ofZ 1) (ofZ 65));
   (ofZ 252, PrimFloat.div (ofZ 183) (ofZ 251));
   (PrimFloat.div (ofZ 786) (ofZ 1000), nineTenths);
   (PrimFloat.div (ofZ 280) (ofZ 550), nineTenths);
   (ofZ 1000, PrimFloat.mul (PrimFloat.div (ofZ 786) (ofZ 1000)) nineTenths);
   (ofZ 100, PrimFloat.mul (PrimFloat.div (ofZ 786) (ofZ 1000)) nineTenths);
   (ofZ 400, PrimFloat.mul (PrimFloat.div (ofZ 280) (ofZ 550)) nineTenths);
   (ofZ 550, PrimFloat.mul (PrimFloat.div (ofZ 280) (ofZ 550)) nineTenths);
   (ofZ 610, PrimFloat.div (ofZ 200) (ofZ 610));
   (ofZ 100, PrimFloat.div (ofZ 200) (ofZ 610))].

Definition differences : list (PrimFloat.float * PrimFloat.float) :=
  [(ofZ 786, PrimFloat.mul (ofZ 786) nineTenths);
   (ofZ 786, PrimFloat.mul (ofZ 252) (PrimFloat.div (ofZ 1) (ofZ 65)));
   (ofZ 280, PrimFloat.mul (ofZ 280) nineTenths);
   (ofZ 280,
    PrimFloat.div (PrimFloat.mul (ofZ 786) nineTenths)
      (PrimFloat.div (ofZ 400) (ofZ 100)))].

End Machine.

(** ** Vocabulary of the specification *)

(** [fitContain] as the specification words it (Geometry Engine). *)
Definition fitContain
  (contentWidth contentHeight targetWidth targetHeight paddingFactor : Q)
  : Rect :=
  let contentAspect := contentWidth / contentHeight in
  let targetAspect := targetWidth / targetHeight in
  let '(drawWidth, drawHeight) :=
    if Qgtb contentAspect targetAspect
    then (targetWidth * paddingFactor,
          targetWidth * paddingFactor / contentAspect)
    else (targetHeight * paddingFactor * contentAspect,
          targetHeight * paddingFactor) in
  mkRect ((targetWidth - drawWidth) / 2) ((targetHeight - drawHeight) / 2)
    drawWidth drawHeight.

(** [Idle]: no document is loaded. *)
Definition idle (s : State) : Prop :=
  currentPDF s = None.




(** The pages whose grid item carries the selection marker. *)
Definition markedPages (grid : list ArtboardItem) : list Z :=
  dataset_page <$> filter (fun it => selected it = true) grid.

(** The grid [showArtboardSelector] builds for [n] pages, whatever the
    markers and thumbnails are by now. *)
Definition gridOf (n : Z) (grid : list ArtboardItem) : Prop :=
  dataset_page <$> grid = seqZ 1 n.

(** Blank canvas, upload state reset. *)
Definition isReset (s : State) : Prop :=
  previewCanvas s = White /\
  currentFileName s = "" /\
  hasImage s = false /\
  currentPDF s = None /\
  selectedArtboard s = None /\
  artboardGrid s = [] /\
  artboardSection_visible s = false.

(** The script variables and the output canvas. *)
Definition sameUpload (s s' : State) : Prop :=
  previewCanvas s' = previewCanvas s /\
  currentFileName s' = currentFileName s /\
  hasImage s' = hasImage s /\
  currentPDF s' = currentPDF s /\
  selectedArtboard s' = selectedArtboard s.

(** An item without the selection marker. *)
Definition unmarked (it : ArtboardItem) : Prop := selected it = false.

(** What an action can do to the flag and the canvas: nothing, a
    composite, or a reset. *)
Definition flagFollowsCanvas (s s' : State) : Prop :=
  (hasImage s' = hasImage s /\ previewCanvas s' = previewCanvas s) \/
  (hasImage s' = true /\
   exists img, previewCanvas s' = Painted img (drawRect img)) \/
  (hasImage s' = false /\ previewCanvas s' = White).

(** Splitting a name at its last dot: what is before, what is after. *)
Fixpoint splitLastDot (s : string) : option (string * string) :=
  match s with
  | EmptyString => None
  | String c r =>
      match splitLastDot r with
      | Some (b, e) => Some (String c b, e)
      | None => if Ascii.eqb c JsString.dot then Some (EmptyString, r) else None
      end
  end.

(** "The uploaded filename with its final extension stripped". *)
Definition originalBaseName (fname : string) : string :=
  match splitLastDot fname with
  | Some (b, _) => b
  | None => fname
  end.

(** [needle] occurs in [hay]. *)
Definition occursIn (needle hay : string) : Prop :=
  exists pre post, hay = (pre ++ needle ++ post)%string.

Definition hasNoDot (fname : string) : Prop :=
  ~ In JsString.dot (list_ascii_of_string fname).

(** ** Sample inputs *)

(** The page as loaded, before any upload: the script variables as
    declared and the canvas after [initCanvas()]; for the nodes, the markup
    of a page on which nothing is shown and saving is disabled. *)
Definition initial : State :=
  {| currentFileName := ""; hasImage := false; currentPDF := None;
     selectedArtboard := None; previewCanvas := White;
     saveBtn_disabled := true; fileInfo_visible := false;
     fileName_text := ""; fileInput_value := ""; uploadArea_loading := false;
     artboardSection_visible := false; artboardGrid := [];
     artboardCount_text := None; alerts := [] |}.

Definition noDocument : DocumentBytes := ParseRejects (mkError None).

Definition plainPage (w h : Q) : Page := mkPage w h (fun _ => None).

Definition failingPage (w h : Q) : Page :=
  mkPage w h (fun _ => Some (mkError (Some "render failed"))).

Definition logo_png : File :=
  mkFile "logo.png" (Some (Decodes 400 100)) noDocument.

Definition unreadable_jpg : File :=
  mkFile "b.jpg" None noDocument.

Definition dotless_png : File :=
  mkFile "png" (Some (Decodes 400 100)) noDocument.

Definition brochure_ai : File :=
  mkFile "brochure.ai" None
    (ParseRejects (mkError (Some "Invalid PDF structure."))).

Definition widePage : Page := plainPage 1000 100.

Definition threePages : PDFDocumentProxy :=
  mkPDF [widePage; failingPage 100 100; plainPage 300 400].

Definition three_pdf : File :=
  mkFile "boards.pdf" None (Parses threePages).

Definition onePage : PDFDocumentProxy := mkPDF [plainPage 300 400].

Definition one_pdf : File :=
  mkFile "single.pdf" None (Parses onePage).



(** The three-page document, loaded. *)
Definition loadedThree : State := handle (Upload three_pdf) initial.

(** The states the page can be in through user actions. *)
Inductive reachable : State -> Prop :=
  | reachable_initial : reachable initial
  | reachable_handle e s : reachable s -> reachable (handle e s).

(** ** Further vocabulary *)

(** The selector shows the loaded document: nothing without a document or
    for a document of one page, otherwise one item per page, in order,
    with the page count beside the title. *)
Definition selectorMatches (s : State) : Prop :=
  match currentPDF s with
  | None => artboardGrid s = [] /\ artboardSection_visible s = false
  | Some pdf =>
      if (1 <? numPages pdf)%Z
      then gridOf (numPages pdf) (artboardGrid s) /\
           artboardSection_visible s = true /\
           artboardCount_text s = Some (numPages pdf)
      else artboardGrid s = [] /\ artboardSection_visible s = false
  end.

(** The save button is enabled exactly while the flag is set. *)
Definition saveFollowsFlag (s : State) : Prop :=
  saveBtn_disabled s = negb (hasImage s).





(** The document does not open. *)
Definition documentRejected (file : File) : Prop :=
  exists error,
    asDocument file = ReadRejects error \/ asDocument file = ParseRejects error.

(** ** Actions that overlap

    [handle] lets every upload and pick settle before the next action.
    The script does not: [processImageFile] returns while the file is
    being read, and the [async] functions suspend at each [await], so a
    later action, or the completion of another pending operation, can run
    in between, and nothing is ever cancelled.  Here the operations in
    flight are kept beside the state and complete in any order.  The
    awaits of one function between which the script touches neither its
    variables nor the page are taken as one. *)

Module Overlapped.

(** Who awaits a [renderPDFPage]. *)
Inductive Caller : Type :=
  | FromUpload        (* processPDFFile: removes the loading state after it *)
  | FromPick.         (* selectArtboard: nothing follows *)

(** An operation in flight, with what its continuation has captured. *)
Inductive Pending : Type :=
  | Reading (file : File)
      (* processImageFile: the FileReader, then the image it loads *)
  | Opening (file : File)
      (* processPDFFile: file.arrayBuffer(), then getDocument *)
  | RemovingLoading
      (* processPDFFile after [await showArtboardSelector] or
         [await renderPDFPage] *)
  | Rendering (pdf : PDFDocumentProxy) (pageNum : Z) (caller : Caller)
      (* renderPDFPage: getPage, then render *)
  | Loading (img : Image)
      (* the image of renderPDFPage, until its onload *)
  | Thumbnailing (pdf : PDFDocumentProxy) (pageNum : Z)
      (generation : nat) (container : nat).
      (* generateThumbnail: getPage, then render; the wrapper is the one
         at position [container] of the grid as built at [generation] *)

(** The page and what is in flight.  [generation] counts how often
    [artboardGrid.innerHTML] has been emptied: the children the grid had
    before are detached, and writing to them shows nothing. *)
Record World : Type := mkWorld {
  page : State;
  generation : nat;
  inFlight : list Pending
}.

Definition start : World := mkWorld initial 0 [].

(** [handleFile(file)] up to its return. *)
Definition upload (file : File) (w : World) : World :=
  match extensionOf (name file) with
  | None => w
  | Some extension =>
      if negb (JsString.includes_elem validExtensions extension)
      then mkWorld (alert UnsupportedFormat (page w)) (generation w) (inFlight w)
      else
        let s := set_currentFileName (JsString.replaceExt (name file)) (page w) in
        let s := set_fileName_text (name file) s in
        let s := set_fileInfo_visible true s in
        let s := set_uploadArea_loading true s in
        let s := hideArtboardSection s in
        if String.eqb extension "pdf" || String.eqb extension "ai"
        then mkWorld s (S (generation w)) (inFlight w ++ [Opening file])
        else mkWorld s (S (generation w)) (inFlight w ++ [Reading file])
  end.

(** A click on the item at position [i] of the grid on display: the
    handler [showArtboardSelector] gave it calls [selectArtboard] with the
    item and its page number; up to the first [await]. *)
Definition click (i : nat) (w : World) : World :=
  match artboardGrid (page w) !! i with
  | Some it =>
      if artboardSection_visible (page w) then
        let s := markSelected i (dataset_page it) (page w) in
        match currentPDF s with
        | Some pdf =>
            mkWorld s (generation w)
              (inFlight w ++ [Rendering pdf (dataset_page it) FromPick])
        | None => mkWorld s (generation w) (inFlight w)
        end
      else w
  | None => w
  end.

(** [clearBtn] *)
Definition clear (w : World) : World :=
  mkWorld (clearCanvas (page w)) (S (generation w)) (inFlight w).

(** [saveBtn] *)
Definition save (w : World) : World :=
  mkWorld (snd (downloadImage (page w))) (generation w) (inFlight w).

(** The thumbnail tasks [showArtboardSelector] starts. *)
Definition thumbnailing (pdf : PDFDocumentProxy) (generation : nat)
  (tasks : list Task) : list Pending :=
  (fun t => Thumbnailing pdf (fst t) generation (snd t)) <$> tasks.

(** What the caller of [renderPDFPage] does when it returns. *)
Definition resume (caller : Caller) : list Pending :=
  match caller with
  | FromUpload => [RemovingLoading]
  | FromPick => []
  end.

(** The image [renderPDFPage] leaves loading, if any. *)
Definition loading (pending : option Image) : list Pending :=
  match pending with
  | Some img => [Loading img]
  | None => []
  end.

(** The continuation of [p] runs; [w] is the world without [p]. *)
Definition complete (p : Pending) (w : World) : World :=
  let s := page w in
  match p with
  | Reading file =>
      match readAsDataURL file with
      | Some (Decodes nw nh) =>
          let img := mkImage (FromFile (name file)) (inject_Z nw) (inject_Z nh) in
          mkWorld (set_uploadArea_loading false (drawImageToCanvas img s))
            (generation w) (inFlight w)
      | Some DecodeFails =>
          mkWorld
            (clearCanvas (set_uploadArea_loading false (alert ImageLoadFailed s)))
            (S (generation w)) (inFlight w)
      | None =>
          mkWorld (set_uploadArea_loading false (alert FileReadFailed s))
            (generation w) (inFlight w)
      end
  | Opening file =>
      let catch error :=
        mkWorld
          (clearCanvas
             (set_uploadArea_loading false (alert (errorMessage error) s)))
          (S (generation w)) (inFlight w) in
      match asDocument file with
      | ReadRejects error => catch error
      | ParseRejects error => catch error
      | Parses pdf =>
          let s1 := set_currentPDF (Some pdf) s in
          let numPages := numPages pdf in
          if (1 <? numPages)%Z then
            let '(s2, tasks) := showArtboardSelector pdf numPages s1 in
            mkWorld s2 (S (generation w))
              (inFlight w ++ thumbnailing pdf (S (generation w)) tasks
               ++ [RemovingLoading])
          else
            mkWorld s1 (generation w)
              (inFlight w ++ [Rendering pdf 1 FromUpload])
      end
  | RemovingLoading =>
      mkWorld (set_uploadArea_loading false s) (generation w) (inFlight w)
  | Rendering pdf pageNum caller =>
      let '(s', pending) := renderPDFPage pdf pageNum s in
      mkWorld s' (generation w)
        (inFlight w ++ resume caller ++ loading pending)
  | Loading img =>
      mkWorld (drawImageToCanvas img s) (generation w) (inFlight w)
  | Thumbnailing pdf pageNum born container =>
      if Nat.eqb born (generation w)
      then mkWorld (generateThumbnail pdf pageNum container s)
             (generation w) (inFlight w)
      else w
  end.

(** What can happen next: the user acts, or the operation at position
    [n] of those in flight completes. *)
Inductive Action : Type :=
  | Upload (file : File)
  | Click (i : nat)
  | Clear
  | Save
  | Complete (n : nat).

Definition act (a : Action) (w : World) : World :=
  match a with
  | Upload file => upload file w
  | Click i => click i w
  | Clear => clear w
  | Save => save w
  | Complete n =>
      match inFlight w !! n with
      | Some p =>
          complete p (mkWorld (page w) (generation w) (delete n (inFlight w)))
      | None => w
      end
  end.

(** The world after the actions of [trace], first to last. *)
Definition run (trace : list Action) (w : World) : World :=
  fold_left (fun w a => act a w) trace w.

(** Every world the script can be in. *)
Inductive reachable : World -> Prop :=
  | reachable_start : reachable start
  | reachable_act a w : reachable w -> reachable (act a w).

End Overlapped.

(** The marker is on the item of [selectedArtboard], and on no other. *)
Definition markerFollowsSelection (s : State) : Prop :=
  markedPages (artboardGrid s)
  = match selectedArtboard s with
    | Some k => [k]
    | None => []
    end.

(** Item [i] of the grid stands for page [i + 1]. *)
Definition inPageOrder (grid : list ArtboardItem) : Prop :=
  gridOf (Z.of_nat (length grid)) grid.

(** Two uploads that overlap: a three-page document, then a one-page
    document before the first has been opened; the first opens, then the
    second. *)
Definition overlappingUploads : list Overlapped.Action :=
  [Overlapped.Upload three_pdf; Overlapped.Upload one_pdf;
   Overlapped.Complete 0; Overlapped.Complete 0].

(** What every world keeps, however actions and completions interleave. *)
Definition selectorInvariant (s : State) : Prop :=
  markerFollowsSelection s /\
  inPageOrder (artboardGrid s) /\
  (artboardGrid s <> [] -> artboardSection_visible s = true).

(** A raster uploaded while a three-page document is still being opened;
    the document opens, then the raster is read. *)
Definition rasterOverDocument : list Overlapped.Action :=
  [Overlapped.Upload three_pdf; Overlapped.Upload logo_png;
   Overlapped.Complete 0; Overlapped.Complete 0].

(** The three-page document is loaded; the item of page 1 is clicked,
    then the item of page 3 while page 1 is still rendering; page 3
    finishes rendering and loads, then page 1 does. *)
Definition overlappingPicks : list Overlapped.Action :=
  [Overlapped.Upload three_pdf; Overlapped.Complete 0;
   Overlapped.Click 0; Overlapped.Click 2;
   Overlapped.Complete 5; Overlapped.Complete 5;
   Overlapped.Complete 4; Overlapped.Complete 4].

(** * Properties *)

(** ** Rational arithmetic *)

Lemma Qgtb_true a b : Qgtb a b = true <-> b < a.
Proof.
  unfold Qgtb. rewrite Bool.negb_true_iff. split; intro H.
  - apply Qnot_le_lt. intro Hle. apply Qle_bool_iff in Hle. congruence.
  - destruct (Qle_bool a b) eqn:E; [|reflexivity].
    apply Qle_bool_iff in E. exfalso. apply (Qlt_not_le _ _ H E).
Qed.

Lemma Qgtb_false a b : Qgtb a b = false <-> a <= b.
Proof.
  unfold Qgtb. rewrite Bool.negb_false_iff. apply Qle_bool_iff.
Qed.

Lemma Qdiv_mult_cancel w h : 0 < h -> w / h * h == w.
Proof. intros. field. lra. Qed.

Lemma Qtwice_half a : 2 * (a / 2) == a.
Proof. field. Qed.

Lemma Qlt_div_iff a w h : 0 < h -> (a < w / h <-> a * h < w).
Proof.
  intros Hh. split; intro H.
  - rewrite <- (Qdiv_mult_cancel w h Hh). apply Qmult_lt_compat_r; assumption.
  - apply Qlt_shift_div_l; assumption.
Qed.

Lemma Qle_div_iff a w h : 0 < h -> (w / h <= a <-> w <= a * h).
Proof.
  intros Hh. split; intro H.
  - rewrite <- (Qdiv_mult_cancel w h Hh). apply Qmult_le_compat_r; lra.
  - apply Qle_shift_div_r; assumption.
Qed.

Lemma canvasAspect_value : CANVAS_WIDTH / CANVAS_HEIGHT == 786 # 280.
Proof. reflexivity. Qed.

(** Comparing aspects is comparing cross products. *)
Lemma wider_iff w h :
  0 < h -> (CANVAS_WIDTH / CANVAS_HEIGHT < w / h <-> 786 * h < 280 * w).
Proof.
  intros Hh. rewrite (Qlt_div_iff _ _ _ Hh), canvasAspect_value.
  split; intro; lra.
Qed.

Lemma taller_iff w h :
  0 < h -> (w / h <= CANVAS_WIDTH / CANVAS_HEIGHT <-> 280 * w <= 786 * h).
Proof.
  intros Hh. rewrite (Qle_div_iff _ _ _ Hh), canvasAspect_value.
  split; intro; lra.
Qed.

(** ** The contain-fit rectangle *)

Lemma wide_rect (img : Image) :
  0 < width img -> 0 < height img ->
  CANVAS_WIDTH / CANVAS_HEIGHT < width img / height img ->
  drawWidth (drawRect img) == CANVAS_WIDTH * nineTenths /\
  drawHeight (drawRect img)
    == CANVAS_WIDTH * nineTenths * height img / width img.
Proof.
  intros Hw Hh H. apply Qgtb_true in H. unfold drawRect. rewrite H. simpl.
  split; [reflexivity|]. field. lra.
Qed.

Lemma tall_rect (img : Image) :
  0 < width img -> 0 < height img ->
  width img / height img <= CANVAS_WIDTH / CANVAS_HEIGHT ->
  drawHeight (drawRect img) == CANVAS_HEIGHT * nineTenths /\
  drawWidth (drawRect img)
    == CANVAS_HEIGHT * nineTenths * width img / height img.
Proof.
  intros Hw Hh H. apply Qgtb_false in H. unfold drawRect. rewrite H. simpl.
  split; [reflexivity|]. field. lra.
Qed.

Lemma rect_offsets (img : Image) :
  2 * rect_x (drawRect img) == CANVAS_WIDTH - drawWidth (drawRect img) /\
  2 * rect_y (drawRect img) == CANVAS_HEIGHT - drawHeight (drawRect img).
Proof.
  unfold drawRect. destruct (Qgtb _ _); simpl; split; apply Qtwice_half.
Qed.

Lemma fit_bounds (img : Image) :
  0 < width img -> 0 < height img ->
  0 < drawWidth (drawRect img) <= CANVAS_WIDTH * nineTenths /\
  0 < drawHeight (drawRect img) <= CANVAS_HEIGHT * nineTenths.
Proof.
  intros Hw Hh.
  destruct (Qlt_le_dec (CANVAS_WIDTH / CANVAS_HEIGHT) (width img / height img))
    as [H|H].
  - destruct (wide_rect img Hw Hh H) as [Ew Eh]. rewrite Ew, Eh.
    apply (proj1 (wider_iff _ _ Hh)) in H.
    unfold CANVAS_WIDTH, CANVAS_HEIGHT, nineTenths in *.
    split; [lra|]. split.
    + apply Qlt_shift_div_l; lra.
    + apply Qle_shift_div_r; lra.
  - destruct (tall_rect img Hw Hh H) as [Eh Ew]. rewrite Ew, Eh.
    apply (proj1 (taller_iff _ _ Hh)) in H.
    unfold CANVAS_WIDTH, CANVAS_HEIGHT, nineTenths in *.
    split; [|lra]. split.
    + apply Qlt_shift_div_l; lra.
    + apply Qle_shift_div_r; lra.
Qed.

Lemma fit_ratio (img : Image) :
  0 < width img -> 0 < height img ->
  drawWidth (drawRect img) / drawHeight (drawRect img)
    == width img / height img.
Proof.
  intros Hw Hh.
  destruct (Qlt_le_dec (CANVAS_WIDTH / CANVAS_HEIGHT) (width img / height img))
    as [H|H].
  - destruct (wide_rect img Hw Hh H) as [Ew Eh]. rewrite Ew, Eh.
    unfold CANVAS_WIDTH, nineTenths. field. lra.
  - destruct (tall_rect img Hw Hh H) as [Eh Ew]. rewrite Ew, Eh.
    unfold CANVAS_HEIGHT, nineTenths. field. lra.
Qed.

(** [drawImageToCanvas] computes the rectangle of the specification's
    [fitContain] for the 786x280 target and padding 0.9. *)
Lemma drawRect_fitContain (img : Image) :
  drawRect img
  = fitContain (width img) (height img) CANVAS_WIDTH CANVAS_HEIGHT nineTenths.
Proof.
  unfold drawRect, fitContain. destruct (Qgtb _ _); reflexivity.
Qed.

(** Scenario A: in exact arithmetic a 400x100 logo is drawn
    707.4 x 176.85 at (39.3, 51.575). *)
Example logo_400x100 :
  drawWidth (drawRect (mkImage (FromFile "logo.png") 400 100)) == 707.4 /\
  drawHeight (drawRect (mkImage (FromFile "logo.png") 400 100)) == 176.85 /\
  rect_x (drawRect (mkImage (FromFile "logo.png") 400 100)) == 39.3 /\
  rect_y (drawRect (mkImage (FromFile "logo.png") 400 100)) == 51.575.
Proof. repeat split. Qed.

(** ** The scale of a rendered page *)

Lemma scale_order (w h : Q) :
  0 < w -> 0 < h ->
  (CANVAS_WIDTH / (w * 1) <= CANVAS_HEIGHT / (h * 1) <-> 786 * h <= 280 * w).
Proof.
  intros Hw Hh. unfold CANVAS_WIDTH, CANVAS_HEIGHT.
  assert (E : 280 / (h * 1) == 280 * (/ h)) by (field; lra).
  assert (E' : 786 / (w * 1) == 786 * (/ w)) by (field; lra).
  rewrite E, E'. split; intro H.
  - apply (Qmult_le_compat_r _ _ (w * h)) in H; [|nra].
    assert (E1 : 786 * / w * (w * h) == 786 * h) by (field; lra).
    assert (E2 : 280 * / h * (w * h) == 280 * w) by (field; lra).
    rewrite E1, E2 in H. exact H.
  - assert (E1 : 786 * / w == 786 * h / (w * h)) by (field; lra).
    assert (E2 : 280 * / h == 280 * w / (w * h)) by (field; lra).
    rewrite E1, E2. apply Qle_shift_div_l; [nra|].
    rewrite Qdiv_mult_cancel; [exact H | nra].
Qed.

Lemma scaledViewport_wide (page : Page) :
  0 < page_width page -> 0 < page_height page ->
  786 * page_height page <= 280 * page_width page ->
  vp_width (scaledViewport page) == CANVAS_WIDTH * nineTenths /\
  vp_height (scaledViewport page)
    == CANVAS_WIDTH * nineTenths * page_height page / page_width page.
Proof.
  intros Hw Hh H. unfold scaledViewport, pageScale, getViewport. simpl.
  rewrite (Q.min_l _ _ (proj2 (scale_order _ _ Hw Hh) H)).
  split; field; lra.
Qed.

Lemma scaledViewport_tall (page : Page) :
  0 < page_width page -> 0 < page_height page ->
  280 * page_width page <= 786 * page_height page ->
  vp_height (scaledViewport page) == CANVAS_HEIGHT * nineTenths /\
  vp_width (scaledViewport page)
    == CANVAS_HEIGHT * nineTenths * page_width page / page_height page.
Proof.
  intros Hw Hh H. unfold scaledViewport, pageScale, getViewport. simpl.
  assert (Hs : CANVAS_HEIGHT / (page_height page * 1)
               <= CANVAS_WIDTH / (page_width page * 1)).
  { destruct (Qlt_le_dec (CANVAS_HEIGHT / (page_height page * 1))
                (CANVAS_WIDTH / (page_width page * 1))) as [L|L].
    - apply Qlt_le_weak, L.
    - apply (scale_order _ _ Hw Hh) in L.
      assert (E : 786 * page_height page == 280 * page_width page) by lra.
      apply Qle_lteq. right. unfold CANVAS_WIDTH, CANVAS_HEIGHT.
      apply Qeq_sym.
      assert (E1 : 786 / (page_width page * 1)
                   == 786 * page_height page
                      / (page_width page * page_height page))
        by (field; lra).
      rewrite E1, E. field. lra. }
  rewrite (Q.min_r _ _ Hs).
  split; field; lra.
Qed.

(** The scaled viewport of a page is the fitted size of the page. *)
Lemma scaledViewport_fit (page : Page) (from : ImageSource) :
  0 < page_width page -> 0 < page_height page ->
  let r := drawRect (mkImage from (page_width page) (page_height page)) in
  vp_width (scaledViewport page) == drawWidth r /\
  vp_height (scaledViewport page) == drawHeight r.
Proof.
  intros Hw Hh r. subst r.
  set (img := mkImage from (page_width page) (page_height page)).
  destruct (Qlt_le_dec (CANVAS_WIDTH / CANVAS_HEIGHT) (width img / height img))
    as [H|H].
  - destruct (wide_rect img Hw Hh H) as [Ew Eh].
    apply (proj1 (wider_iff _ _ Hh)) in H.
    destruct (scaledViewport_wide page Hw Hh) as [Vw Vh]; [simpl in H; lra|].
    rewrite Ew, Eh, Vw, Vh. split; reflexivity.
  - destruct (tall_rect img Hw Hh H) as [Eh Ew].
    apply (proj1 (taller_iff _ _ Hh)) in H.
    destruct (scaledViewport_tall page Hw Hh) as [Vh Vw]; [exact H|].
    rewrite Ew, Eh, Vw, Vh. split; reflexivity.
Qed.

Lemma scaledViewport_bounds (page : Page) :
  0 < page_width page -> 0 < page_height page ->
  0 < vp_width (scaledViewport page) <= 707.4 /\
  0 < vp_height (scaledViewport page) <= 252.
Proof.
  intros Hw Hh.
  destruct (scaledViewport_fit page (FromPage 0) Hw Hh) as [Fw Fh].
  cbv zeta in Fw, Fh. rewrite Fw, Fh.
  destruct (fit_bounds
              (mkImage (FromPage 0) (page_width page) (page_height page))
              Hw Hh) as [[Lw Uw] [Lh Uh]].
  unfold CANVAS_WIDTH, CANVAS_HEIGHT, nineTenths in *.
  repeat split; lra.
Qed.

(** ** The raster of a rendered page *)


Lemma inject_Z_pos (z : Z) : (0 < z)%Z -> 0 < inject_Z z.
Proof. intro H. change 0 with (inject_Z 0). rewrite <- Zlt_Qlt. exact H. Qed.

(** ** Rounding to the nearest Number *)

Lemma pow2_pos (k : Z) : 0 < 2 ^ k.
Proof. apply Qpower_0_lt. reflexivity. Qed.

Lemma pow2_add (a b : Z) : 2 ^ (a + b) == 2 ^ a * 2 ^ b.
Proof. apply Qpower_plus. discriminate. Qed.

Lemma pow2_le (a b : Z) : (a <= b)%Z -> 2 ^ a <= 2 ^ b.
Proof. intros H. apply Qpower_le_compat_l; [exact H | discriminate]. Qed.

Lemma pow2_lt (a b : Z) : (a < b)%Z -> 2 ^ a < 2 ^ b.
Proof. intros H. apply Qpower_lt_compat_l; [exact H | reflexivity]. Qed.

Lemma pow2_succ (a : Z) : 2 ^ (a + 1) == 2 * 2 ^ a.
Proof. rewrite pow2_add. change (2 ^ 1) with 2. ring. Qed.

Lemma pow2_Z (k : Z) : (0 <= k)%Z -> inject_Z (2 ^ k) == 2 ^ k.
Proof. intros H. apply (Zpower_Qpower 2 k H). Qed.

Lemma ilog2_spec (x : Q) :
  0 < x -> 2 ^ Binary64.ilog2 x <= x /\ x < 2 ^ (Binary64.ilog2 x + 1).
Proof.
  intros Hx. destruct x as [n d]. unfold Binary64.ilog2. cbn [Qnum Qden].
  assert (Hn : (0 < n)%Z).
  { unfold Qlt in Hx. cbn in Hx. lia. }
  set (ln := Z.log2 n). set (ld := Z.log2 (Z.pos d)).
  assert (Ln : (0 <= ln)%Z) by apply Z.log2_nonneg.
  assert (Ld : (0 <= ld)%Z) by apply Z.log2_nonneg.
  destruct (Z.log2_spec n Hn) as [N1 N2]. fold ln in N1, N2.
  destruct (Z.log2_spec (Z.pos d) eq_refl) as [D1 D2]. fold ld in D1, D2.
  assert (QN1 : 2 ^ ln <= inject_Z n).
  { rewrite <- pow2_Z by exact Ln. rewrite <- Zle_Qle. exact N1. }
  assert (QN2 : inject_Z n < 2 ^ (ln + 1)).
  { rewrite <- pow2_Z by lia. rewrite <- Zlt_Qlt. unfold Z.succ in N2. exact N2. }
  assert (QD1 : 2 ^ ld <= inject_Z (Z.pos d)).
  { rewrite <- pow2_Z by exact Ld. rewrite <- Zle_Qle. exact D1. }
  assert (QD2 : inject_Z (Z.pos d) < 2 ^ (ld + 1)).
  { rewrite <- pow2_Z by lia. rewrite <- Zlt_Qlt. unfold Z.succ in D2. exact D2. }
  assert (X : (n # d) * inject_Z (Z.pos d) == inject_Z n).
  { rewrite (Qmake_Qdiv n d). field. discriminate. }
  assert (Dpos : 0 < inject_Z (Z.pos d)) by reflexivity.
  assert (Up : n # d < 2 ^ (ln - ld + 1)).
  { assert (E : 2 ^ (ln + 1) == 2 ^ (ln - ld + 1) * 2 ^ ld).
    { rewrite <- pow2_add. replace (ln - ld + 1 + ld)%Z with (ln + 1)%Z by lia.
      reflexivity. }
    pose proof (pow2_pos (ln - ld + 1)) as P.
    apply Qnot_le_lt. intros C.
    assert (2 ^ (ln - ld + 1) * 2 ^ ld <= (n # d) * inject_Z (Z.pos d)).
    { apply Qle_trans with (2 ^ (ln - ld + 1) * inject_Z (Z.pos d)).
      - apply Qmult_le_l; assumption.
      - apply Qmult_le_r; assumption. }
    rewrite X, <- E in H. apply (Qlt_not_le _ _ QN2 H). }
  assert (Lo : 2 ^ (ln - ld - 1) < n # d).
  { assert (E : 2 ^ ln == 2 ^ (ln - ld - 1) * 2 ^ (ld + 1)).
    { rewrite <- pow2_add. replace (ln - ld - 1 + (ld + 1))%Z with ln by lia.
      reflexivity. }
    pose proof (pow2_pos (ln - ld - 1)) as P.
    apply Qnot_le_lt. intros C.
    assert ((n # d) * inject_Z (Z.pos d) < 2 ^ (ln - ld - 1) * 2 ^ (ld + 1)).
    { apply Qle_lt_trans with (2 ^ (ln - ld - 1) * inject_Z (Z.pos d)).
      - apply Qmult_le_r; assumption.
      - apply Qmult_lt_l; assumption. }
    rewrite X, <- E in H. apply (Qlt_not_le _ _ H QN1). }
  destruct (Qle_bool (2 ^ (ln - ld)) (n # d)) eqn:B.
  - apply Qle_bool_iff in B. split; assumption.
  - assert (B' : n # d < 2 ^ (ln - ld)).
    { apply Qnot_le_lt. intros C. apply Qle_bool_iff in C. congruence. }
    replace (ln - ld - 1 + 1)%Z with (ln - ld)%Z by lia.
    split; [apply Qlt_le_weak; exact Lo | exact B'].
Qed.

Lemma ilog2_unique (x : Q) (e : Z) :
  2 ^ e <= x -> x < 2 ^ (e + 1) -> Binary64.ilog2 x = e.
Proof.
  intros L U.
  assert (Hx : 0 < x) by (apply Qlt_le_trans with (2 ^ e); [apply pow2_pos | exact L]).
  destruct (ilog2_spec x Hx) as [L' U'].
  assert (A : (e < Binary64.ilog2 x + 1)%Z).
  { apply (Qpower_lt_compat_l_inv 2); [| reflexivity].
    apply Qle_lt_trans with x; assumption. }
  assert (B : (Binary64.ilog2 x < e + 1)%Z).
  { apply (Qpower_lt_compat_l_inv 2); [| reflexivity].
    apply Qle_lt_trans with x; assumption. }
  lia.
Qed.

Lemma ilog2_mono (x y : Q) : 0 < x -> x <= y -> (Binary64.ilog2 x <= Binary64.ilog2 y)%Z.
Proof.
  intros Hx Hxy.
  assert (Hy : 0 < y) by (apply Qlt_le_trans with x; assumption).
  destruct (ilog2_spec x Hx) as [L _]. destruct (ilog2_spec y Hy) as [_ U].
  assert (A : (Binary64.ilog2 x < Binary64.ilog2 y + 1)%Z).
  { apply (Qpower_lt_compat_l_inv 2); [| reflexivity].
    apply Qle_lt_trans with x; [exact L |].
    apply Qle_lt_trans with y; assumption. }
  lia.
Qed.

Lemma nearestEven_cases (s : Q) :
  (Binary64.nearestEven s = Qfloor s /\ s - inject_Z (Qfloor s) <= 1 # 2) \/
  (Binary64.nearestEven s = (Qfloor s + 1)%Z /\ 1 # 2 <= s - inject_Z (Qfloor s)).
Proof.
  unfold Binary64.nearestEven.
  destruct (Qcompare_spec (s - inject_Z (Qfloor s)) (1 # 2)) as [C | C | C].
  - destruct (Z.even (Qfloor s)).
    + left. split; [reflexivity | rewrite C; apply Qle_refl].
    + right. split; [reflexivity | rewrite C; apply Qle_refl].
  - left. split; [reflexivity | apply Qlt_le_weak; exact C].
  - right. split; [reflexivity | apply Qlt_le_weak; exact C].
Qed.

Lemma nearestEven_near (s : Q) :
  s - (1 # 2) <= inject_Z (Binary64.nearestEven s) /\ inject_Z (Binary64.nearestEven s) <= s + (1 # 2).
Proof.
  pose proof (Qfloor_le s) as F1. pose proof (Qlt_floor s) as F2.
  rewrite inject_Z_plus in F2. change (inject_Z 1) with 1 in F2.
  destruct (nearestEven_cases s) as [[-> H] | [-> H]].
  - split; lra.
  - rewrite inject_Z_plus. change (inject_Z 1) with 1. split; lra.
Qed.

Lemma nearestEven_Z (n : Z) : Binary64.nearestEven (inject_Z n) = n.
Proof.
  unfold Binary64.nearestEven. rewrite Qfloor_Z.
  assert (E : Qcompare (inject_Z n - inject_Z n) (1 # 2) = Lt).
  { apply Qlt_alt. assert (Z0 : inject_Z n - inject_Z n == 0) by ring.
    rewrite Z0. reflexivity. }
  rewrite E. reflexivity.
Qed.

Lemma nearestEven_mono (s t : Q) : s <= t -> (Binary64.nearestEven s <= Binary64.nearestEven t)%Z.
Proof.
  intros H. pose proof (Qfloor_resp_le _ _ H) as F.
  destruct (Z.eq_dec (Qfloor s) (Qfloor t)) as [E | NE].
  - unfold Binary64.nearestEven. rewrite <- E.
    destruct (Qcompare_spec (s - inject_Z (Qfloor s)) (1 # 2)) as [Cs | Cs | Cs];
      destruct (Qcompare_spec (t - inject_Z (Qfloor s)) (1 # 2)) as [Ct | Ct | Ct];
      try (destruct (Z.even (Qfloor s))); try lia; exfalso; lra.
  - destruct (nearestEven_cases s) as [[-> _] | [-> _]];
      destruct (nearestEven_cases t) as [[-> _] | [-> _]]; lia.
Qed.

Lemma scaled_range (x : Q) :
  0 < x -> 2 ^ 52 <= x * 2 ^ (52 - Binary64.ilog2 x) /\ x * 2 ^ (52 - Binary64.ilog2 x) < 2 ^ 53.
Proof.
  intros Hx. destruct (ilog2_spec x Hx) as [L U].
  pose proof (pow2_pos (52 - Binary64.ilog2 x)) as P.
  assert (E1 : 2 ^ 52 == 2 ^ Binary64.ilog2 x * 2 ^ (52 - Binary64.ilog2 x)).
  { rewrite <- pow2_add. replace (Binary64.ilog2 x + (52 - Binary64.ilog2 x))%Z with 52%Z by lia.
    reflexivity. }
  assert (E2 : 2 ^ 53 == 2 ^ (Binary64.ilog2 x + 1) * 2 ^ (52 - Binary64.ilog2 x)).
  { rewrite <- pow2_add. replace (Binary64.ilog2 x + 1 + (52 - Binary64.ilog2 x))%Z with 53%Z by lia.
    reflexivity. }
  split.
  - rewrite E1. apply Qmult_le_r; assumption.
  - rewrite E2. apply Qmult_lt_r; assumption.
Qed.

Lemma unscale (x : Q) (e : Z) : x * 2 ^ (52 - e) * 2 ^ (e - 52) == x.
Proof.
  rewrite <- Qmult_assoc, <- pow2_add.
  replace (52 - e + (e - 52))%Z with 0%Z by lia. change (2 ^ 0) with 1. ring.
Qed.

Lemma roundPos_range (x : Q) :
  0 < x -> 2 ^ Binary64.ilog2 x <= Binary64.roundPos x /\ Binary64.roundPos x <= 2 ^ (Binary64.ilog2 x + 1).
Proof.
  intros Hx. destruct (scaled_range x Hx) as [L U]. unfold Binary64.roundPos.
  set (e := Binary64.ilog2 x) in *. set (s := x * 2 ^ (52 - e)) in *.
  pose proof (pow2_pos (e - 52)) as P.
  assert (M1 : (2 ^ 52 <= Binary64.nearestEven s)%Z).
  { rewrite <- (nearestEven_Z (2 ^ 52)). apply nearestEven_mono.
    rewrite pow2_Z by lia. exact L. }
  assert (M2 : (Binary64.nearestEven s <= 2 ^ 53)%Z).
  { rewrite <- (nearestEven_Z (2 ^ 53)). apply nearestEven_mono.
    rewrite pow2_Z by lia. apply Qlt_le_weak. exact U. }
  rewrite Zle_Qle in M1, M2. rewrite pow2_Z in M1, M2 by lia.
  assert (E1 : 2 ^ e == 2 ^ 52 * 2 ^ (e - 52)).
  { rewrite <- pow2_add. replace (52 + (e - 52))%Z with e by lia. reflexivity. }
  assert (E2 : 2 ^ (e + 1) == 2 ^ 53 * 2 ^ (e - 52)).
  { rewrite <- pow2_add. replace (53 + (e - 52))%Z with (e + 1)%Z by lia. reflexivity. }
  split.
  - rewrite E1. apply Qmult_le_r; assumption.
  - rewrite E2. apply Qmult_le_r; assumption.
Qed.

Lemma roundPos_mono (x y : Q) : 0 < x -> x <= y -> Binary64.roundPos x <= Binary64.roundPos y.
Proof.
  intros Hx Hxy.
  assert (Hy : 0 < y) by (apply Qlt_le_trans with x; assumption).
  pose proof (ilog2_mono x y Hx Hxy) as Le.
  destruct (Z.eq_dec (Binary64.ilog2 x) (Binary64.ilog2 y)) as [E | NE].
  - unfold Binary64.roundPos. rewrite <- E.
    apply Qmult_le_r; [apply pow2_pos |].
    rewrite <- Zle_Qle. apply nearestEven_mono.
    apply Qmult_le_r; [apply pow2_pos | exact Hxy].
  - destruct (roundPos_range x Hx) as [_ U]. destruct (roundPos_range y Hy) as [L _].
    apply Qle_trans with (2 ^ (Binary64.ilog2 x + 1)); [exact U |].
    apply Qle_trans with (2 ^ Binary64.ilog2 y); [| exact L].
    apply pow2_le. lia.
Qed.

Lemma roundPos_error (x : Q) :
  0 < x -> (1 - Binary64.unitRoundoff) * x <= Binary64.roundPos x /\ Binary64.roundPos x <= (1 + Binary64.unitRoundoff) * x.
Proof.
  intros Hx. destruct (ilog2_spec x Hx) as [L _]. unfold Binary64.roundPos.
  set (e := Binary64.ilog2 x) in *. set (s := x * 2 ^ (52 - e)).
  destruct (nearestEven_near s) as [N1 N2].
  pose proof (pow2_pos (e - 52)) as P.
  pose proof (unscale x e) as Us. fold s in Us.
  assert (H : (1 # 2) * 2 ^ (e - 52) <= Binary64.unitRoundoff * x).
  { assert (E : 2 ^ e == 2 ^ 52 * 2 ^ (e - 52)).
    { rewrite <- pow2_add. replace (52 + (e - 52))%Z with e by lia. reflexivity. }
    assert (C : 2 ^ 52 == 4503599627370496) by reflexivity.
    rewrite E, C in L. unfold Binary64.unitRoundoff. lra. }
  assert (A : (s - (1 # 2)) * 2 ^ (e - 52) <= inject_Z (Binary64.nearestEven s) * 2 ^ (e - 52)).
  { apply Qmult_le_r; assumption. }
  assert (B : inject_Z (Binary64.nearestEven s) * 2 ^ (e - 52) <= (s + (1 # 2)) * 2 ^ (e - 52)).
  { apply Qmult_le_r; assumption. }
  split.
  - apply Qle_trans with ((s - (1 # 2)) * 2 ^ (e - 52)); [| exact A].
    assert (D : (s - (1 # 2)) * 2 ^ (e - 52)
                == s * 2 ^ (e - 52) - (1 # 2) * 2 ^ (e - 52)) by ring.
    rewrite D, Us. lra.
  - apply Qle_trans with ((s + (1 # 2)) * 2 ^ (e - 52)); [exact B |].
    assert (D : (s + (1 # 2)) * 2 ^ (e - 52)
                == s * 2 ^ (e - 52) + (1 # 2) * 2 ^ (e - 52)) by ring.
    rewrite D, Us. lra.
Qed.

Lemma round_pos_eq (x : Q) : 0 < x -> Binary64.round x == Binary64.roundPos x.
Proof.
  intros Hx. unfold Binary64.round.
  destruct (Qcompare_spec 0 x) as [C | C | C]; [exfalso; lra | | exfalso; lra].
  apply Qred_correct.
Qed.

Lemma round_zero (x : Q) : x == 0 -> Binary64.round x = 0.
Proof.
  intros E. unfold Binary64.round.
  destruct (Qcompare_spec 0 x) as [C | C | C]; [reflexivity | exfalso; lra ..].
Qed.

Lemma round_positive (x : Q) : 0 < x -> 0 < Binary64.round x.
Proof.
  intros Hx. rewrite (round_pos_eq x Hx). destruct (roundPos_range x Hx) as [L _].
  apply Qlt_le_trans with (2 ^ Binary64.ilog2 x); [apply pow2_pos | exact L].
Qed.

Lemma round_mono (x y : Q) : 0 <= x -> x <= y -> Binary64.round x <= Binary64.round y.
Proof.
  intros Hx Hxy. destruct (Qlt_le_dec 0 x) as [Px | Zx].
  - assert (Py : 0 < y) by (apply Qlt_le_trans with x; assumption).
    rewrite (round_pos_eq x Px), (round_pos_eq y Py). apply roundPos_mono; assumption.
  - assert (E : x == 0) by (apply Qle_antisym; assumption).
    rewrite (round_zero x E). destruct (Qlt_le_dec 0 y) as [Py | Zy].
    + apply Qlt_le_weak, round_positive, Py.
    + assert (E' : y == 0) by (apply Qle_antisym; [exact Zy | lra]).
      rewrite (round_zero y E'). apply Qle_refl.
Qed.

Lemma round_error (x : Q) :
  0 <= x -> (1 - Binary64.unitRoundoff) * x <= Binary64.round x /\ Binary64.round x <= (1 + Binary64.unitRoundoff) * x.
Proof.
  intros Hx. destruct (Qlt_le_dec 0 x) as [Px | Zx].
  - rewrite (round_pos_eq x Px). apply roundPos_error, Px.
  - assert (E : x == 0) by (apply Qle_antisym; assumption).
    rewrite (round_zero x E), E. split; lra.
Qed.

(** ** Relative error *)

Lemma unitRoundoff_bounds :
  0 < Binary64.unitRoundoff /\ Binary64.unitRoundoff < 1.
Proof. split; reflexivity. Qed.

Lemma closed_le (a b : Q) : Qle_bool a b = true -> a <= b.
Proof. apply Qle_bool_iff. Qed.

Lemma rel_refl (x : Q) : rel 1 1 x x.
Proof. unfold rel. split; lra. Qed.

Lemma rel_eq (lo hi x x' y y' : Q) :
  x == x' -> y == y' -> rel lo hi x y -> rel lo hi x' y'.
Proof. unfold rel. intros Ex Ey [L U]. rewrite <- Ex, <- Ey. split; assumption. Qed.

Lemma rel_weaken (lo hi lo' hi' x y : Q) :
  0 <= x -> lo' <= lo -> hi <= hi' -> rel lo hi x y -> rel lo' hi' x y.
Proof.
  unfold rel. intros Hx Hl Hh [L U]. split.
  - apply Qle_trans with (lo * x); [apply Qmult_le_compat_r; assumption | exact L].
  - apply Qle_trans with (hi * x); [exact U | apply Qmult_le_compat_r; assumption].
Qed.

Lemma rel_nonneg (lo hi x y : Q) : 0 <= lo -> 0 <= x -> rel lo hi x y -> 0 <= y.
Proof.
  unfold rel. intros Hl Hx [L _].
  apply Qle_trans with (lo * x); [apply Qmult_le_0_compat; assumption | exact L].
Qed.

Lemma rel_pos (lo hi x y : Q) : 0 < lo -> 0 < x -> rel lo hi x y -> 0 < y.
Proof.
  unfold rel. intros Hl Hx [L _].
  apply Qlt_le_trans with (lo * x); [| exact L].
  apply Qmult_lt_0_compat; assumption.
Qed.

Lemma rel_round (lo hi x y : Q) :
  0 <= lo -> 0 <= x -> rel lo hi x y ->
  rel (lo * (1 - Binary64.unitRoundoff)) (hi * (1 + Binary64.unitRoundoff))
    x (Binary64.round y).
Proof.
  intros Hl Hx R. pose proof (rel_nonneg _ _ _ _ Hl Hx R) as Hy.
  destruct R as [L U]. destruct (round_error y Hy) as [E1 E2].
  destruct unitRoundoff_bounds as [U0 U1].
  split.
  - apply Qle_trans with ((1 - Binary64.unitRoundoff) * y); [| exact E1].
    assert (E : lo * (1 - Binary64.unitRoundoff) * x
                == (1 - Binary64.unitRoundoff) * (lo * x)) by ring.
    rewrite E. apply Qmult_le_l; [lra | exact L].
  - apply Qle_trans with ((1 + Binary64.unitRoundoff) * y); [exact E2 |].
    assert (E : hi * (1 + Binary64.unitRoundoff) * x
                == (1 + Binary64.unitRoundoff) * (hi * x)) by ring.
    rewrite E. apply Qmult_le_l; [lra | exact U].
Qed.

Lemma Qmult_le_compat_nonneg' (a b c d : Q) :
  0 <= a -> 0 <= c -> a <= b -> c <= d -> a * c <= b * d.
Proof.
  intros Ha Hc Hab Hcd.
  apply Qle_trans with (b * c).
  - apply Qmult_le_compat_r; assumption.
  - rewrite (Qmult_comm b c), (Qmult_comm b d).
    apply Qmult_le_compat_r; [assumption | lra].
Qed.

Lemma rel_mul (l1 h1 l2 h2 x1 y1 x2 y2 : Q) :
  0 <= l1 -> 0 <= l2 -> 0 <= x1 -> 0 <= x2 ->
  rel l1 h1 x1 y1 -> rel l2 h2 x2 y2 ->
  rel (l1 * l2) (h1 * h2) (x1 * x2) (y1 * y2).
Proof.
  intros Hl1 Hl2 Hx1 Hx2 R1 R2.
  pose proof (rel_nonneg _ _ _ _ Hl1 Hx1 R1) as Hy1.
  pose proof (rel_nonneg _ _ _ _ Hl2 Hx2 R2) as Hy2.
  destruct R1 as [L1 U1]. destruct R2 as [L2 U2]. split.
  - assert (E : l1 * l2 * (x1 * x2) == (l1 * x1) * (l2 * x2)) by ring.
    rewrite E. apply Qmult_le_compat_nonneg'; try assumption;
      apply Qmult_le_0_compat; assumption.
  - assert (E : h1 * h2 * (x1 * x2) == (h1 * x1) * (h2 * x2)) by ring.
    rewrite E. apply Qmult_le_compat_nonneg'; assumption.
Qed.

Lemma rel_div (l1 h1 l2 h2 x1 y1 x2 y2 : Q) :
  0 <= l1 -> 0 < l2 -> 0 <= x1 -> 0 < x2 ->
  rel l1 h1 x1 y1 -> rel l2 h2 x2 y2 ->
  rel (l1 / h2) (h1 / l2) (x1 / x2) (y1 / y2).
Proof.
  intros Hl1 Hl2 Hx1 Hx2 R1 R2.
  pose proof (rel_nonneg _ _ _ _ Hl1 Hx1 R1) as Hy1.
  pose proof (rel_pos _ _ _ _ Hl2 Hx2 R2) as Hy2.
  destruct R1 as [L1 U1]. destruct R2 as [L2 U2].
  assert (Hh2 : 0 < h2).
  { apply Qnot_le_lt. intros C. assert (h2 * x2 <= 0) by nra. lra. }
  assert (Hl1x1 : 0 <= l1 * x1) by (apply Qmult_le_0_compat; assumption).
  assert (Hh1x1 : 0 <= h1 * x1) by lra.
  split.
  - apply Qle_shift_div_l; [exact Hy2 |].
    assert (E : l1 / h2 * (x1 / x2) * y2 == (l1 * x1) * (y2 / (h2 * x2))).
    { field. split; lra. }
    rewrite E.
    assert (y2 / (h2 * x2) <= 1).
    { apply Qle_shift_div_r; [apply Qmult_lt_0_compat; assumption | lra]. }
    nra.
  - apply Qle_shift_div_r; [exact Hy2 |].
    assert (E : h1 / l2 * (x1 / x2) * y2 == (h1 * x1) * (y2 / (l2 * x2))).
    { field. split; lra. }
    rewrite E.
    assert (1 <= y2 / (l2 * x2)).
    { apply Qle_shift_div_l; [apply Qmult_lt_0_compat; assumption | lra]. }
    nra.
Qed.

Lemma rel_min (lo hi x1 y1 x2 y2 : Q) :
  0 <= lo -> 0 <= hi ->
  rel lo hi x1 y1 -> rel lo hi x2 y2 ->
  rel lo hi (Qmin x1 x2) (Qmin y1 y2).
Proof.
  intros Hl Hh [L1 U1] [L2 U2]. split.
  - apply Q.min_glb.
    + apply Qle_trans with (lo * x1); [| exact L1].
      rewrite (Qmult_comm lo _), (Qmult_comm lo x1).
      apply Qmult_le_compat_r; [apply Q.le_min_l | exact Hl].
    + apply Qle_trans with (lo * x2); [| exact L2].
      rewrite (Qmult_comm lo _), (Qmult_comm lo x2).
      apply Qmult_le_compat_r; [apply Q.le_min_r | exact Hl].
  - destruct (Q.min_spec x1 x2) as [[_ E] | [_ E]]; rewrite E.
    + apply Qle_trans with y1; [apply Q.le_min_l | exact U1].
    + apply Qle_trans with y2; [apply Q.le_min_r | exact U2].
Qed.

(** ** The rounding against the machine *)

(** On every operation the examples go through, [Binary64] computes the
    number the machine computes. *)
Example round_agrees_with_the_machine :
  Machine.toQ Machine.nineTenths = Some Binary64.nineTenths /\
  forallb (Machine.agrees PrimFloat.div Binary64.div) Machine.quotients = true /\
  forallb (Machine.agrees PrimFloat.mul Binary64.mul) Machine.products = true /\
  forallb (Machine.agrees PrimFloat.sub Binary64.sub) Machine.differences = true.
Proof. repeat split; vm_compute; reflexivity. Qed.

(** ** The rectangle as computed *)

Ltac closedQ :=
  first [ apply closed_le; vm_compute; reflexivity
        | vm_compute; reflexivity ].

Lemma round_eq (x y : Q) :
  0 <= x -> x == y -> Binary64.round x == Binary64.round y.
Proof. intros Hx E. apply Qle_antisym; apply round_mono; lra. Qed.

Lemma div_rel (x y : Q) :
  0 <= x -> 0 < y ->
  rel (1 - Binary64.unitRoundoff) (1 + Binary64.unitRoundoff)
    (x / y) (Binary64.div x y).
Proof.
  intros Hx Hy. apply round_error. apply Qle_shift_div_l; lra.
Qed.

Lemma mul_rel (x y : Q) :
  0 <= x -> 0 <= y ->
  rel (1 - Binary64.unitRoundoff) (1 + Binary64.unitRoundoff)
    (x * y) (Binary64.mul x y).
Proof.
  intros Hx Hy. apply round_error. apply Qmult_le_0_compat; assumption.
Qed.

Lemma nineTenths_rel :
  rel (1 - Binary64.unitRoundoff) (1 + Binary64.unitRoundoff)
    nineTenths Binary64.nineTenths.
Proof. split; closedQ. Qed.

(** Between two integer sizes up to 2^32, an aspect above 786:280 is above
    it by more than rounding can hide. *)
Lemma integer_aspect_gap (w h : Z) :
  (1 <= h <= 4294967296)%Z ->
  CANVAS_WIDTH / CANVAS_HEIGHT < inject_Z w / inject_Z h ->
  (786 # 280) + (1 # 1202590842880) <= inject_Z w / inject_Z h.
Proof.
  intros [H1 H2] Hlt.
  assert (Hh : 0 < inject_Z h) by (apply inject_Z_pos; lia).
  apply (wider_iff _ _ Hh) in Hlt.
  assert (Z1 : (786 * h + 1 <= 280 * w)%Z).
  { assert (Z0 : (786 * h < 280 * w)%Z); [| lia].
    rewrite Zlt_Qlt, !inject_Z_mult. exact Hlt. }
  rewrite Zle_Qle, inject_Z_plus, !inject_Z_mult in Z1.
  rewrite Zle_Qle in H2.
  change (inject_Z 786) with 786 in Z1. change (inject_Z 280) with 280 in Z1.
  change (inject_Z 1) with 1 in Z1.
  change (inject_Z 4294967296) with 4294967296 in H2.
  apply Qle_shift_div_l; [exact Hh | lra].
Qed.

(** For integer sizes up to 2^32 the rounded quotients compare as the
    exact aspects do. *)
Lemma aspect_test_exact (w h : Z) :
  (1 <= w)%Z -> (1 <= h <= 4294967296)%Z ->
  Qgtb (Binary64.div (inject_Z w) (inject_Z h))
       (Binary64.div CANVAS_WIDTH CANVAS_HEIGHT)
  = Qgtb (inject_Z w / inject_Z h) (CANVAS_WIDTH / CANVAS_HEIGHT).
Proof.
  intros Hw Hh.
  assert (Pw : 0 < inject_Z w) by (apply inject_Z_pos; lia).
  assert (Ph : 0 < inject_Z h) by (apply inject_Z_pos; lia).
  assert (Pq : 0 < inject_Z w / inject_Z h) by (apply Qlt_shift_div_l; lra).
  destruct (Qlt_le_dec (CANVAS_WIDTH / CANVAS_HEIGHT) (inject_Z w / inject_Z h))
    as [Wide | Tall].
  - rewrite (proj2 (Qgtb_true _ _) Wide). apply Qgtb_true.
    pose proof (integer_aspect_gap w h Hh Wide) as G.
    destruct (div_rel (inject_Z w) (inject_Z h)) as [L _]; [lra | exact Ph |].
    destruct (div_rel CANVAS_WIDTH CANVAS_HEIGHT) as [_ U]; [closedQ | closedQ |].
    rewrite canvasAspect_value in U.
    unfold Binary64.unitRoundoff in *. lra.
  - rewrite (proj2 (Qgtb_false _ _) Tall). apply Qgtb_false.
    unfold Binary64.div. apply round_mono; lra.
Qed.

(** The offset that centres an extent [d] in [c]. *)
Lemma centred_offset (c d : Q) :
  0 <= d -> d <= c ->
  0 <= Binary64.div (Binary64.sub c d) 2 /\
  Binary64.div (Binary64.sub c d) 2 + d <= c.
Proof.
  intros Hd Hc. unfold Binary64.div, Binary64.sub.
  assert (Ht : 0 <= c - d) by lra.
  destruct (round_error (c - d) Ht) as [L1 U1].
  set (r1 := Binary64.round (c - d)) in *.
  assert (Hr1 : 0 <= r1) by (unfold Binary64.unitRoundoff in *; lra).
  pose proof (Qtwice_half r1) as E.
  assert (Hy : 0 <= r1 / 2) by lra.
  destruct (round_error (r1 / 2) Hy) as [L2 U2].
  unfold Binary64.unitRoundoff in *. split; lra.
Qed.

Lemma near_weaken (lo hi x y : Q) :
  0 <= x -> Qle_bool (1 - tolerance) lo = true ->
  Qle_bool hi (1 + tolerance) = true -> rel lo hi x y -> near x y.
Proof.
  intros Hx Hl Hh R. unfold near.
  apply (rel_weaken lo hi); [exact Hx | apply closed_le, Hl | apply closed_le, Hh | exact R].
Qed.

Lemma near_bounds (x y : Q) :
  near x y -> (1 - tolerance) * x <= y /\ y <= (1 + tolerance) * x.
Proof. intros H. exact H. Qed.

Ltac near_from R P :=
  apply (fun H1 H2 => near_weaken _ _ _ _ P H1 H2 R); vm_compute; reflexivity.

(** The computed rectangle follows the exact one. *)
Lemma drawRect_computed (img : Image) (w h : Z) :
  width img = inject_Z w -> height img = inject_Z h ->
  (1 <= w <= 4294967296)%Z -> (1 <= h <= 4294967296)%Z ->
  near (drawWidth (drawRect img)) (drawWidth (Binary64.drawRect img)) /\
  near (drawHeight (drawRect img)) (drawHeight (Binary64.drawRect img)) /\
  near (width img / height img)
       (drawWidth (Binary64.drawRect img) / drawHeight (Binary64.drawRect img)) /\
  (CANVAS_WIDTH / CANVAS_HEIGHT < width img / height img ->
     drawWidth (Binary64.drawRect img)
     = Binary64.mul CANVAS_WIDTH Binary64.nineTenths) /\
  (width img / height img <= CANVAS_WIDTH / CANVAS_HEIGHT ->
     drawHeight (Binary64.drawRect img)
     = Binary64.mul CANVAS_HEIGHT Binary64.nineTenths).
Proof.
  intros Ew Eh Rw Rh.
  assert (Pw : 0 < width img) by (rewrite Ew; apply inject_Z_pos; lia).
  assert (Ph : 0 < height img) by (rewrite Eh; apply inject_Z_pos; lia).
  assert (Pq : 0 < width img / height img) by (apply Qlt_shift_div_l; lra).
  pose proof (div_rel (width img) (height img) (Qlt_le_weak _ _ Pw) Ph) as Ra.
  pose proof (fit_ratio img Pw Ph) as Er.
  destruct (fit_bounds img Pw Ph) as [[PW _] [PH _]].
  assert (T : Qgtb (Binary64.div (width img) (height img))
                (Binary64.div CANVAS_WIDTH CANVAS_HEIGHT)
              = Qgtb (width img / height img) (CANVAS_WIDTH / CANVAS_HEIGHT)).
  { rewrite Ew, Eh. apply aspect_test_exact; lia. }
  unfold Binary64.drawRect. rewrite T.
  set (a := Binary64.div (width img) (height img)) in *.
  destruct (Qlt_le_dec (CANVAS_WIDTH / CANVAS_HEIGHT) (width img / height img))
    as [Wide | Tall].
  - rewrite (proj2 (Qgtb_true _ _) Wide). cbn [drawWidth drawHeight].
    destruct (wide_rect img Pw Ph Wide) as [DW DH].
    assert (Rdw : rel (1 * (1 - Binary64.unitRoundoff) * (1 - Binary64.unitRoundoff))
                    (1 * (1 + Binary64.unitRoundoff) * (1 + Binary64.unitRoundoff))
                    (CANVAS_WIDTH * nineTenths)
                    (Binary64.mul CANVAS_WIDTH Binary64.nineTenths)).
    { apply rel_round; [closedQ | closedQ |].
      apply rel_mul; [closedQ | closedQ | closedQ | closedQ | apply rel_refl |].
      exact nineTenths_rel. }
    set (dw := Binary64.mul CANVAS_WIDTH Binary64.nineTenths) in *.
    assert (Rq : rel (1 * (1 - Binary64.unitRoundoff) * (1 - Binary64.unitRoundoff)
                      / (1 + Binary64.unitRoundoff))
                   (1 * (1 + Binary64.unitRoundoff) * (1 + Binary64.unitRoundoff)
                      / (1 - Binary64.unitRoundoff))
                   (CANVAS_WIDTH * nineTenths / (width img / height img))
                   (dw / a)).
    { apply rel_div; [closedQ | closedQ | closedQ | exact Pq | exact Rdw | exact Ra]. }
    assert (P0 : 0 <= CANVAS_WIDTH * nineTenths / (width img / height img)).
    { apply Qle_shift_div_l; [exact Pq |]. unfold CANVAS_WIDTH, nineTenths. lra. }
    pose proof (fun H => rel_round _ _ _ _ H P0 Rq) as Rdh.
    specialize (Rdh ltac:(closedQ)).
    fold (Binary64.div dw a) in Rdh.
    assert (EDH : drawHeight (drawRect img)
                  == CANVAS_WIDTH * nineTenths / (width img / height img)).
    { rewrite DH. field. split; lra. }
    assert (Rdh' := rel_eq _ _ _ _ _ _ (Qeq_sym _ _ EDH) (Qeq_refl _) Rdh).
    assert (Rdw' := rel_eq _ _ _ _ _ _ (Qeq_sym _ _ DW) (Qeq_refl _) Rdw).
    split; [| split; [| split; [| split]]].
    + near_from Rdw' (Qlt_le_weak _ _ PW).
    + near_from Rdh' (Qlt_le_weak _ _ PH).
    + pose proof (fun H1 H2 => rel_div _ _ _ _ _ _ _ _ H1 H2
                    (Qlt_le_weak _ _ PW) PH Rdw' Rdh') as Rr.
      specialize (Rr ltac:(closedQ) ltac:(closedQ)).
      apply (rel_eq _ _ _ _ _ _ Er (Qeq_refl _)) in Rr.
      near_from Rr (Qlt_le_weak _ _ Pq).
    + intros _. reflexivity.
    + intros C. exfalso. lra.
  - rewrite (proj2 (Qgtb_false _ _) Tall). cbn [drawWidth drawHeight].
    destruct (tall_rect img Pw Ph Tall) as [DH DW].
    assert (Rdh : rel (1 * (1 - Binary64.unitRoundoff) * (1 - Binary64.unitRoundoff))
                    (1 * (1 + Binary64.unitRoundoff) * (1 + Binary64.unitRoundoff))
                    (CANVAS_HEIGHT * nineTenths)
                    (Binary64.mul CANVAS_HEIGHT Binary64.nineTenths)).
    { apply rel_round; [closedQ | closedQ |].
      apply rel_mul; [closedQ | closedQ | closedQ | closedQ | apply rel_refl |].
      exact nineTenths_rel. }
    set (dh := Binary64.mul CANVAS_HEIGHT Binary64.nineTenths) in *.
    assert (Rp : rel (1 * (1 - Binary64.unitRoundoff) * (1 - Binary64.unitRoundoff)
                      * (1 - Binary64.unitRoundoff))
                   (1 * (1 + Binary64.unitRoundoff) * (1 + Binary64.unitRoundoff)
                      * (1 + Binary64.unitRoundoff))
                   (CANVAS_HEIGHT * nineTenths * (width img / height img))
                   (dh * a)).
    { apply rel_mul; [closedQ | closedQ | closedQ | lra | exact Rdh | exact Ra]. }
    assert (P0 : 0 <= CANVAS_HEIGHT * nineTenths * (width img / height img)).
    { apply Qmult_le_0_compat; [closedQ | lra]. }
    pose proof (fun H => rel_round _ _ _ _ H P0 Rp) as Rdw.
    specialize (Rdw ltac:(closedQ)).
    fold (Binary64.mul dh a) in Rdw.
    assert (EDW : drawWidth (drawRect img)
                  == CANVAS_HEIGHT * nineTenths * (width img / height img)).
    { rewrite DW. field. lra. }
    assert (Rdw' := rel_eq _ _ _ _ _ _ (Qeq_sym _ _ EDW) (Qeq_refl _) Rdw).
    assert (Rdh' := rel_eq _ _ _ _ _ _ (Qeq_sym _ _ DH) (Qeq_refl _) Rdh).
    split; [| split; [| split; [| split]]].
    + near_from Rdw' (Qlt_le_weak _ _ PW).
    + near_from Rdh' (Qlt_le_weak _ _ PH).
    + pose proof (fun H1 H2 => rel_div _ _ _ _ _ _ _ _ H1 H2
                    (Qlt_le_weak _ _ PW) PH Rdw' Rdh') as Rr.
      specialize (Rr ltac:(closedQ) ltac:(closedQ)).
      apply (rel_eq _ _ _ _ _ _ Er (Qeq_refl _)) in Rr.
      near_from Rr (Qlt_le_weak _ _ Pq).
    + intros C. exfalso. lra.
    + intros _. reflexivity.
Qed.

Lemma drawRect_computed_offsets (img : Image) :
  rect_x (Binary64.drawRect img)
  = Binary64.div (Binary64.sub CANVAS_WIDTH (drawWidth (Binary64.drawRect img))) 2
  /\
  rect_y (Binary64.drawRect img)
  = Binary64.div (Binary64.sub CANVAS_HEIGHT (drawHeight (Binary64.drawRect img))) 2.
Proof.
  unfold Binary64.drawRect. destruct (Qgtb _ _); split; reflexivity.
Qed.

(** C1, as amended. For every image size (w, h), whole numbers from 1 to
    2^32, the rectangle that [drawImageToCanvas] computes has
    drawWidth <= 786 and drawHeight <= 280, offsets that are not negative,
    and stays inside the 786x280 canvas on both axes; drawWidth / drawHeight
    is w / h within the tolerance of binary64 rounding (and exactly w / h in
    exact arithmetic, each side being within the tolerance of its exact
    value); on the constrained axis, the width if w / h > 786 / 280 and
    the height otherwise, the extent is 0.9 times the canvas as binary64
    multiplies: the Number 786 * 0.9, within the tolerance of 707.4, or
    252. *)
Theorem drawImageToCanvas_contain_fit (img : Image) (s : State) (w h : Z) :
  width img = inject_Z w -> height img = inject_Z h ->
  (1 <= w <= 4294967296)%Z -> (1 <= h <= 4294967296)%Z ->
  exists r : Rect,
    previewCanvas (Binary64.drawImageToCanvas img s) = Painted img r /\
    drawWidth r <= 786 /\
    drawHeight r <= 280 /\
    0 <= rect_x r /\
    0 <= rect_y r /\
    rect_x r + drawWidth r <= 786 /\
    rect_y r + drawHeight r <= 280 /\
    near (width img / height img) (drawWidth r / drawHeight r) /\
    drawWidth (drawRect img) / drawHeight (drawRect img)
      == width img / height img /\
    near (drawWidth (drawRect img)) (drawWidth r) /\
    near (drawHeight (drawRect img)) (drawHeight r) /\
    (786 / 280 < width img / height img ->
       drawWidth r = Binary64.mul 786 Binary64.nineTenths /\
       near (0.9 * 786) (drawWidth r)) /\
    (width img / height img <= 786 / 280 -> drawHeight r == 0.9 * 280).
Proof.
  intros Ew Eh Rw Rh. exists (Binary64.drawRect img). split; [reflexivity |].
  assert (Pw : 0 < width img) by (rewrite Ew; apply inject_Z_pos; lia).
  assert (Ph : 0 < height img) by (rewrite Eh; apply inject_Z_pos; lia).
  destruct (drawRect_computed img w h Ew Eh Rw Rh) as (Nw & Nh & Nr & Cw & Ch).
  destruct (fit_bounds img Pw Ph) as [[PW BW] [PH BH]].
  destruct (drawRect_computed_offsets img) as [Ex Ey].
  pose proof (near_bounds _ _ Nw) as [Lw Uw].
  pose proof (near_bounds _ _ Nh) as [Lh Uh].
  unfold CANVAS_WIDTH, CANVAS_HEIGHT, nineTenths, tolerance in BW, BH, Lw, Uw, Lh, Uh.
  assert (Dw : 0 <= drawWidth (Binary64.drawRect img) <= 786) by (split; lra).
  assert (Dh : 0 <= drawHeight (Binary64.drawRect img) <= 280) by (split; lra).
  destruct (centred_offset CANVAS_WIDTH _ (proj1 Dw) (proj2 Dw)) as [X0 X1].
  destruct (centred_offset CANVAS_HEIGHT _ (proj1 Dh) (proj2 Dh)) as [Y0 Y1].
  rewrite <- Ex in X0, X1. rewrite <- Ey in Y0, Y1.
  split; [apply Dw |]. split; [apply Dh |].
  split; [exact X0 |]. split; [exact Y0 |].
  split; [exact X1 |]. split; [exact Y1 |].
  split; [exact Nr |].
  split; [apply (fit_ratio img Pw Ph) |].
  split; [exact Nw |]. split; [exact Nh |].
  split.
  - intros Wide. split; [apply (Cw Wide) |].
    destruct (wide_rect img Pw Ph Wide) as [DW _].
    refine (rel_eq _ _ _ _ _ _ _ (Qeq_refl _) Nw).
    rewrite DW. reflexivity.
  - intros Tall. rewrite (Ch Tall). vm_compute. reflexivity.
Qed.

Lemma drawImageToCanvas_contain_fit_witness :
  (1 <= 400 <= 4294967296)%Z /\
  (1 <= 100 <= 4294967296)%Z /\
  exists r : Rect,
    previewCanvas
      (Binary64.drawImageToCanvas (mkImage (FromFile "logo.png") 400 100) initial)
    = Painted (mkImage (FromFile "logo.png") 400 100) r /\
    drawWidth r <= 786 /\
    drawHeight r <= 280 /\
    0 <= rect_x r /\
    0 <= rect_y r /\
    rect_x r + drawWidth r <= 786 /\
    rect_y r + drawHeight r <= 280 /\
    near (400 / 100) (drawWidth r / drawHeight r).
Proof.
  assert (Hw : (1 <= 400 <= 4294967296)%Z) by lia.
  assert (Hh : (1 <= 100 <= 4294967296)%Z) by lia.
  split; [exact Hw |]. split; [exact Hh |].
  destruct (drawImageToCanvas_contain_fit
              (mkImage (FromFile "logo.png") 400 100) initial 400 100
              eq_refl eq_refl Hw Hh)
    as (r & E & H1 & H2 & H3 & H4 & H5 & H6 & H7 & _).
  exists r. repeat (split; [assumption |]). exact H7.
Defined.

(** C1 as stated fails for a 1x65 image: the computed drawWidth /
    drawHeight is not 1 / 65.  The rectangle is
    3.8769230769230774 x 252 at (391.0615384615385, 14). *)
Lemma tall_image_ratio_is_rounded :
  exists r : Rect,
    previewCanvas
      (Binary64.drawImageToCanvas (mkImage (FromFile "bar.png") 1 65) initial)
    = Painted (mkImage (FromFile "bar.png") 1 65) r /\
    drawWidth r == 136407104098241 # 35184372088832 /\
    drawHeight r == 252 /\
    rect_x r == 429976708714433 # 1099511627776 /\
    rect_y r == 14 /\
    ~ drawWidth r / drawHeight r == 1 / 65.
Proof.
  eexists. split; [reflexivity |].
  repeat (split; [vm_compute; reflexivity |]).
  vm_compute. discriminate.
Qed.

(** ** Pages as rendered *)

Lemma mul_one (x : Q) : 0 <= x -> Binary64.isNumber x -> Binary64.mul x 1 == x.
Proof.
  intros Hx N. unfold Binary64.mul.
  rewrite (round_eq (x * 1) x); [exact N | lra | ring].
Qed.

Lemma Qfloor_between (x : Q) (n : Z) :
  inject_Z n <= x -> x < inject_Z (n + 1) -> Qfloor x = n.
Proof.
  intros L U.
  pose proof (Qfloor_resp_le _ _ L) as G. rewrite Qfloor_Z in G.
  pose proof (Qfloor_le x) as F.
  assert (V : inject_Z (Qfloor x) < inject_Z (n + 1))
    by (eapply Qle_lt_trans; [exact F | exact U]).
  rewrite <- Zlt_Qlt in V. lia.
Qed.

(** The computed scale follows the exact one. *)
Lemma pageScale_computed (page : Page) :
  0 < page_width page -> 0 < page_height page ->
  Binary64.isNumber (page_width page) -> Binary64.isNumber (page_height page) ->
  rel ((1 - Binary64.unitRoundoff) * (1 - Binary64.unitRoundoff)
       * (1 - Binary64.unitRoundoff))
      ((1 + Binary64.unitRoundoff) * (1 + Binary64.unitRoundoff)
       * (1 + Binary64.unitRoundoff))
      (pageScale page) (Binary64.pageScale page).
Proof.
  intros Hw Hh Nw Nh.
  unfold pageScale, Binary64.pageScale, getViewport, Binary64.getViewport.
  cbn [vp_width vp_height].
  pose proof (mul_one _ (Qlt_le_weak _ _ Hw) Nw) as E1.
  pose proof (mul_one _ (Qlt_le_weak _ _ Hh) Nh) as E2.
  assert (P1 : 0 < Binary64.mul (page_width page) 1) by (rewrite E1; exact Hw).
  assert (P2 : 0 < Binary64.mul (page_height page) 1) by (rewrite E2; exact Hh).
  assert (RX : rel (1 - Binary64.unitRoundoff) (1 + Binary64.unitRoundoff)
                 (CANVAS_WIDTH / (page_width page * 1))
                 (Binary64.div CANVAS_WIDTH (Binary64.mul (page_width page) 1))).
  { refine (rel_eq _ _ _ _ _ _ _ (Qeq_refl _)
              (div_rel CANVAS_WIDTH _ ltac:(closedQ) P1)).
    rewrite E1. field. lra. }
  assert (RY : rel (1 - Binary64.unitRoundoff) (1 + Binary64.unitRoundoff)
                 (CANVAS_HEIGHT / (page_height page * 1))
                 (Binary64.div CANVAS_HEIGHT (Binary64.mul (page_height page) 1))).
  { refine (rel_eq _ _ _ _ _ _ _ (Qeq_refl _)
              (div_rel CANVAS_HEIGHT _ ltac:(closedQ) P2)).
    rewrite E2. field. lra. }
  pose proof (fun H1 H2 => rel_min _ _ _ _ _ _ H1 H2 RX RY) as RM.
  specialize (RM ltac:(closedQ) ltac:(closedQ)).
  assert (PX : 0 < CANVAS_WIDTH / (page_width page * 1)).
  { apply Qlt_shift_div_l; [lra | closedQ]. }
  assert (PY : 0 < CANVAS_HEIGHT / (page_height page * 1)).
  { apply Qlt_shift_div_l; [lra | closedQ]. }
  assert (PM : 0 <= Qmin (CANVAS_WIDTH / (page_width page * 1))
                         (CANVAS_HEIGHT / (page_height page * 1))).
  { apply Q.min_glb; apply Qlt_le_weak; assumption. }
  pose proof (fun H1 H2 H3 => rel_mul _ _ _ _ _ _ _ _ H1 H2 PM H3
                RM nineTenths_rel) as RP.
  specialize (RP ltac:(closedQ) ltac:(closedQ) ltac:(closedQ)).
  apply rel_round; [closedQ | | exact RP].
  apply Qmult_le_0_compat; [exact PM | closedQ].
Qed.

Lemma pageScale_pos (page : Page) :
  0 < page_width page -> 0 < page_height page -> 0 < pageScale page.
Proof.
  intros Hw Hh. unfold pageScale, getViewport. cbn [vp_width vp_height].
  apply Qmult_lt_0_compat; [| reflexivity].
  apply Q.min_glb_lt; apply Qlt_shift_div_l; try lra; reflexivity.
Qed.

(** The computed scaled viewport follows the exact one. *)
Lemma scaledViewport_computed (page : Page) :
  0 < page_width page -> 0 < page_height page ->
  Binary64.isNumber (page_width page) -> Binary64.isNumber (page_height page) ->
  near (vp_width (scaledViewport page)) (vp_width (Binary64.scaledViewport page)) /\
  near (vp_height (scaledViewport page)) (vp_height (Binary64.scaledViewport page)).
Proof.
  intros Hw Hh Nw Nh.
  pose proof (pageScale_computed page Hw Hh Nw Nh) as RS.
  pose proof (pageScale_pos page Hw Hh) as PS.
  unfold scaledViewport, Binary64.scaledViewport, getViewport,
    Binary64.getViewport. cbn [vp_width vp_height].
  split.
  - pose proof (fun H1 H2 => rel_mul _ _ _ _ _ _ _ _ H1 H2
                  (Qlt_le_weak _ _ Hw) (Qlt_le_weak _ _ PS)
                  (rel_refl (page_width page)) RS) as RW.
    specialize (RW ltac:(closedQ) ltac:(closedQ)).
    pose proof (fun H => rel_round _ _ _ _ H
                  (Qmult_le_0_compat _ _ (Qlt_le_weak _ _ Hw) (Qlt_le_weak _ _ PS))
                  RW) as RR.
    specialize (RR ltac:(closedQ)).
    near_from RR (Qmult_le_0_compat _ _ (Qlt_le_weak _ _ Hw) (Qlt_le_weak _ _ PS)).
  - pose proof (fun H1 H2 => rel_mul _ _ _ _ _ _ _ _ H1 H2
                  (Qlt_le_weak _ _ Hh) (Qlt_le_weak _ _ PS)
                  (rel_refl (page_height page)) RS) as RW.
    specialize (RW ltac:(closedQ) ltac:(closedQ)).
    pose proof (fun H => rel_round _ _ _ _ H
                  (Qmult_le_0_compat _ _ (Qlt_le_weak _ _ Hh) (Qlt_le_weak _ _ PS))
                  RW) as RR.
    specialize (RR ltac:(closedQ)).
    near_from RR (Qmult_le_0_compat _ _ (Qlt_le_weak _ _ Hh) (Qlt_le_weak _ _ PS)).
Qed.

Lemma computed_pageRaster_Some (page : Page) (k : Z) (img : Image) :
  Binary64.pageRaster page k = Some img ->
  img = mkImage (FromPage k)
          (inject_Z (Qfloor (vp_width (Binary64.scaledViewport page))))
          (inject_Z (Qfloor (vp_height (Binary64.scaledViewport page))))
  /\ (0 < Qfloor (vp_width (Binary64.scaledViewport page)))%Z
  /\ (0 < Qfloor (vp_height (Binary64.scaledViewport page)))%Z.
Proof.
  unfold Binary64.pageRaster, imageOfCanvas, toPixels. cbv zeta. intros H.
  destruct (0 <? Qfloor (vp_width _))%Z eqn:Ew; [| discriminate].
  destruct (0 <? Qfloor (vp_height _))%Z eqn:Eh; [| discriminate].
  simpl in H. injection H as <-.
  apply Z.ltb_lt in Ew, Eh. auto.
Qed.

Lemma Qfloor_below (x : Q) (n : Z) : x < inject_Z (n + 1) -> (Qfloor x <= n)%Z.
Proof.
  intros U. pose proof (Qfloor_le x) as F.
  assert (V : inject_Z (Qfloor x) < inject_Z (n + 1))
    by (eapply Qle_lt_trans; [exact F | exact U]).
  rewrite <- Zlt_Qlt in V. lia.
Qed.

(** The temporary canvas as computed: at most 707 x 252; 707 wide for a
    page at least as wide as the canvas, 251 or 252 high for one no wider. *)
Lemma computed_canvas_size (page : Page) :
  0 < page_width page -> 0 < page_height page ->
  Binary64.isNumber (page_width page) -> Binary64.isNumber (page_height page) ->
  (Qfloor (vp_width (Binary64.scaledViewport page)) <= 707)%Z /\
  (Qfloor (vp_height (Binary64.scaledViewport page)) <= 252)%Z /\
  (786 * page_height page <= 280 * page_width page ->
     Qfloor (vp_width (Binary64.scaledViewport page)) = 707%Z) /\
  (280 * page_width page <= 786 * page_height page ->
     Qfloor (vp_height (Binary64.scaledViewport page)) = 251%Z \/
     Qfloor (vp_height (Binary64.scaledViewport page)) = 252%Z).
Proof.
  intros Hw Hh Nw Nh.
  destruct (scaledViewport_computed page Hw Hh Nw Nh) as [[Lw Uw] [Lh Uh]].
  destruct (scaledViewport_bounds page Hw Hh) as [[Pw Bw] [Ph Bh]].
  unfold tolerance in *.
  split; [| split; [| split]].
  - apply Qfloor_below. change (inject_Z (707 + 1)) with 708. lra.
  - apply Qfloor_below. change (inject_Z (252 + 1)) with 253. lra.
  - intros Wide. destruct (scaledViewport_wide page Hw Hh Wide) as [E _].
    unfold CANVAS_WIDTH, nineTenths in E.
    apply Qfloor_between.
    + change (inject_Z 707) with 707. lra.
    + change (inject_Z (707 + 1)) with 708. lra.
  - intros Tall. destruct (scaledViewport_tall page Hw Hh Tall) as [E _].
    unfold CANVAS_HEIGHT, nineTenths in E.
    assert (G : (251 <= Qfloor (vp_height (Binary64.scaledViewport page)))%Z).
    { rewrite <- (Qfloor_Z 251). apply Qfloor_resp_le.
      change (inject_Z 251) with 251. lra. }
    assert (L : (Qfloor (vp_height (Binary64.scaledViewport page)) <= 252)%Z).
    { apply Qfloor_below. change (inject_Z (252 + 1)) with 253. lra. }
    lia.
Qed.

(** A raster 707 wide and less than 252 high is drawn wider than it is. *)
Lemma wide_raster_is_stretched (img : Image) (th : Z) :
  width img = inject_Z 707 -> height img = inject_Z th ->
  (1 <= th <= 251)%Z ->
  drawWidth (Binary64.drawRect img)
  = Binary64.mul CANVAS_WIDTH Binary64.nineTenths /\
  width img < drawWidth (Binary64.drawRect img).
Proof.
  intros Ew Eh R.
  assert (Ph : 0 < height img) by (rewrite Eh; apply inject_Z_pos; lia).
  destruct (drawRect_computed img 707 th Ew Eh) as (_ & _ & _ & Cw & _);
    [lia | lia |].
  assert (Wide : CANVAS_WIDTH / CANVAS_HEIGHT < width img / height img).
  { apply (wider_iff _ _ Ph). rewrite Ew, Eh.
    assert (B : inject_Z th <= 251).
    { change 251 with (inject_Z 251). rewrite <- Zle_Qle. lia. }
    change (inject_Z 707) with 707. lra. }
  rewrite (Cw Wide). split; [reflexivity |].
  rewrite Ew. vm_compute. reflexivity.
Qed.

(** C4, as amended. For every page size (w, h), Numbers from 1 to 2^32,
    the scale [renderPDFPage] uses is min(786 / w, 280 / h) * 0.9, and the
    scaled viewport (w * scale, h * scale) is the (drawWidth, drawHeight)
    of the contain-fit of (w, h): exactly so in exact arithmetic, within
    the rounding tolerance as binary64 computes it.  The raster handed to
    [drawImageToCanvas] is that viewport cut to whole pixels, so it is
    resampled when composited unless nothing was cut: a page at least as
    wide as 786:280 gives a raster 707 wide which, when less than 252 high,
    is drawn as wide as 786 * 0.9; a page no wider gives a raster 251 or
    252 high. *)
Theorem renderPDFPage_scale_is_contain_fit (page : Page) (k : Z) :
  1 <= page_width page <= 4294967296 ->
  1 <= page_height page <= 4294967296 ->
  Binary64.isNumber (page_width page) ->
  Binary64.isNumber (page_height page) ->
  pageScale page
    == Qmin (786 / page_width page) (280 / page_height page) * 0.9 /\
  vp_width (scaledViewport page)
    == drawWidth (fitContain (page_width page) (page_height page) 786 280 0.9)
  /\
  vp_height (scaledViewport page)
    == drawHeight (fitContain (page_width page) (page_height page) 786 280 0.9)
  /\
  near (drawWidth (fitContain (page_width page) (page_height page) 786 280 0.9))
       (vp_width (Binary64.scaledViewport page)) /\
  near (drawHeight (fitContain (page_width page) (page_height page) 786 280 0.9))
       (vp_height (Binary64.scaledViewport page)) /\
  Binary64.pageRaster page k
  = imageOfCanvas (FromPage k)
      (Qfloor (vp_width (Binary64.scaledViewport page)))
      (Qfloor (vp_height (Binary64.scaledViewport page))) /\
  forall img : Image,
    Binary64.pageRaster page k = Some img ->
    width img <= vp_width (Binary64.scaledViewport page) /\
    height img <= vp_height (Binary64.scaledViewport page) /\
    (786 / 280 <= page_width page / page_height page ->
       width img == 707 /\
       (height img < 252 ->
          drawWidth (Binary64.drawRect img)
          = Binary64.mul 786 Binary64.nineTenths /\
          width img < drawWidth (Binary64.drawRect img))) /\
    (page_width page / page_height page <= 786 / 280 ->
       height img == 251 \/ height img == 252).
Proof.
  intros [Hw1 Hw2] [Hh1 Hh2] Nw Nh.
  assert (Hw : 0 < page_width page) by lra.
  assert (Hh : 0 < page_height page) by lra.
  split.
  { unfold pageScale, getViewport. simpl.
    assert (E1 : CANVAS_WIDTH / (page_width page * 1) == 786 / page_width page)
      by (unfold CANVAS_WIDTH; field; lra).
    assert (E2 : CANVAS_HEIGHT / (page_height page * 1)
                 == 280 / page_height page)
      by (unfold CANVAS_HEIGHT; field; lra).
    rewrite E1, E2. reflexivity. }
  change (fitContain (page_width page) (page_height page) 786 280 0.9)
    with (fitContain (width (mkImage (FromPage k) (page_width page)
                               (page_height page)))
            (height (mkImage (FromPage k) (page_width page) (page_height page)))
            CANVAS_WIDTH CANVAS_HEIGHT nineTenths).
  rewrite <- drawRect_fitContain.
  destruct (scaledViewport_fit page (FromPage k) Hw Hh) as [Fw Fh].
  cbv zeta in Fw, Fh.
  destruct (scaledViewport_computed page Hw Hh Nw Nh) as [Cw Ch].
  split; [exact Fw |]. split; [exact Fh |].
  split; [exact (rel_eq _ _ _ _ _ _ Fw (Qeq_refl _) Cw) |].
  split; [exact (rel_eq _ _ _ _ _ _ Fh (Qeq_refl _) Ch) |].
  split; [reflexivity |].
  intros img Hi.
  destruct (computed_pageRaster_Some _ _ _ Hi) as (E & Pw & Ph).
  destruct (computed_canvas_size page Hw Hh Nw Nh) as (_ & _ & Wide & Tall).
  split; [rewrite E; apply Qfloor_le |]. split; [rewrite E; apply Qfloor_le |].
  split; intro H.
  - assert (W : 786 * page_height page <= 280 * page_width page).
    { apply (Qmult_le_compat_r _ _ (page_height page)) in H; [| lra].
      rewrite (Qdiv_mult_cancel _ _ Hh) in H.
      assert (C : 786 / 280 == 786 # 280) by reflexivity.
      rewrite C in H. lra. }
    specialize (Wide W).
    assert (E707 : width img = inject_Z 707) by (rewrite E, <- Wide; reflexivity).
    split; [rewrite E707; reflexivity |].
    intros Low.
    apply (wide_raster_is_stretched img
             (Qfloor (vp_height (Binary64.scaledViewport page)))).
    + exact E707.
    + rewrite E. reflexivity.
    + rewrite E in Low. cbn [height] in Low.
      change 252 with (inject_Z 252) in Low. rewrite <- Zlt_Qlt in Low. lia.
  - assert (T : 280 * page_width page <= 786 * page_height page).
    { apply (Qle_div_iff _ _ _ Hh) in H.
      assert (C : 786 / 280 == 786 # 280) by reflexivity.
      rewrite C in H. lra. }
    rewrite E. cbn [height].
    destruct (Tall T) as [-> | ->]; [left | right]; reflexivity.
Qed.

Lemma renderPDFPage_scale_is_contain_fit_witness :
  1 <= page_width widePage <= 4294967296 /\
  1 <= page_height widePage <= 4294967296 /\
  Binary64.isNumber (page_width widePage) /\
  Binary64.isNumber (page_height widePage) /\
  pageScale widePage
    == Qmin (786 / page_width widePage) (280 / page_height widePage) * 0.9.
Proof.
  assert (Hw : 1 <= page_width widePage <= 4294967296) by (split; discriminate).
  assert (Hh : 1 <= page_height widePage <= 4294967296) by (split; discriminate).
  assert (Nw : Binary64.isNumber (page_width widePage)) by reflexivity.
  assert (Nh : Binary64.isNumber (page_height widePage)) by reflexivity.
  repeat (split; [assumption |]).
  exact (proj1 (renderPDFPage_scale_is_contain_fit widePage 1 Hw Hh Nw Nh)).
Defined.

(** C4 as stated fails twice over.  The 1000x100 page has the scaled
    viewport 707.4 x 70.74 and the raster 707 x 70, which is drawn
    707.4 x 70.04.  The 400x550 page has the contain-fit height 252 and
    the computed viewport height 251.99999999999997: its raster is
    183 x 251, drawn 183.73 x 252. *)
Lemma page_raster_is_cut_and_resampled :
  (exists img : Image,
     Binary64.pageRaster widePage 1 = Some img /\
     width img == 707 /\ height img == 70 /\
     ~ width img == vp_width (Binary64.scaledViewport widePage) /\
     ~ height img == vp_height (Binary64.scaledViewport widePage) /\
     ~ drawWidth (Binary64.drawRect img) == width img /\
     ~ drawHeight (Binary64.drawRect img) == height img) /\
  (exists img : Image,
     Binary64.pageRaster (plainPage 400 550) 1 = Some img /\
     drawHeight (Binary64.drawRect (mkImage (FromPage 1) 400 550)) == 252 /\
     vp_height (Binary64.scaledViewport (plainPage 400 550)) < 252 /\
     width img == 183 /\ height img == 251 /\
     drawHeight (Binary64.drawRect img) == 252 /\
     ~ drawWidth (Binary64.drawRect img) == width img).
Proof.
  split.
  - eexists. split; [vm_compute; reflexivity |].
    split; [reflexivity |]. split; [reflexivity |].
    repeat split; vm_compute; discriminate.
  - eexists. split; [vm_compute; reflexivity |].
    split; [vm_compute; reflexivity |]. split; [vm_compute; reflexivity |].
    split; [reflexivity |]. split; [reflexivity |].
    split; [vm_compute; reflexivity |]. vm_compute. discriminate.
Qed.

(** ** Strings *)

Lemma prefix_spec (a b : string) :
  String.prefix a b = true <-> exists post, b = (a ++ post)%string.
Proof.
  revert b. induction a as [|c a IH]; intros b.
  - split; [intros _; exists b; reflexivity|].
    intros _. destruct b; reflexivity.
  - destruct b as [|d b]; simpl.
    + split; [discriminate | intros [post H]; discriminate H].
    + destruct (ascii_dec c d) as [->|Hn].
      * rewrite IH. split; intros [post H]; exists post.
        -- rewrite H. reflexivity.
        -- injection H as H. exact H.
      * split; [discriminate|]. intros [post H]. injection H as H1 H2.
        congruence.
Qed.

(** [includes] finds exactly the occurrences. *)
Lemma includes_spec (hay needle : string) :
  JsString.includes hay needle = true <-> occursIn needle hay.
Proof.
  unfold occursIn. induction hay as [|c hay IH];
    cbn [JsString.includes].
  - rewrite Bool.orb_false_r, prefix_spec. split.
    + intros [post H]. exists "", post. exact H.
    + intros (pre & post & H). destruct pre; [|discriminate H].
      exists post. exact H.
  - rewrite Bool.orb_true_iff, prefix_spec, IH. split.
    + intros [[post H] | (pre & post & H)].
      * exists "", post. exact H.
      * exists (String c pre), post. simpl. rewrite H. reflexivity.
    + intros (pre & post & H). destruct pre as [|d pre]; simpl in H.
      * left. exists post. exact H.
      * right. injection H as _ H. exists pre, post. exact H.
Qed.

Lemma split_nonempty (sep : ascii) (s : string) : JsString.split sep s <> [].
Proof.
  destruct s as [|c r]; simpl; [discriminate|].
  destruct (Ascii.eqb c sep); [discriminate|].
  destruct (JsString.split sep r); discriminate.
Qed.

(** [split('.')] ends with what follows the last dot. *)
Lemma split_lastDot (s : string) :
  JsString.split JsString.dot s
  = match splitLastDot s with
    | Some (b, e) => JsString.split JsString.dot b ++ [e]
    | None => [s]
    end.
Proof.
  induction s as [|c r IH]; [reflexivity|].
  cbn [JsString.split splitLastDot]. rewrite IH.
  destruct (splitLastDot r) as [[b e]|].
  - cbn [JsString.split]. destruct (Ascii.eqb c JsString.dot); [reflexivity|].
    pose proof (split_nonempty JsString.dot b) as Hne.
    destruct (JsString.split JsString.dot b) as [|p ps]; [congruence|].
    reflexivity.
  - destruct (Ascii.eqb c JsString.dot); reflexivity.
Qed.

Lemma pop_split (s : string) :
  JsString.pop (JsString.split JsString.dot s)
  = Some (match splitLastDot s with Some (_, e) => e | None => s end).
Proof.
  unfold JsString.pop. rewrite split_lastDot.
  destruct (splitLastDot s) as [[b e]|]; [apply last_snoc | reflexivity].
Qed.

Lemma splitLastDot_tail_has_no_dot (s b e : string) :
  splitLastDot s = Some (b, e) -> splitLastDot e = None.
Proof.
  revert b. induction s as [|c r IH]; intros b H; [discriminate|].
  cbn [splitLastDot] in H. destruct (splitLastDot r) as [[b' e']|] eqn:E.
  - injection H as _ <-. eapply IH. reflexivity.
  - destruct (Ascii.eqb c JsString.dot); [|discriminate].
    injection H as _ <-. exact E.
Qed.

Lemma splitLastDot_app (s b e : string) :
  splitLastDot s = Some (b, e) ->
  s = (b ++ String JsString.dot e)%string.
Proof.
  revert b. induction s as [|c r IH]; intros b H; [discriminate|].
  cbn [splitLastDot] in H. destruct (splitLastDot r) as [[b' e']|] eqn:E.
  - injection H as <- <-. simpl. f_equal. apply IH. reflexivity.
  - destruct (Ascii.eqb c JsString.dot) eqn:Ec; [|discriminate].
    injection H as <- <-. apply Ascii.eqb_eq in Ec. subst c. reflexivity.
Qed.

Lemma allChars_no_dot (s : string) :
  JsString.allChars JsString.notSlashDot s = true -> splitLastDot s = None.
Proof.
  induction s as [|c r IH]; [reflexivity|].
  cbn [JsString.allChars splitLastDot].
  intro H. apply andb_prop in H as [Hc Hr]. rewrite (IH Hr).
  unfold JsString.notSlashDot in Hc. apply andb_prop in Hc as [_ Hd].
  apply Bool.negb_true_iff in Hd. rewrite Hd. reflexivity.
Qed.

Lemma matchesExtHere_dot (c : ascii) (r : string) :
  JsString.matchesExtHere (String c r) = true ->
  c = JsString.dot /\ r <> "" /\
  JsString.allChars JsString.notSlashDot r = true.
Proof.
  destruct r as [|d r]; [discriminate|]. cbn [JsString.matchesExtHere].
  intro H. apply andb_prop in H as [Hc Hr]. apply Ascii.eqb_eq in Hc.
  split; [exact Hc|]. split; [discriminate | exact Hr].
Qed.

(** What the replacement of [/\.[^/.]+$/] does, in terms of the last dot. *)
Lemma replaceExt_lastDot (s : string) :
  JsString.replaceExt s
  = match splitLastDot s with
    | Some (b, e) =>
        if negb (String.eqb e "") && JsString.allChars JsString.notSlashDot e
        then b else s
    | None => s
    end.
Proof.
  induction s as [|c r IH]; [reflexivity|].
  cbn [JsString.replaceExt splitLastDot].
  destruct (JsString.matchesExtHere (String c r)) eqn:M.
  - apply matchesExtHere_dot in M as (-> & Hne & Hall).
    rewrite (allChars_no_dot _ Hall). rewrite Ascii.eqb_refl, Hall.
    destruct r; [congruence | reflexivity].
  - rewrite IH. destruct (splitLastDot r) as [[b e]|] eqn:E.
    + destruct (negb (e =? "") && JsString.allChars JsString.notSlashDot e);
        reflexivity.
    + destruct (Ascii.eqb c JsString.dot) eqn:Ec; [|reflexivity].
      destruct r as [|d r]; [reflexivity|].
      cbn [JsString.matchesExtHere] in M. rewrite Ec in M. simpl in M.
      cbn [String.eqb negb andb]. 
      change (JsString.notSlashDot d
              && JsString.allChars JsString.notSlashDot r)
        with (JsString.allChars JsString.notSlashDot (String d r)) in M.
      rewrite M. reflexivity.
Qed.

Lemma lowerChar_notSlashDot (c : ascii) :
  JsString.notSlashDot (JsString.lowerChar c) = true ->
  JsString.notSlashDot c = true.
Proof.
  destruct c as [[] [] [] [] [] [] [] []]; vm_compute; intro H; exact H.
Qed.

Lemma toLowerCase_notSlashDot (s : string) :
  JsString.allChars JsString.notSlashDot (JsString.toLowerCase s) = true ->
  JsString.allChars JsString.notSlashDot s = true.
Proof.
  induction s as [|c r IH]; [reflexivity|].
  cbn [JsString.toLowerCase JsString.allChars]. intro H.
  apply andb_prop in H as [Hc Hr].
  rewrite (lowerChar_notSlashDot _ Hc), (IH Hr). reflexivity.
Qed.

Lemma includes_elem_In (arr : list string) (x : string) :
  JsString.includes_elem arr x = true <-> In x arr.
Proof.
  unfold JsString.includes_elem. rewrite existsb_exists. split.
  - intros (y & Hy & E). apply String.eqb_eq in E. subst y. exact Hy.
  - intro H. exists x. split; [exact H | apply String.eqb_refl].
Qed.

(** An accepted extension has only characters the pattern takes. *)
Lemma valid_extension_chars (e : string) :
  JsString.includes_elem validExtensions (JsString.toLowerCase e) = true ->
  negb (String.eqb e "") && JsString.allChars JsString.notSlashDot e = true.
Proof.
  intro H. apply includes_elem_In in H.
  apply andb_true_intro. split.
  - destruct e; [|reflexivity]. exfalso. simpl in H.
    repeat (destruct H as [H|H]; [discriminate H|]). exact H.
  - apply toLowerCase_notSlashDot. simpl in H.
    repeat (destruct H as [<-|H]; [reflexivity|]). destruct H.
Qed.

(** For an accepted file, [currentFileName] is the name with its final
    extension stripped. *)
Lemma accepted_name_stripped (fname ext : string) :
  extensionOf fname = Some ext ->
  JsString.includes_elem validExtensions ext = true ->
  JsString.replaceExt fname = originalBaseName fname.
Proof.
  unfold extensionOf, originalBaseName. rewrite pop_split, replaceExt_lastDot.
  simpl. intros E Hv. injection E as <-.
  destruct (splitLastDot fname) as [[b e]|]; [|reflexivity].
  rewrite (valid_extension_chars _ Hv). reflexivity.
Qed.

Lemma hasNoDot_splitLastDot (fname : string) :
  hasNoDot fname <-> splitLastDot fname = None.
Proof.
  unfold hasNoDot. induction fname as [|c r IH]; simpl.
  - split; [reflexivity | intros _ []].
  - destruct (splitLastDot r) as [[b e]|].
    + split; [|discriminate]. intro H. exfalso.
      assert (Hr : ~ In JsString.dot (list_ascii_of_string r)) by tauto.
      apply IH in Hr. discriminate Hr.
    + destruct (Ascii.eqb c JsString.dot) eqn:Ec.
      * apply Ascii.eqb_eq in Ec. split; [|discriminate]. intro H.
        exfalso. apply H. left. exact Ec.
      * apply Ascii.eqb_neq in Ec. split; [reflexivity|]. intros _ [H|H].
        -- exact (Ec H).
        -- apply IH in H; [exact H | reflexivity].
Qed.

Lemma splitLastDot_append (base e : string) :
  splitLastDot e = None ->
  splitLastDot (base ++ String JsString.dot e) = Some (base, e).
Proof.
  intro H. induction base as [|c base IH].
  - cbn [String.append splitLastDot]. rewrite H, Ascii.eqb_refl. reflexivity.
  - cbn [String.append splitLastDot]. rewrite IH. reflexivity.
Qed.

(** ** Uploads *)

Lemma handleFile_raster (file : File) (s : State) (ext : string) :
  extensionOf (name file) = Some ext ->
  In ext ["jpg"; "jpeg"; "png"] ->
  handleFile file s = processImageFile file (accepted file s).
Proof.
  intros E H. unfold handleFile. rewrite E.
  simpl in H. repeat (destruct H as [<-|H]; [reflexivity|]). destruct H.
Qed.

Lemma handleFile_document (file : File) (s : State) (ext : string) :
  extensionOf (name file) = Some ext ->
  In ext ["pdf"; "ai"] ->
  handleFile file s = processPDFFile file (accepted file s).
Proof.
  intros E H. unfold handleFile. rewrite E.
  simpl in H. repeat (destruct H as [<-|H]; [reflexivity|]). destruct H.
Qed.

Lemma accepted_is_idle (file : File) (s : State) :
  idle (accepted file s) /\
  artboardSection_visible (accepted file s) = false /\
  artboardGrid (accepted file s) = [] /\
  selectedArtboard (accepted file s) = None /\
  previewCanvas (accepted file s) = previewCanvas s /\
  hasImage (accepted file s) = hasImage s /\
  alerts (accepted file s) = alerts s /\
  currentFileName (accepted file s) = JsString.replaceExt (name file).
Proof. repeat split. Qed.

Lemma clearCanvas_isReset (s : State) : isReset (clearCanvas s).
Proof. repeat split. Qed.

(** A raster that fails to decode resets the upload. *)
Lemma decode_failure_resets (file : File) (s : State) :
  readAsDataURL file = Some DecodeFails ->
  isReset (settled (processImageFile file s) s) /\
  alerts (settled (processImageFile file s) s) = ImageLoadFailed :: alerts s.
Proof.
  intro H. unfold processImageFile. rewrite H. split; [|reflexivity].
  apply clearCanvas_isReset.
Qed.

(** A document that cannot be read or parsed resets the upload. *)
Lemma document_failure_resets (file : File) (s : State) (error : JsError) :
  asDocument file = ReadRejects error \/ asDocument file = ParseRejects error ->
  isReset (settled (processPDFFile file s) s) /\
  uploadArea_loading (settled (processPDFFile file s) s) = false /\
  alerts (settled (processPDFFile file s) s) = errorMessage error :: alerts s.
Proof.
  intros [H|H]; unfold processPDFFile; rewrite H;
    (split; [apply clearCanvas_isReset | split; reflexivity]).
Qed.


(** ** Export *)

Lemma renderPDFPage_cases (pdf : PDFDocumentProxy) (k : Z) (s : State) :
  (exists page,
     getPage pdf k = Some page /\ render page (pageScale page) = None /\
     renderPDFPage pdf k s = (s, pageRaster page k)) \/
  renderPDFPage pdf k s = (alert PageRenderFailed s, None).
Proof.
  unfold renderPDFPage.
  destruct (getPage pdf k) as [page|]; [|right; reflexivity].
  destruct (render page (pageScale page)) eqn:E; [right; reflexivity|].
  left. exists page. auto.
Qed.

Lemma showArtboardSelector_frame (pdf : PDFDocumentProxy) (n : Z) (s : State) :
  let s' := fst (showArtboardSelector pdf n s) in
  previewCanvas s' = previewCanvas s /\ hasImage s' = hasImage s /\
  currentFileName s' = currentFileName s /\ currentPDF s' = currentPDF s /\
  alerts s' = alerts s /\ selectedArtboard s' = None /\
  artboardSection_visible s' = true /\
  uploadArea_loading s' = uploadArea_loading s.
Proof.
  unfold showArtboardSelector. cbv zeta.
  destruct (fold_left appendArtboard _ _) as [grid tasks]. repeat split.
Qed.

Lemma handle_flagFollowsCanvas (e : Event) (s : State) :
  flagFollowsCanvas s (handle e s).
Proof.
  unfold flagFollowsCanvas.
  destruct e as [file | element k | | ]; unfold handle.
  - unfold handleFile. destruct (extensionOf (name file)) as [ext|];
      [|left; split; reflexivity].
    destruct (negb _); [left; split; reflexivity|].
    destruct (_ || _).
    + unfold processPDFFile. cbv zeta.
      destruct (asDocument file) as [err|err|pdf];
        [right; right; split; reflexivity ..|].
      destruct (1 <? numPages pdf)%Z.
      * match goal with |- context [showArtboardSelector ?p ?n ?st] =>
          pose proof (showArtboardSelector_frame p n st) as F;
          destruct (showArtboardSelector p n st) as [s2 tasks] end.
        cbv zeta in F. simpl in F. destruct F as (F1 & F2 & _).
        left. simpl. rewrite F1, F2. split; reflexivity.
      * match goal with |- context [renderPDFPage ?p ?n ?st] =>
          destruct (renderPDFPage_cases p n st) as [(page & _ & _ & R)|R];
          rewrite R end.
        -- destruct (pageRaster page 1) as [img|].
           ++ right; left. split; [reflexivity|]. exists img. reflexivity.
           ++ left. split; reflexivity.
        -- left. split; reflexivity.
    + unfold processImageFile. destruct (readAsDataURL file) as [[|w h]|].
      * right; right. split; reflexivity.
      * right; left. split; [reflexivity|]. eexists. reflexivity.
      * left. split; reflexivity.
  - unfold selectArtboard. cbv zeta.
    destruct (currentPDF (markSelected element k s)) as [pdf|];
      [|left; split; reflexivity].
    destruct (renderPDFPage_cases pdf k (markSelected element k s))
      as [(page & _ & _ & R)|R]; rewrite R.
    + destruct (pageRaster page k) as [img|].
      * right; left. split; [reflexivity|]. exists img. reflexivity.
      * left. split; reflexivity.
    + left. split; reflexivity.
  - right; right. split; reflexivity.
  - unfold downloadImage. left.
    destruct (hasImage s) eqn:E; simpl; split; congruence.
Qed.

(** The flag is set exactly while a composite is on the canvas. *)
Lemma hasImage_iff_painted (s : State) :
  reachable s ->
  (hasImage s = true
   <-> exists img, previewCanvas s = Painted img (drawRect img)).
Proof.
  induction 1 as [|e s Hs IH].
  - split; [discriminate | intros [img H]; discriminate H].
  - destruct (handle_flagFollowsCanvas e s) as [[F C]|[[F C]|[F C]]].
    + rewrite F, C. exact IH.
    + split; auto.
    + rewrite F, C. split; [discriminate | intros [img H]; discriminate H].
Qed.

(** C2, at the failing input: after [logo.png] was drawn, uploading a file
    whose bytes cannot be read ([reader.onerror]) shows the alert and
    leaves the canvas, the flag and the new name in place: the logo is
    still shown and can be exported under the name of the unread file.
    A single-page document whose page fails to render does the same, where
    the earlier version of the script resets. *)
Theorem read_failure_keeps_previous_upload :
  let s1 := handle (Upload logo_png) initial in
  let s2 := handle (Upload unreadable_jpg) s1 in
  let failing := mkFile "f.pdf" None (Parses (mkPDF [failingPage 300 400])) in
  let s3 := handle (Upload failing) s1 in
  alerts s2 = [FileReadFailed] /\
  previewCanvas s2 = previewCanvas s1 /\
  previewCanvas s2 <> White /\
  hasImage s2 = true /\
  currentFileName s2 = "b" /\
  ~ isReset s2 /\
  fst (downloadImage s2)
    = Some (mkDownload "b_logo.png" (previewCanvas s1)) /\
  alerts s3 = [PageRenderFailed] /\
  previewCanvas s3 = previewCanvas s1 /\
  hasImage s3 = true /\
  ~ isReset s3 /\
  isReset (settled (FirstPageOnly.handleFile failing s1) s1).
Proof.
  cbv zeta.
  split. vm_compute; reflexivity.
  split. vm_compute; reflexivity.
  split. vm_compute; discriminate.
  split. vm_compute; reflexivity.
  split. vm_compute; reflexivity.
  split. (intros [H _]; vm_compute in H; discriminate H).
  split. vm_compute; reflexivity.
  split. vm_compute; reflexivity.
  split. vm_compute; reflexivity.
  split. vm_compute; reflexivity.
  split. (intros [H _]; vm_compute in H; discriminate H).
  (vm_compute; repeat split).
Qed.

(** C10. The extension [handleFile] classifies by is what follows the last
    dot of the file name, lower-cased; for a name without a dot it is the
    whole name, lower-cased, and nothing is stripped from such a name.
    Hence a dotless name that lower-cases to [jpg], [jpeg] or [png] is
    accepted as a raster and not turned away, and when its bytes decode the
    export is named after the whole name: the file [png] gives
    [png_logo.png].  Both versions of the script agree. *)
Theorem dotless_name_is_its_extension :
  (forall base e : string,
     hasNoDot e ->
     extensionOf (base ++ String JsString.dot e)
     = Some (JsString.toLowerCase e)) /\
  (forall fname : string,
     hasNoDot fname ->
     extensionOf fname = Some (JsString.toLowerCase fname) /\
     JsString.replaceExt fname = fname) /\
  (forall (file : File) (s : State),
     hasNoDot (name file) ->
     In (JsString.toLowerCase (name file)) ["jpg"; "jpeg"; "png"] ->
     handleFile file s = processImageFile file (accepted file s) /\
     currentFileName (accepted file s) = name file /\
     forall w h : Z,
       readAsDataURL file = Some (Decodes w h) ->
       alerts (handle (Upload file) s) = alerts s /\
       previewCanvas (handle (Upload file) s)
         = Painted (mkImage (FromFile (name file)) (inject_Z w) (inject_Z h))
             (drawRect
                (mkImage (FromFile (name file)) (inject_Z w) (inject_Z h)))
       /\
       currentFileName (handle (Upload file) s) = name file /\
       fst (downloadImage (handle (Upload file) s))
         = Some (mkDownload (name file ++ "_logo.png")
                   (previewCanvas (handle (Upload file) s))) /\
       settled (FirstPageOnly.handleFile file s) s
         = set_artboardSection_visible (artboardSection_visible s)
             (set_artboardGrid (artboardGrid s)
                (set_currentPDF (currentPDF s)
                   (set_selectedArtboard (selectedArtboard s)
                      (handle (Upload file) s))))).
Proof.
  split; [| split].
  - intros base e He. apply hasNoDot_splitLastDot in He.
    unfold extensionOf. rewrite pop_split, (splitLastDot_append base e He).
    reflexivity.
  - intros fname Hdot. apply hasNoDot_splitLastDot in Hdot. split.
    + unfold extensionOf. rewrite pop_split, Hdot. reflexivity.
    + rewrite replaceExt_lastDot, Hdot. reflexivity.
  - intros file s Hdot Hext.
    apply hasNoDot_splitLastDot in Hdot.
    assert (E : extensionOf (name file)
                = Some (JsString.toLowerCase (name file))).
    { unfold extensionOf. rewrite pop_split, Hdot. reflexivity. }
    assert (R : JsString.replaceExt (name file) = name file).
    { rewrite replaceExt_lastDot, Hdot. reflexivity. }
    split; [exact (handleFile_raster file s _ E Hext) |].
    split; [exact R |].
    intros w h Hread.
    assert (F : FirstPageOnly.handleFile file s
                = FirstPageOnly.processImageFile file
                    (set_uploadArea_loading true
                       (set_fileInfo_visible true
                          (set_fileName_text (name file)
                             (set_currentFileName
                                (JsString.replaceExt (name file)) s))))).
    { unfold FirstPageOnly.handleFile. rewrite E. simpl in Hext.
      repeat (destruct Hext as [<- | Hext]; [reflexivity |]). destruct Hext. }
    unfold handle. rewrite (handleFile_raster file s _ E Hext), F.
    unfold processImageFile, FirstPageOnly.processImageFile. rewrite Hread.
    split; [reflexivity |]. split; [reflexivity |].
    split; [exact R |]. split; [| reflexivity].
    cbn. rewrite R. reflexivity.
Qed.

Lemma dotless_name_is_its_extension_witness :
  hasNoDot "png" /\
  extensionOf "logo.png" = Some "png" /\
  extensionOf "Logo.v2.PNG" = Some "png" /\
  extensionOf "png" = Some "png" /\
  JsString.replaceExt "png" = "png" /\
  alerts (handle (Upload dotless_png) initial) = [] /\
  fst (downloadImage (handle (Upload dotless_png) initial))
    = Some (mkDownload "png_logo.png"
              (previewCanvas (handle (Upload dotless_png) initial))).
Proof.
  assert (H1 : hasNoDot "png").
  { apply hasNoDot_splitLastDot. reflexivity. }
  assert (H2 : In (JsString.toLowerCase (name dotless_png))
                 ["jpg"; "jpeg"; "png"]).
  { right. right. left. reflexivity. }
  assert (H3 : hasNoDot "PNG").
  { apply hasNoDot_splitLastDot. reflexivity. }
  destruct dotless_name_is_its_extension as (A & B & C).
  split; [exact H1 |].
  split; [exact (A "logo" "png" H1) |].
  split; [exact (A "Logo.v2" "PNG" H3) |].
  destruct (B "png" H1) as [E R].
  split; [exact E |]. split; [exact R |].
  destruct (C dotless_png initial H1 H2) as (_ & _ & D).
  destruct (D 400%Z 100%Z eq_refl) as (Al & _ & _ & Dl & _).
  split; [exact Al | exact Dl].
Defined.

(** An accepted upload keeps the stripped name unless it ends in a reset. *)
Lemma upload_name (file : File) (s : State) (ext : string) :
  extensionOf (name file) = Some ext ->
  JsString.includes_elem validExtensions ext = true ->
  hasImage (handle (Upload file) s) = false \/
  currentFileName (handle (Upload file) s) = originalBaseName (name file).
Proof.
  intros E V. rewrite <- (accepted_name_stripped _ _ E V).
  unfold handle, handleFile. rewrite E, V. cbn [negb].
  destruct (_ || _).
  - unfold processPDFFile. cbv zeta.
    destruct (asDocument file) as [err|err|pdf]; [left; reflexivity ..|].
    destruct (1 <? numPages pdf)%Z.
    + match goal with |- context [showArtboardSelector ?p ?n ?st] =>
        pose proof (showArtboardSelector_frame p n st) as F;
        destruct (showArtboardSelector p n st) as [s2 tasks] end.
      cbv zeta in F. simpl in F. destruct F as (_ & _ & F & _).
      right. simpl. rewrite F. reflexivity.
    + match goal with |- context [renderPDFPage ?p ?n ?st] =>
        destruct (renderPDFPage_cases p n st) as [(page & _ & _ & R)|R];
        rewrite R end.
      * destruct (pageRaster page 1); right; reflexivity.
      * right; reflexivity.
  - unfold processImageFile. destruct (readAsDataURL file) as [[|w h]|].
    + left; reflexivity.
    + right; reflexivity.
    + right; reflexivity.
Qed.

(** C5. [downloadImage] produces a download, named [currentFileName]
    followed by [_logo.png], exactly when [hasImage] is set; with the flag
    unset it only shows the no-image alert.  [drawImageToCanvas] sets the
    flag and [clearCanvas] unsets it, and no action changes the flag in any
    other way, so that the flag is set exactly while a composite is on the
    canvas.  After an accepted upload the name exported is the file name
    with its final extension stripped. *)
Theorem export_iff_hasImage :
  (forall s, hasImage s = true ->
     downloadImage s
     = (Some (mkDownload (currentFileName s ++ "_logo.png") (previewCanvas s)),
        s)) /\
  (forall s, hasImage s = false ->
     downloadImage s = (None, alert NoImageYet s)) /\
  (forall s, is_Some (fst (downloadImage s)) <-> hasImage s = true) /\
  (forall img s, hasImage (drawImageToCanvas img s) = true) /\
  (forall s, hasImage (clearCanvas s) = false) /\
  (forall e s, flagFollowsCanvas s (handle e s)) /\
  (forall s, reachable s ->
     (hasImage s = true
      <-> exists img, previewCanvas s = Painted img (drawRect img))) /\
  (forall file s ext,
     extensionOf (name file) = Some ext ->
     JsString.includes_elem validExtensions ext = true ->
     hasImage (handle (Upload file) s) = true ->
     fst (downloadImage (handle (Upload file) s))
     = Some (mkDownload (originalBaseName (name file) ++ "_logo.png")
               (previewCanvas (handle (Upload file) s)))).
Proof.
  split. { intros s H. unfold downloadImage. rewrite H. reflexivity. }
  split. { intros s H. unfold downloadImage. rewrite H. reflexivity. }
  split.
  { intros s. unfold downloadImage. destruct (hasImage s); simpl.
    - split; [reflexivity | intros _; eexists; reflexivity].
    - split; [intros [d H]; discriminate H | discriminate]. }
  split; [reflexivity|]. split; [reflexivity|].
  split; [exact handle_flagFollowsCanvas|].
  split; [exact hasImage_iff_painted|].
  intros file s ext E V H.
  destruct (upload_name file s ext E V) as [F|N]; [congruence|].
  unfold downloadImage. rewrite H, N. reflexivity.
Qed.

Lemma export_iff_hasImage_witness :
  extensionOf (name logo_png) = Some "png" /\
  hasImage (handle (Upload logo_png) initial) = true /\
  fst (downloadImage (handle (Upload logo_png) initial))
  = Some (mkDownload "logo_logo.png"
            (previewCanvas (handle (Upload logo_png) initial))) /\
  downloadImage initial = (None, alert NoImageYet initial).
Proof.
  destruct export_iff_hasImage as (_ & Hoff & _ & _ & _ & _ & _ & Hname).
  split; [reflexivity|]. split; [reflexivity|]. split.
  - exact (Hname logo_png initial "png" eq_refl eq_refl eq_refl).
  - exact (Hoff initial eq_refl).
Defined.

(** ** Documents that do not open *)

Lemma errorMessage_spec (error : JsError) :
  (errorMessage error = NotPdfCompatible
   <-> exists m, message error = Some m /\ occursIn "Invalid PDF" m) /\
  (errorMessage error = NotPdfCompatible
   \/ errorMessage error = DocumentFailed).
Proof.
  unfold errorMessage. destruct (message error) as [m|].
  - destruct (String.eqb m "") eqn:Em; cbn [negb andb].
    + apply String.eqb_eq in Em. subst m. split; [|right; reflexivity].
      split; [discriminate|]. intros (m & E & pre & post & H).
      injection E as <-. destruct pre; discriminate H.
    + destruct (JsString.includes m "Invalid PDF") eqn:Ei.
      * split; [|left; reflexivity]. split; [|reflexivity].
        intros _. exists m. split; [reflexivity|].
        apply includes_spec, Ei.
      * split; [|right; reflexivity]. split; [discriminate|].
        intros (m' & E & H). injection E as <-.
        apply includes_spec in H. congruence.
  - split; [|right; reflexivity]. split; [discriminate|].
    intros (m & E & _). discriminate E.
Qed.

(** C8. When the document does not parse, [processPDFFile] shows one of two
    alerts: the dedicated one exactly when the error message contains
    [Invalid PDF], the generic one otherwise; either way the canvas is blank
    and the upload state is reset.  Both versions of the script agree. *)
Theorem incompatible_export_mode (file : File) (s : State) (error : JsError) :
  asDocument file = ParseRejects error ->
  alerts (settled (processPDFFile file s) s) = errorMessage error :: alerts s /\
  (errorMessage error = NotPdfCompatible
   <-> exists m, message error = Some m /\ occursIn "Invalid PDF" m) /\
  (errorMessage error = NotPdfCompatible \/ errorMessage error = DocumentFailed)
  /\
  isReset (settled (processPDFFile file s) s) /\
  idle (settled (processPDFFile file s) s) /\
  uploadArea_loading (settled (processPDFFile file s) s) = false /\
  settled (FirstPageOnly.processPDFFile file s) s
  = FirstPageOnly.clearCanvas
      (set_uploadArea_loading false (alert (errorMessage error) s)).
Proof.
  intro H.
  destruct (document_failure_resets file s error (or_intror H)) as (R & L & A).
  destruct (errorMessage_spec error) as [K1 K2].
  split; [exact A|]. split; [exact K1|]. split; [exact K2|].
  split; [exact R|]. split; [apply R|]. split; [exact L|].
  unfold FirstPageOnly.processPDFFile. rewrite H. reflexivity.
Qed.

Lemma incompatible_export_mode_witness :
  asDocument brochure_ai
    = ParseRejects (mkError (Some "Invalid PDF structure.")) /\
  alerts (settled (processPDFFile brochure_ai initial) initial)
    = [NotPdfCompatible] /\
  isReset (settled (processPDFFile brochure_ai initial) initial).
Proof.
  split; [reflexivity|].
  destruct (incompatible_export_mode brochure_ai initial
              (mkError (Some "Invalid PDF structure.")) eq_refl)
    as (A & _ & _ & R & _).
  split; [exact A | exact R].
Defined.

(** ** Selection markers *)

Lemma unselectPrevious_cons (it : ArtboardItem) (grid : list ArtboardItem) :
  unselectPrevious (it :: grid)
  = if selected it then set_selected false it :: grid
    else it :: unselectPrevious grid.
Proof.
  unfold unselectPrevious. cbn [list_find].
  destruct (decide (selected it = true)) as [E|E].
  - rewrite E. reflexivity.
  - apply not_true_is_false in E. rewrite E.
    destruct (list_find _ grid) as [[i x]|]; reflexivity.
Qed.

Lemma markedPages_cons (it : ArtboardItem) (grid : list ArtboardItem) :
  markedPages (it :: grid)
  = if selected it then dataset_page it :: markedPages grid
    else markedPages grid.
Proof.
  unfold markedPages. rewrite filter_cons.
  destruct (decide (selected it = true)) as [E|E].
  - rewrite E. reflexivity.
  - apply not_true_is_false in E. rewrite E. reflexivity.
Qed.

Lemma markedPages_nil_iff (grid : list ArtboardItem) :
  markedPages grid = [] <-> Forall unmarked grid.
Proof.
  induction grid as [|it grid IH]; [split; [constructor | reflexivity]|].
  rewrite markedPages_cons, Forall_cons. unfold unmarked at 1.
  destruct (selected it).
  - split; [discriminate | intros [H _]; discriminate H].
  - rewrite IH. tauto.
Qed.

(** With at most one marker, dropping the first one drops them all. *)
Lemma unselectPrevious_clears (grid : list ArtboardItem) :
  (length (markedPages grid) <= 1)%nat ->
  Forall unmarked (unselectPrevious grid).
Proof.
  induction grid as [|it grid IH]; [constructor|].
  rewrite markedPages_cons, unselectPrevious_cons.
  destruct (selected it) eqn:E; intro H.
  - constructor; [reflexivity|]. apply markedPages_nil_iff.
    simpl in H. destruct (markedPages grid); [reflexivity | simpl in H; lia].
  - constructor; [exact E | exact (IH H)].
Qed.

Lemma unselectPrevious_pages (grid : list ArtboardItem) :
  dataset_page <$> unselectPrevious grid = dataset_page <$> grid.
Proof.
  induction grid as [|it grid IH]; [reflexivity|].
  rewrite unselectPrevious_cons. destruct (selected it); [reflexivity|].
  rewrite !fmap_cons, IH. reflexivity.
Qed.

Lemma alter_selected_pages (b : bool) (i : nat) (grid : list ArtboardItem) :
  dataset_page <$> alter (set_selected b) i grid = dataset_page <$> grid.
Proof.
  revert i. induction grid as [|it grid IH]; intros [|i]; try reflexivity.
  cbn. f_equal. apply IH.
Qed.

(** Marking one item of an unmarked grid marks exactly its page. *)
Lemma mark_one (grid : list ArtboardItem) (i : nat) (it : ArtboardItem) :
  Forall unmarked grid ->
  grid !! i = Some it ->
  markedPages (alter (set_selected true) i grid) = [dataset_page it].
Proof.
  revert i.
  induction grid as [|x grid IH]; intros i Hall Hi; [discriminate Hi|].
  apply Forall_cons in Hall as [Hx Hall]. destruct i as [|i].
  - injection Hi as ->.
    change (alter (set_selected true) 0%nat (it :: grid))
      with (set_selected true it :: grid).
    rewrite markedPages_cons. cbn [selected set_selected dataset_page].
    apply markedPages_nil_iff in Hall. rewrite Hall. reflexivity.
  - change (alter (set_selected true) (S i) (x :: grid))
      with (x :: alter (set_selected true) i grid).
    rewrite markedPages_cons. unfold unmarked in Hx. rewrite Hx.
    apply IH; assumption.
Qed.

Lemma mark_outside (grid : list ArtboardItem) (i : nat) :
  Forall unmarked grid ->
  grid !! i = None ->
  markedPages (alter (set_selected true) i grid) = [].
Proof.
  intros Hall Hi. apply markedPages_nil_iff.
  assert (E : alter (set_selected true) i grid = grid).
  { apply list_eq. intro j. destruct (decide (i = j)) as [<-|Hn].
    - rewrite list_lookup_alter_eq, Hi. reflexivity.
    - apply list_lookup_alter_ne. exact Hn. }
  rewrite E. exact Hall.
Qed.

(** After [markSelected] at most one item is marked. *)
Lemma markSelected_at_most_one (element : nat) (k : Z) (s : State) :
  (length (markedPages (artboardGrid s)) <= 1)%nat ->
  (length (markedPages (artboardGrid (markSelected element k s))) <= 1)%nat.
Proof.
  intro H. apply unselectPrevious_clears in H.
  change (artboardGrid (markSelected element k s))
    with (alter (set_selected true) element
            (unselectPrevious (artboardGrid s))).
  destruct (unselectPrevious (artboardGrid s) !! element) as [it|] eqn:E.
  - rewrite (mark_one _ _ _ H E). simpl. lia.
  - rewrite (mark_outside _ _ H E). simpl. lia.
Qed.



Lemma getPage_in_range (pdf : PDFDocumentProxy) (k : Z) :
  (1 <= k <= numPages pdf)%Z -> exists page, getPage pdf k = Some page.
Proof.
  intro H. unfold getPage.
  destruct H as [H1 H2]. apply Z.leb_le in H1 as E1. apply Z.leb_le in H2 as E2.
  rewrite E1, E2. cbn [andb]. apply lookup_lt_is_Some_2.
  unfold numPages in H2. lia.
Qed.

(** ** Picking an artboard *)

(** C7 as stated fails: with no document loaded, [selectArtboard] still
    records the page number. *)
Lemma pick_without_document_sets_selection :
  idle initial /\
  selectedArtboard initial = None /\
  selectedArtboard (handle (Pick 0 1) initial) = Some 1%Z /\
  handle (Pick 0 1) initial <> initial.
Proof.
  split; [reflexivity|]. split; [reflexivity|]. split; [reflexivity|].
  intro H. apply (f_equal selectedArtboard) in H. discriminate H.
Qed.

(** C7, as amended. With no document loaded, [selectArtboard(element, k)]
    renders nothing: the output canvas, the flag, the file name, the
    document handle and the dialogs are untouched.  It does move the
    selection marker to the element and sets [selectedArtboard] to [k]. *)
Theorem pick_without_document (element : nat) (k : Z) (s : State) :
  idle s ->
  selectArtboard element k s = [markSelected element k s] /\
  previewCanvas (handle (Pick element k) s) = previewCanvas s /\
  hasImage (handle (Pick element k) s) = hasImage s /\
  currentFileName (handle (Pick element k) s) = currentFileName s /\
  idle (handle (Pick element k) s) /\
  alerts (handle (Pick element k) s) = alerts s /\
  selectedArtboard (handle (Pick element k) s) = Some k /\
  artboardGrid (handle (Pick element k) s)
    = alter (set_selected true) element (unselectPrevious (artboardGrid s)).
Proof.
  unfold idle. intro H.
  assert (E : selectArtboard element k s = [markSelected element k s]).
  { unfold selectArtboard. cbv zeta.
    change (currentPDF (markSelected element k s)) with (currentPDF s).
    rewrite H. reflexivity. }
  unfold handle. rewrite E. repeat split. exact H.
Qed.

Lemma pick_without_document_witness :
  idle initial /\
  selectArtboard 0 1 initial = [markSelected 0 1 initial] /\
  previewCanvas (handle (Pick 0 1) initial) = White.
Proof.
  split; [reflexivity|].
  destruct (pick_without_document 0 1 initial eq_refl) as (E & C & _).
  split; [exact E | exact C].
Defined.




(** ** The artboard selector *)

Lemma fold_appendArtboard (l : list Z) (grid : list ArtboardItem)
  (tasks : list Task) :
  fold_left appendArtboard l (grid, tasks)
  = (grid ++ (freshItem <$> l),
     tasks ++ imap (fun j i => (i, (length grid + j)%nat)) l).
Proof.
  revert grid tasks. induction l as [|i l IH]; intros grid tasks.
  - cbn. rewrite !app_nil_r. reflexivity.
  - cbn [fold_left appendArtboard]. rewrite IH, imap_cons, fmap_cons.
    rewrite <- !app_assoc. cbn [app]. f_equal. f_equal.
    rewrite Nat.add_0_r. f_equal. apply imap_ext. intros j x _.
    cbn. rewrite length_app. cbn. f_equal. lia.
Qed.

Lemma tasks_by_page (n : Z) :
  imap (fun (j : nat) (i : Z) => (i, j)) (seqZ 1 n)
  = (fun i => (i, Z.to_nat (i - 1))) <$> seqZ 1 n.
Proof.
  apply list_eq. intro j.
  rewrite list_lookup_imap, list_lookup_fmap.
  destruct (seqZ 1 n !! j) as [i|] eqn:E; [|reflexivity].
  apply lookup_seqZ in E as [-> _]. cbn. do 2 f_equal. lia.
Qed.

(** The grid and the tasks [showArtboardSelector] leaves behind. *)
Lemma showArtboardSelector_spec (pdf : PDFDocumentProxy) (n : Z) (s : State) :
  showArtboardSelector pdf n s
  = (set_artboardSection_visible true
       (set_artboardGrid (freshItem <$> seqZ 1 n)
          (set_artboardCount_text (Some n)
             (set_selectedArtboard None s))),
     (fun i => (i, Z.to_nat (i - 1))) <$> seqZ 1 n).
Proof.
  unfold showArtboardSelector. cbv zeta.
  change (artboardGrid
            (set_artboardCount_text (Some n)
               (set_selectedArtboard None (set_artboardGrid [] s))))
    with (@nil ArtboardItem).
  rewrite fold_appendArtboard. cbn [app length Nat.add].
  rewrite tasks_by_page. reflexivity.
Qed.

Lemma fresh_grid (n : Z) :
  gridOf n (freshItem <$> seqZ 1 n) /\
  markedPages (freshItem <$> seqZ 1 n) = [] /\
  Z.of_nat (length (freshItem <$> seqZ 1 n)) = Z.max 0 n.
Proof.
  split; [|split].
  - unfold gridOf. rewrite <- list_fmap_compose. apply list_fmap_id.
  - apply markedPages_nil_iff. apply Forall_fmap, Forall_true. reflexivity.
  - rewrite length_fmap, length_seqZ. lia.
Qed.

(** No action leaves more than one item marked. *)
Lemma handle_at_most_one (e : Event) (s : State) :
  (length (markedPages (artboardGrid s)) <= 1)%nat ->
  (length (markedPages (artboardGrid (handle e s))) <= 1)%nat.
Proof.
  intro H. destruct e as [file | element k | | ]; unfold handle.
  - unfold handleFile. destruct (extensionOf (name file)) as [ext|];
      [|exact H].
    destruct (negb _); [exact H|].
    destruct (_ || _).
    + unfold processPDFFile. cbv zeta.
      destruct (asDocument file) as [err|err|pdf]; [cbn; lia ..|].
      destruct (1 <? numPages pdf)%Z.
      * rewrite showArtboardSelector_spec.
        change (artboardGrid (settled _ s))
          with (freshItem <$> seqZ 1 (numPages pdf)).
        rewrite (proj1 (proj2 (fresh_grid _))). cbn. lia.
      * match goal with |- context [renderPDFPage ?p ?n ?st] =>
          destruct (renderPDFPage_cases p n st) as [(page & _ & _ & R)|R];
          rewrite R end.
        -- destruct (pageRaster page 1); cbn; lia.
        -- cbn. lia.
    + unfold processImageFile.
      destruct (readAsDataURL file) as [[|w h]|]; cbn; lia.
  - unfold selectArtboard. cbv zeta.
    pose proof (markSelected_at_most_one element k s H) as M.
    destruct (currentPDF (markSelected element k s)) as [pdf|]; [|exact M].
    destruct (renderPDFPage_cases pdf k (markSelected element k s))
      as [(page & _ & _ & R)|R]; rewrite R.
    + destruct (pageRaster page k); exact M.
    + exact M.
  - cbn. lia.
  - unfold downloadImage. destruct (hasImage s); exact H.
Qed.

Lemma reachable_at_most_one (s : State) :
  reachable s -> (length (markedPages (artboardGrid s)) <= 1)%nat.
Proof.
  induction 1 as [|e s _ IH]; [cbn; lia|].
  exact (handle_at_most_one e s IH).
Qed.

(** ** Thumbnails *)

Lemma settleThumbnails_grid (pdf : PDFDocumentProxy) (order : list Task)
  (s : State) :
  settleThumbnails pdf order s
  = set_artboardGrid
      (fold_left (fun g t => alter (withThumbnail pdf (fst t)) (snd t) g)
         order (artboardGrid s)) s.
Proof.
  unfold settleThumbnails. revert s.
  induction order as [|t order IH]; intro s; [destruct s; reflexivity|].
  cbn [fold_left]. rewrite IH. reflexivity.
Qed.

(** A task does not touch the containers of other tasks. *)
Lemma settle_other (pdf : PDFDocumentProxy) (order : list Task)
  (grid : list ArtboardItem) (c : nat) :
  c ∉ order.*2 ->
  fold_left (fun g t => alter (withThumbnail pdf (fst t)) (snd t) g) order grid
    !! c
  = grid !! c.
Proof.
  revert grid. induction order as [|t order IH]; intros grid H; [reflexivity|].
  cbn [fold_left]. rewrite fmap_cons in H.
  apply not_elem_of_cons in H as [H1 H2].
  rewrite (IH _ H2). apply list_lookup_alter_ne. congruence.
Qed.

(** With one task per container, each container gets the result of its
    own task, in whatever order the tasks finish. *)
Lemma settle_own (pdf : PDFDocumentProxy) (order : list Task)
  (grid : list ArtboardItem) (i : Z) (c : nat) :
  NoDup order.*2 ->
  (i, c) ∈ order ->
  fold_left (fun g t => alter (withThumbnail pdf (fst t)) (snd t) g) order grid
    !! c
  = withThumbnail pdf i <$> grid !! c.
Proof.
  revert grid. induction order as [|t order IH]; intros grid Hnd Hin.
  - apply elem_of_nil in Hin. destruct Hin.
  - rewrite fmap_cons in Hnd. apply NoDup_cons in Hnd as [Hc Hnd].
    cbn [fold_left]. apply elem_of_cons in Hin as [<-|Hin].
    + rewrite (settle_other _ _ _ _ Hc). apply list_lookup_alter_eq.
    + rewrite (IH _ Hnd Hin). f_equal. apply list_lookup_alter_ne.
      intros <-. apply Hc. exact (list_elem_of_fmap_2 snd _ _ Hin).
Qed.

Lemma started_tasks (n : Z) :
  NoDup ((fun i : Z => (i, Z.to_nat (i - 1))) <$> seqZ 1 n).*2 /\
  forall i : Z, (1 <= i <= n)%Z ->
    (i, Z.to_nat (i - 1)) ∈ (fun i : Z => (i, Z.to_nat (i - 1))) <$> seqZ 1 n.
Proof.
  split.
  - rewrite <- list_fmap_compose.
    apply NoDup_fmap_2_strong; [|apply NoDup_seqZ].
    intros x y Hx Hy. apply elem_of_seqZ in Hx, Hy. cbn. lia.
  - intros i Hi.
    apply (list_elem_of_fmap_2 (fun i : Z => (i, Z.to_nat (i - 1)))).
    apply elem_of_seqZ. lia.
Qed.

(** C9. Once the thumbnail tasks started by [showArtboardSelector] have
    finished, in any order, the item of every page [i] in [1, numPages] is
    the item made for page [i] holding the outcome of page [i] alone: its
    image if the page rendered, the placeholder if it did not; the output
    canvas, the script variables and the dialogs are as they were. *)
Theorem thumbnails_are_independent (pdf : PDFDocumentProxy) (s : State)
  (order : list Task) :
  order ≡ₚ snd (showArtboardSelector pdf (numPages pdf) s) ->
  (forall i : Z, (1 <= i <= numPages pdf)%Z ->
     artboardGrid
       (settleThumbnails pdf order
          (fst (showArtboardSelector pdf (numPages pdf) s)))
       !! Z.to_nat (i - 1)
     = Some (mkItem i i false (thumbnailOf pdf i []))) /\
  (forall (i : Z) (page : Page),
     getPage pdf i = Some page ->
     thumbnailOf pdf i []
     = match render page (200 / vp_width (getViewport page 1)) with
       | None =>
           [ThumbnailImg i
              (toPixels (vp_width
                 (getViewport page (200 / vp_width (getViewport page 1)))))
              (toPixels (vp_height
                 (getViewport page (200 / vp_width (getViewport page 1)))))]
       | Some _ => [LoadFailedText]
       end) /\
  length (artboardGrid
            (settleThumbnails pdf order
               (fst (showArtboardSelector pdf (numPages pdf) s))))
    = length (pages pdf) /\
  sameUpload (fst (showArtboardSelector pdf (numPages pdf) s))
    (settleThumbnails pdf order
       (fst (showArtboardSelector pdf (numPages pdf) s))) /\
  previewCanvas
    (settleThumbnails pdf order
       (fst (showArtboardSelector pdf (numPages pdf) s)))
    = previewCanvas s /\
  hasImage
    (settleThumbnails pdf order
       (fst (showArtboardSelector pdf (numPages pdf) s)))
    = hasImage s /\
  alerts
    (settleThumbnails pdf order
       (fst (showArtboardSelector pdf (numPages pdf) s)))
    = alerts s.
Proof.
  rewrite showArtboardSelector_spec, settleThumbnails_grid.
  cbn [fst snd]. intro Hperm.
  destruct (started_tasks (numPages pdf)) as [Hnd Hin].
  assert (Hnd' : NoDup order.*2).
  { rewrite Hperm. exact Hnd. }
  split.
  { intros i Hi.
    change (artboardGrid (set_artboardGrid ?g _)) with g.
    rewrite (settle_own pdf order _ i).
    - change (artboardGrid (set_artboardSection_visible true
        (set_artboardGrid ?g _))) with g.
      rewrite list_lookup_fmap, lookup_seqZ_lt by lia.
      replace (1 + Z.of_nat (Z.to_nat (i - 1)))%Z with i by lia.
      reflexivity.
    - exact Hnd'.
    - rewrite Hperm. apply Hin, Hi. }
  split.
  { intros i page Hp. unfold thumbnailOf. rewrite Hp. cbv zeta.
    destruct (render page _); reflexivity. }
  split.
  { change (artboardGrid (set_artboardGrid ?g _)) with g.
    change (artboardGrid (set_artboardSection_visible true
        (set_artboardGrid ?g _))) with g.
    assert (L : forall (o : list Task) (g : list ArtboardItem),
              length (fold_left
                        (fun g t => alter (withThumbnail pdf (fst t)) (snd t) g)
                        o g) = length g).
    { induction o as [|t o IH]; intro g; [reflexivity|].
      cbn [fold_left]. rewrite IH. apply length_alter. }
    rewrite L, length_fmap, length_seqZ. unfold numPages. lia. }
  repeat split.
Qed.

Lemma thumbnails_are_independent_witness :
  [(2%Z, 1%nat); (3%Z, 2%nat); (1%Z, 0%nat)]
    ≡ₚ snd (showArtboardSelector threePages (numPages threePages) initial) /\
  artboardGrid
    (settleThumbnails threePages [(2%Z, 1%nat); (3%Z, 2%nat); (1%Z, 0%nat)]
       (fst (showArtboardSelector threePages (numPages threePages) initial)))
    !! 0%nat
  = Some (mkItem 1 1 false [ThumbnailImg 1 200 20]) /\
  artboardGrid
    (settleThumbnails threePages [(2%Z, 1%nat); (3%Z, 2%nat); (1%Z, 0%nat)]
       (fst (showArtboardSelector threePages (numPages threePages) initial)))
    !! 1%nat
  = Some (mkItem 2 2 false [LoadFailedText]) /\
  artboardGrid
    (settleThumbnails threePages [(2%Z, 1%nat); (3%Z, 2%nat); (1%Z, 0%nat)]
       (fst (showArtboardSelector threePages (numPages threePages) initial)))
    !! 2%nat
  = Some (mkItem 3 3 false [ThumbnailImg 3 200 266]).
Proof.
  assert (P : [(2%Z, 1%nat); (3%Z, 2%nat); (1%Z, 0%nat)]
              ≡ₚ snd (showArtboardSelector threePages (numPages threePages)
                        initial)).
  { symmetry. exact (Permutation_cons_append [(2%Z, 1%nat); (3%Z, 2%nat)]
                       (1%Z, 0%nat)). }
  split; [exact P|].
  destruct (thumbnails_are_independent threePages initial _ P) as (G & _).
  split; [|split].
  - exact (G 1%Z ltac:(vm_compute; split; discriminate)).
  - exact (G 2%Z ltac:(vm_compute; split; discriminate)).
  - exact (G 3%Z ltac:(vm_compute; split; discriminate)).
Defined.

(** ** Loading a document *)




(** * Further properties of the script *)

(** ** Margins, centring and resolution independence *)

(** X1. An image of positive size is drawn centred on the canvas and at
    least 5% of the canvas away from every edge: x >= 39.3, y >= 14,
    right edge <= 746.7, bottom edge <= 266. *)
Theorem drawImageToCanvas_margins (img : Image) (s : State) :
  0 < width img -> 0 < height img ->
  previewCanvas (drawImageToCanvas img s) = Painted img (drawRect img) /\
  39.3 <= rect_x (drawRect img) /\
  14 <= rect_y (drawRect img) /\
  rect_x (drawRect img) + drawWidth (drawRect img) <= 746.7 /\
  rect_y (drawRect img) + drawHeight (drawRect img) <= 266 /\
  2 * rect_x (drawRect img) + drawWidth (drawRect img) == 786 /\
  2 * rect_y (drawRect img) + drawHeight (drawRect img) == 280.
Proof.
  intros Hw Hh. split; [reflexivity|].
  destruct (fit_bounds img Hw Hh) as [[_ Bw] [_ Bh]].
  destruct (rect_offsets img) as [Ex Ey].
  unfold CANVAS_WIDTH, CANVAS_HEIGHT, nineTenths in *.
  repeat split; lra.
Qed.

Lemma drawImageToCanvas_margins_witness :
  0 < width (mkImage (FromFile "logo.png") 400 100) /\
  0 < height (mkImage (FromFile "logo.png") 400 100) /\
  39.3 <= rect_x (drawRect (mkImage (FromFile "logo.png") 400 100)) /\
  14 <= rect_y (drawRect (mkImage (FromFile "logo.png") 400 100)).
Proof.
  split; [reflexivity|]. split; [reflexivity|].
  destruct (drawImageToCanvas_margins
              (mkImage (FromFile "logo.png") 400 100) initial
              eq_refl eq_refl) as (_ & X & Y & _).
  split; [exact X | exact Y].
Defined.

Lemma Qdiv_cross (a b c d : Q) :
  0 < b -> 0 < d -> a * d == c * b -> a / b == c / d.
Proof.
  intros Hb Hd H.
  assert (E1 : a / b == a * d / (b * d)) by (field; lra).
  assert (E2 : c / d == c * b / (b * d)) by (field; lra).
  rewrite E1, E2, H. reflexivity.
Qed.

(** X2. The rectangle depends on the aspect ratio only: two images of the
    same proportions, whatever their resolutions, are drawn in the same
    rectangle. *)
Theorem drawRect_same_aspect (a b : Image) :
  0 < width a -> 0 < height a -> 0 < width b -> 0 < height b ->
  width a * height b == width b * height a ->
  rect_x (drawRect a) == rect_x (drawRect b) /\
  rect_y (drawRect a) == rect_y (drawRect b) /\
  drawWidth (drawRect a) == drawWidth (drawRect b) /\
  drawHeight (drawRect a) == drawHeight (drawRect b).
Proof.
  intros Hwa Hha Hwb Hhb H.
  destruct (rect_offsets a) as [Xa Ya]. destruct (rect_offsets b) as [Xb Yb].
  assert (D : drawWidth (drawRect a) == drawWidth (drawRect b) /\
              drawHeight (drawRect a) == drawHeight (drawRect b)).
  { destruct (Qlt_le_dec (CANVAS_WIDTH / CANVAS_HEIGHT) (width a / height a))
      as [L|L].
    - destruct (wide_rect a Hwa Hha L) as [Wa Ha].
      apply (wider_iff _ _ Hha) in L.
      destruct (wide_rect b Hwb Hhb) as [Wb Hb].
      { apply (wider_iff _ _ Hhb).
        apply (Qmult_lt_r _ _ (height a) Hha).
        assert (E : 280 * width b * height a == 280 * (width a * height b))
          by (rewrite H; ring).
        rewrite E. nra. }
      rewrite Wa, Wb, Ha, Hb. split; [reflexivity|].
      apply Qdiv_cross; [exact Hwa | exact Hwb |].
      transitivity (CANVAS_WIDTH * nineTenths * (width b * height a));
        [ring|]. rewrite <- H. ring.
    - destruct (tall_rect a Hwa Hha L) as [Ha Wa].
      apply (taller_iff _ _ Hha) in L.
      destruct (tall_rect b Hwb Hhb) as [Hb Wb].
      { apply (taller_iff _ _ Hhb).
        apply (Qmult_le_r _ _ (height a) Hha).
        assert (E : 280 * width b * height a == 280 * (width a * height b))
          by (rewrite H; ring).
        rewrite E. nra. }
      rewrite Wa, Wb, Ha, Hb. split; [|reflexivity].
      apply Qdiv_cross; [exact Hha | exact Hhb |].
      transitivity (CANVAS_HEIGHT * nineTenths * (width a * height b));
        [ring|]. rewrite H. ring. }
  destruct D as [Dw Dh]. unfold CANVAS_WIDTH, CANVAS_HEIGHT in *.
  repeat split; lra.
Qed.

Lemma drawRect_same_aspect_witness :
  0 < width (mkImage (FromFile "a.png") 400 100) /\
  0 < height (mkImage (FromFile "a.png") 400 100) /\
  0 < width (mkImage (FromFile "b.png") 1200 300) /\
  0 < height (mkImage (FromFile "b.png") 1200 300) /\
  400 * 300 == 1200 * 100 /\
  drawHeight (drawRect (mkImage (FromFile "a.png") 400 100))
    == drawHeight (drawRect (mkImage (FromFile "b.png") 1200 300)).
Proof.
  repeat (split; [reflexivity|]).
  exact (proj2 (proj2 (proj2
    (drawRect_same_aspect (mkImage (FromFile "a.png") 400 100)
       (mkImage (FromFile "b.png") 1200 300)
       eq_refl eq_refl eq_refl eq_refl eq_refl)))).
Defined.

(** ** The temporary canvas of a rendered page *)


(** X3. As binary64 computes it, the raster of a page never exceeds
    707 x 252 pixels and has at least one pixel each way; it is 707 wide
    when the page is at least as wide as 786:280, and 251 or 252 high when
    the page is no wider. *)
Theorem pageRaster_within_canvas (page : Page) (k : Z) (img : Image) :
  1 <= page_width page <= 4294967296 ->
  1 <= page_height page <= 4294967296 ->
  Binary64.isNumber (page_width page) ->
  Binary64.isNumber (page_height page) ->
  Binary64.pageRaster page k = Some img ->
  src img = FromPage k /\
  1 <= width img <= 707 /\
  1 <= height img <= 252 /\
  (786 * page_height page <= 280 * page_width page -> width img == 707) /\
  (280 * page_width page <= 786 * page_height page ->
     height img == 251 \/ height img == 252).
Proof.
  intros [Hw1 Hw2] [Hh1 Hh2] Nw Nh Hi.
  assert (Hw : 0 < page_width page) by lra.
  assert (Hh : 0 < page_height page) by lra.
  destruct (computed_pageRaster_Some _ _ _ Hi) as (E & Pw & Ph).
  destruct (computed_canvas_size page Hw Hh Nw Nh) as (Uw & Uh & Wide & Tall).
  rewrite E. cbn [src width height].
  split; [reflexivity |].
  split.
  { split.
    - change 1 with (inject_Z 1). rewrite <- Zle_Qle. lia.
    - change 707 with (inject_Z 707). rewrite <- Zle_Qle. exact Uw. }
  split.
  { split.
    - change 1 with (inject_Z 1). rewrite <- Zle_Qle. lia.
    - change 252 with (inject_Z 252). rewrite <- Zle_Qle. exact Uh. }
  split.
  - intros W. rewrite (Wide W). reflexivity.
  - intros T. destruct (Tall T) as [-> | ->]; [left | right]; reflexivity.
Qed.

Lemma pageRaster_within_canvas_witness :
  Binary64.pageRaster (plainPage 400 550) 1
  = Some (mkImage (FromPage 1) 183 251) /\
  1 <= 183 <= 707 /\ 1 <= 251 <= 252 /\
  (251 == 251 \/ 251 == 252).
Proof.
  assert (R : Binary64.pageRaster (plainPage 400 550) 1
              = Some (mkImage (FromPage 1) 183 251))
    by (vm_compute; reflexivity).
  split; [exact R |].
  destruct (pageRaster_within_canvas (plainPage 400 550) 1
              (mkImage (FromPage 1) 183 251))
    as (_ & W & H & _ & T);
    [split; discriminate | split; discriminate | reflexivity | reflexivity
    | exact R |].
  split; [exact W |]. split; [exact H |].
  apply T. discriminate.
Defined.


(** The viewport of a thumbnail as computed: 200 wide and 200 h / w high,
    within the tolerance. *)
Lemma thumbnailViewport_computed (page : Page) :
  0 < page_width page -> 0 < page_height page ->
  Binary64.isNumber (page_width page) ->
  near 200 (vp_width (Binary64.thumbnailViewport page)) /\
  near (200 * page_height page / page_width page)
       (vp_height (Binary64.thumbnailViewport page)).
Proof.
  intros Hw Hh Nw.
  unfold Binary64.thumbnailViewport, Binary64.getViewport.
  cbn [vp_width vp_height].
  pose proof (mul_one _ (Qlt_le_weak _ _ Hw) Nw) as E1.
  assert (P1 : 0 < Binary64.mul (page_width page) 1) by (rewrite E1; exact Hw).
  assert (RS : rel (1 - Binary64.unitRoundoff) (1 + Binary64.unitRoundoff)
                 (200 / page_width page)
                 (Binary64.div 200 (Binary64.mul (page_width page) 1))).
  { refine (rel_eq _ _ _ _ _ _ _ (Qeq_refl _) (div_rel 200 _ ltac:(closedQ) P1)).
    rewrite E1. reflexivity. }
  set (scale := Binary64.div 200 (Binary64.mul (page_width page) 1)) in *.
  assert (PS : 0 <= 200 / page_width page).
  { apply Qle_shift_div_l; lra. }
  split.
  - pose proof (fun H1 H2 => rel_mul _ _ _ _ _ _ _ _ H1 H2
                  (Qlt_le_weak _ _ Hw) PS (rel_refl (page_width page)) RS) as RW.
    specialize (RW ltac:(closedQ) ltac:(closedQ)).
    pose proof (fun H => rel_round _ _ _ _ H
                  (Qmult_le_0_compat _ _ (Qlt_le_weak _ _ Hw) PS) RW) as RR.
    specialize (RR ltac:(closedQ)).
    assert (E : page_width page * (200 / page_width page) == 200)
      by (field; lra).
    apply (rel_eq _ _ _ _ _ _ E (Qeq_refl _)) in RR.
    near_from RR (Qlt_le_weak 0 200 eq_refl).
  - pose proof (fun H1 H2 => rel_mul _ _ _ _ _ _ _ _ H1 H2
                  (Qlt_le_weak _ _ Hh) PS (rel_refl (page_height page)) RS) as RW.
    specialize (RW ltac:(closedQ) ltac:(closedQ)).
    pose proof (fun H => rel_round _ _ _ _ H
                  (Qmult_le_0_compat _ _ (Qlt_le_weak _ _ Hh) PS) RW) as RR.
    specialize (RR ltac:(closedQ)).
    assert (E : page_height page * (200 / page_width page)
                == 200 * page_height page / page_width page)
      by (field; lra).
    apply (rel_eq _ _ _ _ _ _ E (Qeq_refl _)) in RR.
    assert (P : 0 <= 200 * page_height page / page_width page).
    { apply Qle_shift_div_l; lra. }
    near_from RR P.
Qed.

(** X5. As binary64 computes it, a rendered thumbnail is 199 or 200 pixels
    wide and as high as the page proportions give (200 h / w), to within a
    pixel; only the width is bounded. *)
Theorem thumbnail_size (page : Page) :
  1 <= page_width page <= 4294967296 ->
  1 <= page_height page <= 4294967296 ->
  Binary64.isNumber (page_width page) ->
  (fst (Binary64.thumbnailSize page) = 199%Z \/
   fst (Binary64.thumbnailSize page) = 200%Z) /\
  near (200 * page_height page / page_width page)
       (vp_height (Binary64.thumbnailViewport page)) /\
  snd (Binary64.thumbnailSize page)
  = Qfloor (vp_height (Binary64.thumbnailViewport page)) /\
  (Qfloor (200 * page_height page / page_width page) - 1
   <= snd (Binary64.thumbnailSize page)
   <= Qfloor (200 * page_height page / page_width page) + 1)%Z.
Proof.
  intros [Hw1 Hw2] [Hh1 Hh2] Nw.
  assert (Hw : 0 < page_width page) by lra.
  assert (Hh : 0 < page_height page) by lra.
  destruct (thumbnailViewport_computed page Hw Hh Nw) as [[Lw Uw] [Lh Uh]].
  unfold Binary64.thumbnailSize, toPixels. cbn [fst snd].
  set (vw := vp_width (Binary64.thumbnailViewport page)) in *.
  set (vh := vp_height (Binary64.thumbnailViewport page)) in *.
  set (t := 200 * page_height page / page_width page) in *.
  unfold tolerance in *.
  split; [| split; [split; assumption | split; [reflexivity |]]].
  - assert (G : (199 <= Qfloor vw)%Z).
    { rewrite <- (Qfloor_Z 199). apply Qfloor_resp_le.
      change (inject_Z 199) with 199. lra. }
    assert (L : (Qfloor vw <= 200)%Z).
    { apply Qfloor_below. change (inject_Z (200 + 1)) with 201. lra. }
    lia.
  - assert (T0 : 0 <= t).
    { unfold t. apply Qle_shift_div_l; lra. }
    assert (T1 : t <= 858993459200).
    { unfold t. apply Qle_shift_div_r; lra. }
    pose proof (Qfloor_le t) as F1. pose proof (Qlt_floor t) as F2.
    rewrite inject_Z_plus in F2. change (inject_Z 1) with 1 in F2.
    split.
    + assert (G : (Qfloor t - 1 <= Qfloor vh)%Z); [| exact G].
      rewrite <- (Qfloor_Z (Qfloor t - 1)). apply Qfloor_resp_le.
      unfold Z.sub. rewrite inject_Z_plus. change (inject_Z (- (1))) with (- (1)).
      lra.
    + apply Qfloor_below. rewrite !inject_Z_plus. change (inject_Z 1) with 1.
      lra.
Qed.

Lemma thumbnail_size_witness :
  Binary64.thumbnailSize (plainPage 610 100) = (199%Z, 32%Z) /\
  (fst (Binary64.thumbnailSize (plainPage 610 100)) = 199%Z \/
   fst (Binary64.thumbnailSize (plainPage 610 100)) = 200%Z).
Proof.
  split; [vm_compute; reflexivity |].
  apply (thumbnail_size (plainPage 610 100)).
  - split; discriminate.
  - split; discriminate.
  - reflexivity.
Defined.

(** ** Acceptance by extension *)

(** X6. A file named [base.ext], with [ext] one of the five accepted
    extensions in any letter case and [base] any text at all, is accepted;
    the extension seen is [ext] lower-cased, the name kept for export is
    exactly [base], and an export after it is named [base_logo.png]. *)
Theorem base_dot_extension (file : File) (s : State) (base ext : string) :
  name file = (base ++ String JsString.dot ext)%string ->
  JsString.includes_elem validExtensions (JsString.toLowerCase ext) = true ->
  extensionOf (name file) = Some (JsString.toLowerCase ext) /\
  handleFile file s <> [alert UnsupportedFormat s] /\
  currentFileName (accepted file s) = base /\
  (hasImage (handle (Upload file) s) = true ->
   fst (downloadImage (handle (Upload file) s))
   = Some (mkDownload (base ++ "_logo.png")
             (previewCanvas (handle (Upload file) s)))).
Proof.
  intros Hname Hv.
  pose proof (valid_extension_chars _ Hv) as Hc.
  apply andb_prop in Hc as [Hne Hall].
  pose proof (splitLastDot_append base ext (allChars_no_dot _ Hall)) as Hs.
  rewrite <- Hname in Hs.
  assert (E : extensionOf (name file) = Some (JsString.toLowerCase ext)).
  { unfold extensionOf. rewrite pop_split, Hs. reflexivity. }
  assert (R : JsString.replaceExt (name file) = base).
  { rewrite replaceExt_lastDot, Hs, Hne, Hall. reflexivity. }
  split; [exact E|]. split.
  { unfold handleFile. rewrite E, Hv. cbn [negb].
    destruct (_ || _).
    - unfold processPDFFile. cbv zeta.
      destruct (asDocument file) as [e|e|pdf]; try discriminate.
      destruct (1 <? numPages pdf)%Z.
      + destruct (showArtboardSelector _ _ _). discriminate.
      + destruct (renderPDFPage _ _ _). discriminate.
    - unfold processImageFile.
      destruct (readAsDataURL file) as [[|w h]|]; discriminate. }
  split; [exact R|].
  intro H.
  destruct (upload_name file s _ E Hv) as [F|N]; [congruence|].
  unfold downloadImage. rewrite H, N. unfold originalBaseName. rewrite Hs.
  reflexivity.
Qed.

Lemma base_dot_extension_witness :
  name (mkFile ".PNG" (Some (Decodes 400 100)) noDocument)
  = ("" ++ String JsString.dot "PNG")%string /\
  JsString.includes_elem validExtensions (JsString.toLowerCase "PNG") = true /\
  extensionOf ".PNG" = Some "png" /\
  fst (downloadImage
         (handle (Upload (mkFile ".PNG" (Some (Decodes 400 100)) noDocument))
            initial))
  = Some (mkDownload "_logo.png"
            (previewCanvas
               (handle
                  (Upload (mkFile ".PNG" (Some (Decodes 400 100)) noDocument))
                  initial))).
Proof.
  split; [reflexivity|]. split; [reflexivity|].
  destruct (base_dot_extension
              (mkFile ".PNG" (Some (Decodes 400 100)) noDocument) initial
              "" "PNG" eq_refl eq_refl) as (E & _ & _ & D).
  split; [exact E | exact (D eq_refl)].
Defined.

Lemma lowerChar_dot (c : ascii) :
  Ascii.eqb (JsString.lowerChar c) JsString.dot = Ascii.eqb c JsString.dot.
Proof.
  destruct c as [[] [] [] [] [] [] [] []]; vm_compute; reflexivity.
Qed.

Lemma lowerChar_idempotent (c : ascii) :
  JsString.lowerChar (JsString.lowerChar c) = JsString.lowerChar c.
Proof.
  destruct c as [[] [] [] [] [] [] [] []]; vm_compute; reflexivity.
Qed.

Lemma toLowerCase_idempotent (s : string) :
  JsString.toLowerCase (JsString.toLowerCase s) = JsString.toLowerCase s.
Proof.
  induction s as [|c r IH]; [reflexivity|].
  cbn [JsString.toLowerCase]. rewrite lowerChar_idempotent, IH. reflexivity.
Qed.

Lemma splitLastDot_toLowerCase (s : string) :
  splitLastDot (JsString.toLowerCase s)
  = match splitLastDot s with
    | Some (b, e) => Some (JsString.toLowerCase b, JsString.toLowerCase e)
    | None => None
    end.
Proof.
  induction s as [|c r IH]; [reflexivity|].
  cbn [JsString.toLowerCase splitLastDot]. rewrite IH, lowerChar_dot.
  destruct (splitLastDot r) as [[b e]|]; [reflexivity|].
  destruct (Ascii.eqb c JsString.dot); reflexivity.
Qed.

(** [handleFile] stops at the alert exactly for the names whose extension
    is not in the list. *)
Lemma handleFile_rejects_iff (f : File) (s : State) :
  handleFile f s = [alert UnsupportedFormat s]
  <-> exists ext, extensionOf (name f) = Some ext /\
        JsString.includes_elem validExtensions ext = false.
Proof.
  unfold handleFile.
  destruct (extensionOf (name f)) as [ext|] eqn:Ex.
  - destruct (JsString.includes_elem validExtensions ext) eqn:V;
      cbn [negb].
    + split; [|intros (x & Hx & Hv); congruence].
      intro H. exfalso. revert H. destruct (_ || _).
      * unfold processPDFFile. cbv zeta.
        destruct (asDocument f) as [e|e|pdf]; try discriminate.
        destruct (1 <? numPages pdf)%Z.
        -- destruct (showArtboardSelector _ _ _). discriminate.
        -- destruct (renderPDFPage _ _ _). discriminate.
      * unfold processImageFile.
        destruct (readAsDataURL f) as [[|w h]|]; discriminate.
    + split; [intros _; exists ext; auto | reflexivity].
  - split; [|intros (x & Hx & _); discriminate Hx].
    intro H. exfalso. injection H as H.
    apply (f_equal alerts) in H. cbn in H.
    apply (f_equal (@length Alert)) in H. cbn in H. lia.
Qed.

(** X7. Acceptance does not depend on letter case: a file name and its
    lower-cased form have the same extension, so one is rejected exactly
    when the other is. *)
Theorem extension_ignores_case (file file' : File) (s : State) :
  name file' = JsString.toLowerCase (name file) ->
  extensionOf (name file') = extensionOf (name file) /\
  (handleFile file' s = [alert UnsupportedFormat s]
   <-> handleFile file s = [alert UnsupportedFormat s]).
Proof.
  intro Hn.
  assert (E : extensionOf (name file') = extensionOf (name file)).
  { rewrite Hn. unfold extensionOf. rewrite !pop_split.
    rewrite splitLastDot_toLowerCase.
    destruct (splitLastDot (name file)) as [[b e]|]; cbn [option_map];
      rewrite toLowerCase_idempotent; reflexivity. }
  split; [exact E|].
  rewrite !handleFile_rejects_iff, E. reflexivity.
Qed.

Lemma extension_ignores_case_witness :
  name (mkFile "logo.png" (Some (Decodes 400 100)) noDocument)
  = JsString.toLowerCase
      (name (mkFile "LOGO.PnG" (Some (Decodes 400 100)) noDocument)) /\
  extensionOf "logo.png" = extensionOf "LOGO.PnG".
Proof.
  split; [reflexivity|].
  exact (proj1 (extension_ignores_case
                  (mkFile "LOGO.PnG" (Some (Decodes 400 100)) noDocument)
                  (mkFile "logo.png" (Some (Decodes 400 100)) noDocument)
                  initial eq_refl)).
Defined.

(** X8. A file is turned away when the lower-cased text after the last
    dot of its name (the whole name if it has no dot) is none of the five
    extensions; then nothing but the alert happens: canvas, flag, file
    name, document, selector and loading state are as before, in both
    versions of the script. *)
Theorem unsupported_file_is_ignored (file : File) (s : State) :
  JsString.includes_elem validExtensions
    (JsString.toLowerCase
       (match splitLastDot (name file) with
        | Some (_, e) => e
        | None => name file
        end)) = false ->
  handleFile file s = [alert UnsupportedFormat s] /\
  FirstPageOnly.handleFile file s = [alert UnsupportedFormat s] /\
  handle (Upload file) s = alert UnsupportedFormat s /\
  sameUpload s (handle (Upload file) s) /\
  artboardGrid (handle (Upload file) s) = artboardGrid s /\
  artboardSection_visible (handle (Upload file) s)
    = artboardSection_visible s /\
  uploadArea_loading (handle (Upload file) s) = uploadArea_loading s.
Proof.
  intro H.
  assert (E : extensionOf (name file)
              = Some (JsString.toLowerCase
                        (match splitLastDot (name file) with
                         | Some (_, e) => e
                         | None => name file
                         end))).
  { unfold extensionOf. rewrite pop_split. reflexivity. }
  assert (R : handleFile file s = [alert UnsupportedFormat s]).
  { apply handleFile_rejects_iff. eexists. split; [exact E | exact H]. }
  split; [exact R|]. split.
  { unfold FirstPageOnly.handleFile. rewrite E, H. reflexivity. }
  unfold handle. rewrite R. repeat split.
Qed.

Lemma unsupported_file_is_ignored_witness :
  JsString.includes_elem validExtensions
    (JsString.toLowerCase
       (match splitLastDot (name (mkFile "notes.txt" None noDocument)) with
        | Some (_, e) => e
        | None => name (mkFile "notes.txt" None noDocument)
        end)) = false /\
  handle (Upload (mkFile "notes.txt" None noDocument)) loadedThree
  = alert UnsupportedFormat loadedThree.
Proof.
  split; [reflexivity|].
  destruct (unsupported_file_is_ignored (mkFile "notes.txt" None noDocument)
              loadedThree eq_refl) as (_ & _ & H & _).
  exact H.
Defined.

(** ** The loading state *)

(** X10. Whatever an accepted upload runs into, the loading state of the
    upload area is removed by the time it has settled. *)
Theorem loading_is_removed (file : File) (s : State) (ext : string) :
  extensionOf (name file) = Some ext ->
  JsString.includes_elem validExtensions ext = true ->
  uploadArea_loading (handle (Upload file) s) = false.
Proof.
  intros E V. unfold handle, handleFile. rewrite E, V. cbn [negb].
  destruct (_ || _).
  - unfold processPDFFile. cbv zeta.
    destruct (asDocument file) as [e|e|pdf]; [reflexivity ..|].
    destruct (1 <? numPages pdf)%Z.
    + rewrite showArtboardSelector_spec. reflexivity.
    + match goal with |- context [renderPDFPage ?p ?n ?st] =>
        destruct (renderPDFPage_cases p n st) as [(page & _ & _ & R)|R];
        rewrite R end.
      * destruct (pageRaster page 1); reflexivity.
      * reflexivity.
  - unfold processImageFile.
    destruct (readAsDataURL file) as [[|w h]|]; reflexivity.
Qed.

Lemma loading_is_removed_witness :
  extensionOf (name unreadable_jpg) = Some "jpg" /\
  JsString.includes_elem validExtensions "jpg" = true /\
  uploadArea_loading (handle (Upload unreadable_jpg) initial) = false.
Proof.
  split; [reflexivity|]. split; [reflexivity|].
  exact (loading_is_removed unreadable_jpg initial "jpg" eq_refl eq_refl).
Defined.


(** ** What every action keeps *)

Lemma markSelected_frame (element : nat) (k : Z) (s : State) :
  currentPDF (markSelected element k s) = currentPDF s /\
  artboardSection_visible (markSelected element k s)
    = artboardSection_visible s /\
  artboardCount_text (markSelected element k s) = artboardCount_text s /\
  saveBtn_disabled (markSelected element k s) = saveBtn_disabled s /\
  hasImage (markSelected element k s) = hasImage s /\
  (dataset_page <$> artboardGrid (markSelected element k s))
    = (dataset_page <$> artboardGrid s).
Proof.
  repeat (split; [reflexivity|]).
  change (artboardGrid (markSelected element k s))
    with (alter (set_selected true) element
            (unselectPrevious (artboardGrid s))).
  rewrite alter_selected_pages. apply unselectPrevious_pages.
Qed.

Lemma pages_nil (grid grid' : list ArtboardItem) :
  (dataset_page <$> grid') = (dataset_page <$> grid) ->
  grid = [] -> grid' = [].
Proof.
  intros H ->. destruct grid'; [reflexivity | discriminate H].
Qed.

(** The settled state of a pick: the marker moved, then a composite, an
    alert, or nothing more. *)
Lemma pick_shape (element : nat) (k : Z) (s : State) :
  handle (Pick element k) s = markSelected element k s \/
  handle (Pick element k) s = alert PageRenderFailed (markSelected element k s)
  \/ exists img,
       handle (Pick element k) s
       = drawImageToCanvas img (markSelected element k s).
Proof.
  unfold handle, selectArtboard. cbv zeta.
  destruct (currentPDF (markSelected element k s)) as [pdf|];
    [|left; reflexivity].
  destruct (renderPDFPage_cases pdf k (markSelected element k s))
    as [(page & _ & _ & R)|R]; rewrite R.
  - destruct (pageRaster page k) as [img|].
    + right; right. exists img. reflexivity.
    + left. reflexivity.
  - right; left. reflexivity.
Qed.

Lemma selectorMatches_intro (s : State) (doc : option PDFDocumentProxy)
  (grid : list ArtboardItem) (visible : bool) (count : option Z) :
  currentPDF s = doc -> artboardGrid s = grid ->
  artboardSection_visible s = visible -> artboardCount_text s = count ->
  match doc with
  | None => grid = [] /\ visible = false
  | Some pdf =>
      if (1 <? numPages pdf)%Z
      then gridOf (numPages pdf) grid /\ visible = true /\
           count = Some (numPages pdf)
      else grid = [] /\ visible = false
  end ->
  selectorMatches s.
Proof.
  intros <- <- <- <- H. exact H.
Qed.

Lemma selectorMatches_same (s s' : State) :
  currentPDF s' = currentPDF s -> artboardGrid s' = artboardGrid s ->
  artboardSection_visible s' = artboardSection_visible s ->
  artboardCount_text s' = artboardCount_text s ->
  selectorMatches s -> selectorMatches s'.
Proof.
  unfold selectorMatches. intros -> -> -> -> H. exact H.
Qed.

Lemma handle_selectorMatches (e : Event) (s : State) :
  selectorMatches s -> selectorMatches (handle e s).
Proof.
  intro H.
  assert (Reset : forall st, selectorMatches (clearCanvas st)).
  { intro st. apply (selectorMatches_intro _ None [] false
                       (artboardCount_text st)); try reflexivity.
    split; reflexivity. }
  destruct e as [file | element k | | ].
  - unfold handle, handleFile.
    destruct (extensionOf (name file)) as [ext|]; [|exact H].
    destruct (negb _).
    { apply (selectorMatches_same s); try reflexivity. exact H. }
    destruct (_ || _).
    + unfold processPDFFile. cbv zeta.
      destruct (asDocument file) as [err|err|pdf]; [apply Reset ..|].
      destruct (1 <? numPages pdf)%Z eqn:N.
      * rewrite showArtboardSelector_spec.
        apply (selectorMatches_intro _ (Some pdf)
                 (freshItem <$> seqZ 1 (numPages pdf)) true
                 (Some (numPages pdf))); try reflexivity.
        rewrite N.
        split; [exact (proj1 (fresh_grid _)) | split; reflexivity].
      * match goal with |- context [renderPDFPage ?p ?n ?st] =>
          destruct (renderPDFPage_cases p n st) as [(page & _ & _ & R)|R];
          rewrite R end.
        -- destruct (pageRaster page 1);
             (apply (selectorMatches_intro _ (Some pdf) [] false
                       (artboardCount_text s)); try reflexivity;
              rewrite N; split; reflexivity).
        -- apply (selectorMatches_intro _ (Some pdf) [] false
                    (artboardCount_text s)); try reflexivity.
           rewrite N. split; reflexivity.
    + unfold processImageFile.
      destruct (readAsDataURL file) as [[|w h]|];
        [apply Reset | |];
        (apply (selectorMatches_intro _ None [] false
                  (artboardCount_text s)); try reflexivity;
         split; reflexivity).
  - destruct (markSelected_frame element k s) as (F1 & F2 & F3 & _ & _ & F4).
    assert (M : selectorMatches (markSelected element k s)).
    { unfold selectorMatches in *. rewrite F1, F2, F3.
      destruct (currentPDF s) as [pdf|].
      - destruct (1 <? numPages pdf)%Z.
        + destruct H as (G & V & C). unfold gridOf in *. rewrite F4. auto.
        + destruct H as (G & V). split; [exact (pages_nil _ _ F4 G) | exact V].
      - destruct H as (G & V). split; [exact (pages_nil _ _ F4 G) | exact V]. }
    destruct (pick_shape element k s) as [->|[->|[img ->]]];
      [exact M | |];
      (apply (selectorMatches_same (markSelected element k s));
       try reflexivity; exact M).
  - apply Reset.
  - unfold handle, downloadImage.
    destruct (hasImage s);
      (apply (selectorMatches_same s); try reflexivity; exact H).
Qed.

Lemma reachable_selectorMatches (s : State) :
  reachable s -> selectorMatches s.
Proof.
  induction 1 as [|e s _ IH]; [split; reflexivity|].
  exact (handle_selectorMatches e s IH).
Qed.

(** X14. No action separates the save button from the flag: if the button
    is enabled exactly while [hasImage] is set, it still is afterwards. *)
Theorem save_button_follows_flag (e : Event) (s : State) :
  saveFollowsFlag s -> saveFollowsFlag (handle e s).
Proof.
  unfold saveFollowsFlag. intro H. destruct e as [file | element k | | ].
  - unfold handle, handleFile.
    destruct (extensionOf (name file)) as [ext|]; [|exact H].
    destruct (negb (JsString.includes_elem _ _)); [exact H|].
    destruct (_ || _).
    + unfold processPDFFile. cbv zeta.
      destruct (asDocument file) as [err|err|pdf]; [reflexivity ..|].
      destruct (1 <? numPages pdf)%Z.
      * rewrite showArtboardSelector_spec. exact H.
      * match goal with |- context [renderPDFPage ?p ?n ?st] =>
          destruct (renderPDFPage_cases p n st) as [(page & _ & _ & R)|R];
          rewrite R end.
        -- destruct (pageRaster page 1); [reflexivity | exact H].
        -- exact H.
    + unfold processImageFile.
      destruct (readAsDataURL file) as [[|w h]|];
        [reflexivity | reflexivity | exact H].
  - destruct (pick_shape element k s) as [->|[->|[img ->]]];
      [exact H | exact H | reflexivity].
  - reflexivity.
  - unfold handle, downloadImage. destruct (hasImage s) eqn:E; cbn;
      rewrite ?E; exact H.
Qed.

Lemma save_button_follows_flag_witness :
  saveFollowsFlag initial /\
  saveFollowsFlag (handle (Upload logo_png) initial).
Proof.
  split; [reflexivity|].
  exact (save_button_follows_flag (Upload logo_png) initial eq_refl).
Defined.

(** ** Picks and thumbnails together *)

Lemma unselectPrevious_alter (f : ArtboardItem -> ArtboardItem) (c : nat)
  (grid : list ArtboardItem) :
  (forall it, selected (f it) = selected it) ->
  (forall it, f (set_selected false it) = set_selected false (f it)) ->
  unselectPrevious (alter f c grid) = alter f c (unselectPrevious grid).
Proof.
  intros Hs Hc. revert c. induction grid as [|it grid IH]; intro c.
  - reflexivity.
  - destruct c as [|c].
    + change (alter f 0%nat (it :: grid)) with (f it :: grid).
      rewrite !unselectPrevious_cons, Hs.
      destruct (selected it); [rewrite <- Hc|]; reflexivity.
    + change (alter f (S c) (it :: grid)) with (it :: alter f c grid).
      rewrite !unselectPrevious_cons.
      destruct (selected it); [reflexivity|].
      rewrite IH. reflexivity.
Qed.

Lemma alter_commuting {A : Type} (f g : A -> A) (i j : nat) (l : list A) :
  (forall x, f (g x) = g (f x)) ->
  alter f i (alter g j l) = alter g j (alter f i l).
Proof.
  intro H. revert i j. induction l as [|x l IH]; intros i j; [reflexivity|].
  destruct i as [|i], j as [|j]; cbn; f_equal; auto.
Qed.

Lemma markSelected_generateThumbnail (pdf : PDFDocumentProxy) (i : Z)
  (c element : nat) (k : Z) (s : State) :
  markSelected element k (generateThumbnail pdf i c s)
  = generateThumbnail pdf i c (markSelected element k s).
Proof.
  unfold markSelected, generateThumbnail. cbv zeta.
  change (artboardGrid (set_artboardGrid ?g _)) with g.
  cbn [artboardGrid set_artboardGrid set_selectedArtboard].
  rewrite (unselectPrevious_alter _ c (artboardGrid s));
    [|reflexivity | reflexivity].
  rewrite (alter_commuting (set_selected true) _ element c);
    [reflexivity | reflexivity].
Qed.

Lemma renderPDFPage_generateThumbnail (pdf doc : PDFDocumentProxy) (i : Z)
  (c : nat) (k : Z) (s : State) :
  renderPDFPage doc k (generateThumbnail pdf i c s)
  = (generateThumbnail pdf i c (fst (renderPDFPage doc k s)),
     snd (renderPDFPage doc k s)).
Proof.
  unfold renderPDFPage. destruct (getPage doc k) as [page|]; [|reflexivity].
  destruct (render page (pageScale page)); reflexivity.
Qed.

(** X15. A pick and the completion of a thumbnail task do not interfere:
    whichever comes first, the resulting state is the same. *)
Theorem pick_commutes_with_thumbnail (pdf : PDFDocumentProxy) (i : Z)
  (c element : nat) (k : Z) (s : State) :
  handle (Pick element k) (generateThumbnail pdf i c s)
  = generateThumbnail pdf i c (handle (Pick element k) s).
Proof.
  unfold handle, selectArtboard. cbv zeta.
  rewrite markSelected_generateThumbnail.
  change (currentPDF (generateThumbnail pdf i c (markSelected element k s)))
    with (currentPDF (markSelected element k s)).
  destruct (currentPDF (markSelected element k s)) as [doc|]; [|reflexivity].
  rewrite renderPDFPage_generateThumbnail.
  destruct (renderPDFPage doc k (markSelected element k s)) as [s' pending].
  cbn [fst snd]. destruct pending as [img|]; reflexivity.
Qed.

(** ** The two versions of the script *)



Lemma FirstPageOnly_handleFile_document (file : File) (s : State)
  (ext : string) :
  extensionOf (name file) = Some ext ->
  In ext ["pdf"; "ai"] ->
  FirstPageOnly.handleFile file s
  = FirstPageOnly.processPDFFile file
      (set_uploadArea_loading true
         (set_fileInfo_visible true
            (set_fileName_text (name file)
               (set_currentFileName (JsString.replaceExt (name file)) s)))).
Proof.
  intros E H. unfold FirstPageOnly.handleFile. rewrite E.
  simpl in H. repeat (destruct H as [<-|H]; [reflexivity|]). destruct H.
Qed.





(** X18. In the earlier version every failure on the way to the first
    page resets: the document cannot be read or parsed, it has no page 1,
    or page 1 does not render; the canvas is blank, the file name and the
    flag are cleared, the loading state is removed and one alert is shown. *)
Theorem first_page_failure_resets (file : File) (s : State) (ext : string) :
  extensionOf (name file) = Some ext ->
  In ext ["pdf"; "ai"] ->
  documentRejected file \/
  (exists pdf, asDocument file = Parses pdf /\
     (getPage pdf 1 = None \/
      exists page error,
        getPage pdf 1 = Some page /\
        render page (pageScale page) = Some error)) ->
  previewCanvas (settled (FirstPageOnly.handleFile file s) s) = White /\
  currentFileName (settled (FirstPageOnly.handleFile file s) s) = "" /\
  hasImage (settled (FirstPageOnly.handleFile file s) s) = false /\
  saveBtn_disabled (settled (FirstPageOnly.handleFile file s) s) = true /\
  uploadArea_loading (settled (FirstPageOnly.handleFile file s) s) = false /\
  exists a,
    alerts (settled (FirstPageOnly.handleFile file s) s) = a :: alerts s.
Proof.
  intros E Hd H.
  rewrite (FirstPageOnly_handleFile_document file s ext E Hd).
  unfold FirstPageOnly.processPDFFile. cbv zeta.
  destruct H as [(error & [R|R])
                | (pdf & D & [N | (page & error & P & R)])].
  - rewrite R. repeat (split; [reflexivity|]). eexists. reflexivity.
  - rewrite R. repeat (split; [reflexivity|]). eexists. reflexivity.
  - rewrite D, N. repeat (split; [reflexivity|]). eexists. reflexivity.
  - rewrite D, P, R. repeat (split; [reflexivity|]). eexists. reflexivity.
Qed.

Lemma first_page_failure_resets_witness :
  extensionOf "f.pdf" = Some "pdf" /\
  getPage (mkPDF [failingPage 300 400]) 1 = Some (failingPage 300 400) /\
  previewCanvas
    (settled
       (FirstPageOnly.handleFile
          (mkFile "f.pdf" None (Parses (mkPDF [failingPage 300 400])))
          (handle (Upload logo_png) initial))
       (handle (Upload logo_png) initial)) = White.
Proof.
  split; [reflexivity|]. split; [reflexivity|].
  exact (proj1 (first_page_failure_resets
                  (mkFile "f.pdf" None (Parses (mkPDF [failingPage 300 400])))
                  (handle (Upload logo_png) initial) "pdf" eq_refl
                  ltac:(left; reflexivity)
                  (or_intror (ex_intro _ (mkPDF [failingPage 300 400])
                     (conj eq_refl (or_intror
                        (ex_intro _ (failingPage 300 400)
                           (ex_intro _ (mkError (Some "render failed"))
                              (conj eq_refl eq_refl))))))))).
Defined.

(** ** Uploads that fail and reset *)

(** X19. A raster whose bytes do not decode and a document that cannot be
    read or parsed end alike: one alert, a blank canvas, the upload state
    reset, the save button disabled and export turned away. *)
Theorem failed_upload_resets (file : File) (s : State) (ext : string) :
  extensionOf (name file) = Some ext ->
  (In ext ["jpg"; "jpeg"; "png"] /\ readAsDataURL file = Some DecodeFails) \/
  (In ext ["pdf"; "ai"] /\ documentRejected file) ->
  isReset (handle (Upload file) s) /\
  (exists a, alerts (handle (Upload file) s) = a :: alerts s) /\
  saveBtn_disabled (handle (Upload file) s) = true /\
  fileInfo_visible (handle (Upload file) s) = false /\
  fst (downloadImage (handle (Upload file) s)) = None.
Proof.
  intros E [[Hr D]|[Hd (error & R)]]; unfold handle.
  - rewrite (handleFile_raster file s ext E Hr).
    unfold processImageFile. rewrite D.
    split; [apply clearCanvas_isReset|].
    split; [eexists; reflexivity|]. repeat split.
  - rewrite (handleFile_document file s ext E Hd).
    unfold processPDFFile. cbv zeta.
    destruct R as [R|R]; rewrite R;
      (split; [apply clearCanvas_isReset|];
       split; [eexists; reflexivity|]; repeat split).
Qed.

Lemma failed_upload_resets_witness :
  extensionOf (name brochure_ai) = Some "ai" /\
  In "ai" ["pdf"; "ai"] /\ documentRejected brochure_ai /\
  isReset (handle (Upload brochure_ai) (handle (Upload logo_png) initial)).
Proof.
  assert (I : In "ai" ["pdf"; "ai"]) by (right; left; reflexivity).
  assert (D : documentRejected brochure_ai).
  { eexists. right. reflexivity. }
  split; [reflexivity|]. split; [exact I|]. split; [exact D|].
  exact (proj1 (failed_upload_resets brochure_ai
                  (handle (Upload logo_png) initial) "ai" eq_refl
                  (or_intror (conj I D)))).
Defined.

(** ** One pick after another *)



(** ** Actions that overlap *)

Lemma selectorInvariant_same (s s' : State) :
  artboardGrid s' = artboardGrid s ->
  selectedArtboard s' = selectedArtboard s ->
  artboardSection_visible s' = artboardSection_visible s ->
  selectorInvariant s -> selectorInvariant s'.
Proof.
  unfold selectorInvariant, markerFollowsSelection. intros -> -> -> H. exact H.
Qed.

Lemma selectorInvariant_hidden (s : State) :
  artboardGrid s = [] -> selectedArtboard s = None -> selectorInvariant s.
Proof.
  unfold selectorInvariant, markerFollowsSelection. intros -> ->.
  split; [reflexivity |]. split; [reflexivity |]. intros H. congruence.
Qed.

Lemma selectorInvariant_renderPDFPage (pdf : PDFDocumentProxy) (k : Z)
  (s : State) :
  selectorInvariant s -> selectorInvariant (fst (renderPDFPage pdf k s)).
Proof.
  intros H.
  destruct (renderPDFPage_cases pdf k s) as [(pg & _ & _ & R) | R]; rewrite R.
  - exact H.
  - apply (selectorInvariant_same s); try reflexivity. exact H.
Qed.

Lemma selectorInvariant_showArtboardSelector (pdf : PDFDocumentProxy) (n : Z)
  (s : State) :
  selectorInvariant (fst (showArtboardSelector pdf n s)).
Proof.
  rewrite showArtboardSelector_spec. cbn [fst].
  destruct (fresh_grid n) as (G & M & L).
  split; [exact M |]. split; [| reflexivity].
  unfold inPageOrder.
  change (artboardGrid (set_artboardSection_visible true
            (set_artboardGrid ?g _))) with g.
  rewrite L. unfold gridOf in *. rewrite G.
  destruct (Z.max_spec 0 n) as [[Hn ->] | [Hn ->]]; [reflexivity |].
  unfold seqZ. replace (Z.to_nat n) with 0%nat by lia. reflexivity.
Qed.

Lemma markedPages_alter (f : ArtboardItem -> ArtboardItem) (c : nat)
  (grid : list ArtboardItem) :
  (forall it, dataset_page (f it) = dataset_page it) ->
  (forall it, selected (f it) = selected it) ->
  markedPages (alter f c grid) = markedPages grid /\
  dataset_page <$> alter f c grid = dataset_page <$> grid.
Proof.
  intros Hp Hs. revert c.
  induction grid as [| x grid IH]; intros [| c]; try (split; reflexivity).
  - change (alter f 0%nat (x :: grid)) with (f x :: grid).
    rewrite !markedPages_cons, Hs, Hp, !fmap_cons, Hp. split; reflexivity.
  - change (alter f (S c) (x :: grid)) with (x :: alter f c grid).
    destruct (IH c) as [E1 E2].
    rewrite !markedPages_cons, E1, !fmap_cons, E2. split; reflexivity.
Qed.

Lemma inPageOrder_pages (grid grid' : list ArtboardItem) :
  dataset_page <$> grid' = dataset_page <$> grid ->
  inPageOrder grid -> inPageOrder grid'.
Proof.
  unfold inPageOrder, gridOf. intros E H.
  assert (L : length grid' = length grid).
  { rewrite <- (length_fmap dataset_page grid'), E. apply length_fmap. }
  rewrite E, L. exact H.
Qed.

Lemma selectorInvariant_generateThumbnail (pdf : PDFDocumentProxy) (i : Z)
  (c : nat) (s : State) :
  selectorInvariant s -> selectorInvariant (generateThumbnail pdf i c s).
Proof.
  intros (M & O & V).
  destruct (markedPages_alter
              (fun it => set_thumbnail (thumbnailOf pdf i (thumbnail it)) it)
              c (artboardGrid s)) as [E1 E2]; [reflexivity | reflexivity |].
  unfold selectorInvariant, markerFollowsSelection, generateThumbnail.
  cbn [artboardGrid selectedArtboard artboardSection_visible set_artboardGrid].
  split; [rewrite E1; exact M |]. split.
  - exact (inPageOrder_pages _ _ E2 O).
  - intros N. apply V. intros Z. apply N. rewrite Z. reflexivity.
Qed.

Lemma selectorInvariant_markSelected (i : nat) (it : ArtboardItem) (s : State) :
  artboardGrid s !! i = Some it ->
  selectorInvariant s ->
  selectorInvariant (markSelected i (dataset_page it) s).
Proof.
  intros Hi (M & O & V).
  assert (One : (length (markedPages (artboardGrid s)) <= 1)%nat).
  { unfold markerFollowsSelection in M. rewrite M.
    destruct (selectedArtboard s); simpl; lia. }
  pose proof (unselectPrevious_clears _ One) as Clear.
  pose proof (unselectPrevious_pages (artboardGrid s)) as Pages.
  assert (Hit : exists it', unselectPrevious (artboardGrid s) !! i = Some it' /\
                            dataset_page it' = dataset_page it).
  { assert (L : (dataset_page <$> unselectPrevious (artboardGrid s)) !! i
                = Some (dataset_page it)).
    { rewrite Pages, list_lookup_fmap, Hi. reflexivity. }
    rewrite list_lookup_fmap in L.
    destruct (unselectPrevious (artboardGrid s) !! i) as [it' |];
      [| discriminate L].
    injection L as L. exists it'. auto. }
  destruct Hit as (it' & Hit' & Ep).
  destruct (markSelected_frame i (dataset_page it) s) as (_ & F2 & _ & _ & _ & F4).
  split; [| split].
  - unfold markerFollowsSelection.
    change (artboardGrid (markSelected i (dataset_page it) s))
      with (alter (set_selected true) i (unselectPrevious (artboardGrid s))).
    rewrite (mark_one _ _ it' Clear Hit'), Ep. reflexivity.
  - exact (inPageOrder_pages _ _ F4 O).
  - intros _. rewrite F2. apply V. intros Z. rewrite Z in Hi. discriminate Hi.
Qed.

Lemma hideArtboardSection_selectorInvariant (s : State) :
  selectorInvariant (hideArtboardSection s).
Proof. apply selectorInvariant_hidden; reflexivity. Qed.

Lemma complete_selectorInvariant (p : Overlapped.Pending) (w : Overlapped.World) :
  selectorInvariant (Overlapped.page w) ->
  selectorInvariant (Overlapped.page (Overlapped.complete p w)).
Proof.
  intros H. destruct p as [file | file | | pdf k caller | img | pdf k born c];
    unfold Overlapped.complete; cbv zeta.
  - destruct (readAsDataURL file) as [[| nw nh] |]; cbn [Overlapped.page].
    + apply selectorInvariant_hidden; reflexivity.
    + apply (selectorInvariant_same (Overlapped.page w)); try reflexivity.
      exact H.
    + apply (selectorInvariant_same (Overlapped.page w)); try reflexivity.
      exact H.
  - destruct (asDocument file) as [e | e | pdf]; cbn [Overlapped.page].
    + apply selectorInvariant_hidden; reflexivity.
    + apply selectorInvariant_hidden; reflexivity.
    + destruct (1 <? numPages pdf)%Z.
      * pose proof (selectorInvariant_showArtboardSelector pdf (numPages pdf)
                      (set_currentPDF (Some pdf) (Overlapped.page w))) as S.
        destruct (showArtboardSelector pdf (numPages pdf) _) as [s2 tasks].
        exact S.
      * cbn [Overlapped.page].
        apply (selectorInvariant_same (Overlapped.page w)); try reflexivity.
        exact H.
  - cbn [Overlapped.page].
    apply (selectorInvariant_same (Overlapped.page w)); try reflexivity.
    exact H.
  - pose proof (selectorInvariant_renderPDFPage pdf k (Overlapped.page w) H) as S.
    destruct (renderPDFPage pdf k (Overlapped.page w)) as [s' pending].
    exact S.
  - cbn [Overlapped.page].
    apply (selectorInvariant_same (Overlapped.page w)); try reflexivity.
    exact H.
  - destruct (Nat.eqb born (Overlapped.generation w)); [| exact H].
    cbn [Overlapped.page]. apply selectorInvariant_generateThumbnail, H.
Qed.

Lemma act_selectorInvariant (a : Overlapped.Action) (w : Overlapped.World) :
  selectorInvariant (Overlapped.page w) ->
  selectorInvariant (Overlapped.page (Overlapped.act a w)).
Proof.
  intros H. destruct a as [file | i | | | n]; unfold Overlapped.act.
  - unfold Overlapped.upload.
    destruct (extensionOf (name file)) as [ext |]; [| exact H].
    destruct (negb (JsString.includes_elem _ _)).
    + cbn [Overlapped.page].
      apply (selectorInvariant_same (Overlapped.page w)); try reflexivity.
      exact H.
    + cbv zeta. destruct (_ || _); cbn [Overlapped.page];
        apply hideArtboardSection_selectorInvariant.
  - unfold Overlapped.click.
    destruct (artboardGrid (Overlapped.page w) !! i) as [it |] eqn:Hi;
      [| exact H].
    destruct (artboardSection_visible (Overlapped.page w)); [| exact H].
    cbv zeta.
    pose proof (selectorInvariant_markSelected i it _ Hi H) as S.
    destruct (currentPDF (markSelected i (dataset_page it) (Overlapped.page w)));
      exact S.
  - cbn [Overlapped.clear Overlapped.page].
    apply selectorInvariant_hidden; reflexivity.
  - cbn [Overlapped.save Overlapped.page]. unfold downloadImage.
    destruct (hasImage (Overlapped.page w)); cbn [snd].
    + exact H.
    + apply (selectorInvariant_same (Overlapped.page w)); try reflexivity.
      exact H.
  - destruct (Overlapped.inFlight w !! n) as [p |]; [| exact H].
    apply complete_selectorInvariant. exact H.
Qed.

Lemma reachable_selectorInvariant (w : Overlapped.World) :
  Overlapped.reachable w -> selectorInvariant (Overlapped.page w).
Proof.
  induction 1 as [| a w _ IH].
  - apply selectorInvariant_hidden; reflexivity.
  - exact (act_selectorInvariant a w IH).
Qed.

Lemma reachable_run (trace : list Overlapped.Action) (w : Overlapped.World) :
  Overlapped.reachable w -> Overlapped.reachable (Overlapped.run trace w).
Proof.
  revert w. induction trace as [| a trace IH]; intros w H; [exact H |].
  cbn [Overlapped.run fold_left]. apply IH. constructor. exact H.
Qed.

(** X12. However uploads, picks and completions overlap, the grid holds
    the items of consecutive pages in order, item [i] for page [i + 1],
    and a grid that has items is on display.  It need not be the grid of
    the loaded document: a one-page document uploaded while a three-page
    one is still being opened ends up loaded with the three items of the
    other on display.  When every action settles before the next one
    starts, the selector does show the loaded document. *)
Theorem selector_grid_is_in_page_order :
  (forall w : Overlapped.World,
     Overlapped.reachable w ->
     inPageOrder (artboardGrid (Overlapped.page w)) /\
     forall (i : nat) (it : ArtboardItem),
       artboardGrid (Overlapped.page w) !! i = Some it ->
       dataset_page it = (Z.of_nat i + 1)%Z /\
       artboardSection_visible (Overlapped.page w) = true) /\
  (Overlapped.reachable (Overlapped.run overlappingUploads Overlapped.start) /\
   currentPDF
     (Overlapped.page (Overlapped.run overlappingUploads Overlapped.start))
   = Some onePage /\
   dataset_page <$>
     artboardGrid
       (Overlapped.page (Overlapped.run overlappingUploads Overlapped.start))
   = [1; 2; 3]%Z /\
   artboardSection_visible
     (Overlapped.page (Overlapped.run overlappingUploads Overlapped.start))
   = true) /\
  (forall s : State,
     reachable s ->
     selectorMatches s /\
     forall (i : nat) (it : ArtboardItem),
       artboardGrid s !! i = Some it ->
       exists pdf page,
         currentPDF s = Some pdf /\ getPage pdf (dataset_page it) = Some page).
Proof.
  split; [| split].
  - intros w R. destruct (reachable_selectorInvariant w R) as (_ & O & V).
    split; [exact O |]. intros i it Hi. split.
    + unfold inPageOrder, gridOf in O.
      assert (L : (dataset_page <$> artboardGrid (Overlapped.page w)) !! i
                  = Some (dataset_page it))
        by (rewrite list_lookup_fmap, Hi; reflexivity).
      rewrite O in L. apply lookup_seqZ in L as [P _]. lia.
    + apply V. intros Z. rewrite Z in Hi. discriminate Hi.
  - split; [apply reachable_run; constructor |].
    repeat split; vm_compute; reflexivity.
  - intros s R. pose proof (reachable_selectorMatches s R) as M.
    split; [exact M |]. intros i it Hi. unfold selectorMatches in M.
    destruct (currentPDF s) as [pdf |].
    + destruct (1 <? numPages pdf)%Z.
      * destruct M as (G & V & _). unfold gridOf in G.
        assert (L : (dataset_page <$> artboardGrid s) !! i
                    = Some (dataset_page it))
          by (rewrite list_lookup_fmap, Hi; reflexivity).
        rewrite G in L. apply lookup_seqZ in L as [P B].
        destruct (getPage_in_range pdf (dataset_page it)) as [page Hp]; [lia |].
        exists pdf, page. auto.
      * destruct M as (G & _). rewrite G in Hi. discriminate Hi.
    + destruct M as (G & _). rewrite G in Hi. discriminate Hi.
Qed.

Lemma selector_grid_is_in_page_order_witness :
  Overlapped.reachable (Overlapped.run overlappingPicks Overlapped.start) /\
  inPageOrder
    (artboardGrid
       (Overlapped.page (Overlapped.run overlappingPicks Overlapped.start))) /\
  reachable (handle (Pick 0 5) loadedThree) /\
  selectorMatches (handle (Pick 0 5) loadedThree).
Proof.
  assert (R : Overlapped.reachable
                (Overlapped.run overlappingPicks Overlapped.start)).
  { apply reachable_run. constructor. }
  assert (R' : reachable (handle (Pick 0 5) loadedThree)).
  { apply reachable_handle. unfold loadedThree. apply reachable_handle.
    apply reachable_initial. }
  destruct selector_grid_is_in_page_order as (A & _ & C).
  split; [exact R |]. split; [exact (proj1 (A _ R)) |].
  split; [exact R' | exact (proj1 (C _ R'))].
Defined.

(** X13. However uploads, picks and completions overlap, at most one item
    of the grid carries the selection marker, and it is the item of the
    page [selectedArtboard] names.  The marked page need not be a page of
    the loaded document: in the overlap of X12, clicking the third item
    marks page 3 while the loaded document has one page.  When every
    action settles before the next one starts, a marked page is a page of
    the loaded document. *)
Theorem marker_is_unique :
  (forall w : Overlapped.World,
     Overlapped.reachable w ->
     (length (markedPages (artboardGrid (Overlapped.page w))) <= 1)%nat /\
     markerFollowsSelection (Overlapped.page w)) /\
  (Overlapped.reachable
     (Overlapped.run (overlappingUploads ++ [Overlapped.Click 2])
        Overlapped.start) /\
   markedPages
     (artboardGrid
        (Overlapped.page
           (Overlapped.run (overlappingUploads ++ [Overlapped.Click 2])
              Overlapped.start)))
   = [3%Z] /\
   currentPDF
     (Overlapped.page
        (Overlapped.run (overlappingUploads ++ [Overlapped.Click 2])
           Overlapped.start))
   = Some onePage /\
   getPage onePage 3 = None) /\
  (forall s : State,
     reachable s ->
     (length (markedPages (artboardGrid s)) <= 1)%nat /\
     forall k : Z,
       k ∈ markedPages (artboardGrid s) ->
       exists pdf page, currentPDF s = Some pdf /\ getPage pdf k = Some page).
Proof.
  split; [| split].
  - intros w R. destruct (reachable_selectorInvariant w R) as (M & _).
    split; [| exact M]. unfold markerFollowsSelection in M. rewrite M.
    destruct (selectedArtboard (Overlapped.page w)); simpl; lia.
  - split; [apply reachable_run; constructor |].
    repeat split; vm_compute; reflexivity.
  - intros s R. split; [exact (reachable_at_most_one s R) |].
    intros k Hk. unfold markedPages in Hk.
    apply list_elem_of_fmap_1 in Hk as (it & -> & Hit).
    apply list_elem_of_filter in Hit as [_ Hit].
    apply list_elem_of_lookup in Hit as [i Hi].
    pose proof (reachable_selectorMatches s R) as M.
    unfold selectorMatches in M. destruct (currentPDF s) as [pdf |].
    + destruct (1 <? numPages pdf)%Z.
      * destruct M as (G & _). unfold gridOf in G.
        assert (L : (dataset_page <$> artboardGrid s) !! i
                    = Some (dataset_page it))
          by (rewrite list_lookup_fmap, Hi; reflexivity).
        rewrite G in L. apply lookup_seqZ in L as [P B].
        destruct (getPage_in_range pdf (dataset_page it)) as [page Hp]; [lia |].
        exists pdf, page. auto.
      * destruct M as (G & _). rewrite G in Hi. discriminate Hi.
    + destruct M as (G & _). rewrite G in Hi. discriminate Hi.
Qed.

Lemma marker_is_unique_witness :
  Overlapped.reachable (Overlapped.run overlappingPicks Overlapped.start) /\
  markerFollowsSelection
    (Overlapped.page (Overlapped.run overlappingPicks Overlapped.start)) /\
  reachable (handle (clickArtboard 3) (handle (clickArtboard 1) loadedThree))
  /\
  (length
     (markedPages
        (artboardGrid
           (handle (clickArtboard 3) (handle (clickArtboard 1) loadedThree))))
   <= 1)%nat.
Proof.
  assert (R : Overlapped.reachable
                (Overlapped.run overlappingPicks Overlapped.start)).
  { apply reachable_run. constructor. }
  assert (R' : reachable
                 (handle (clickArtboard 3)
                    (handle (clickArtboard 1) loadedThree))).
  { do 2 apply reachable_handle. unfold loadedThree.
    apply reachable_handle, reachable_initial. }
  destruct marker_is_unique as (A & _ & C).
  split; [exact R |]. split; [exact (proj2 (A _ R)) |].
  split; [exact R' | exact (proj1 (C _ R'))].
Defined.

(** X9. An accepted upload that settles before anything else happens
    keeps no document of the upload before: after a raster file no
    document is loaded and the selector is gone; after a document file the
    loaded document, if any, is the one just parsed.  An upload that
    overlaps an earlier one can: a raster uploaded while a three-page
    document is still being opened ends with that document loaded and its
    selector on display, under the name and the picture of the raster. *)
Theorem upload_replaces_document :
  (forall (file : File) (s : State) (ext : string),
     extensionOf (name file) = Some ext ->
     JsString.includes_elem validExtensions ext = true ->
     (In ext ["jpg"; "jpeg"; "png"] ->
      idle (handle (Upload file) s) /\
      artboardGrid (handle (Upload file) s) = [] /\
      artboardSection_visible (handle (Upload file) s) = false /\
      selectedArtboard (handle (Upload file) s) = None) /\
     (forall pdf, currentPDF (handle (Upload file) s) = Some pdf ->
        asDocument file = Parses pdf /\ In ext ["pdf"; "ai"]) /\
     selectedArtboard (handle (Upload file) s) = None) /\
  (Overlapped.reachable (Overlapped.run rasterOverDocument Overlapped.start) /\
   currentPDF
     (Overlapped.page (Overlapped.run rasterOverDocument Overlapped.start))
   = Some threePages /\
   artboardSection_visible
     (Overlapped.page (Overlapped.run rasterOverDocument Overlapped.start))
   = true /\
   dataset_page <$>
     artboardGrid
       (Overlapped.page (Overlapped.run rasterOverDocument Overlapped.start))
   = [1; 2; 3]%Z /\
   fileName_text
     (Overlapped.page (Overlapped.run rasterOverDocument Overlapped.start))
   = "logo.png" /\
   previewCanvas
     (Overlapped.page (Overlapped.run rasterOverDocument Overlapped.start))
   = Painted (mkImage (FromFile "logo.png") 400 100)
       (drawRect (mkImage (FromFile "logo.png") 400 100))).
Proof.
  split.
  - intros file s ext E V.
    assert (C : In ext ["jpg"; "jpeg"; "png"] \/ In ext ["pdf"; "ai"]).
    { apply includes_elem_In in V. simpl in V. simpl. tauto. }
    assert (D : In ext ["jpg"; "jpeg"; "png"] -> In ext ["pdf"; "ai"] -> False).
    { simpl. intros [<- | [<- | [<- | []]]] [H | [H | []]]; discriminate H. }
    assert (I : In ext ["jpg"; "jpeg"; "png"] ->
                idle (handle (Upload file) s) /\
                artboardGrid (handle (Upload file) s) = [] /\
                artboardSection_visible (handle (Upload file) s) = false /\
                selectedArtboard (handle (Upload file) s) = None).
    { intro Hr. unfold handle. rewrite (handleFile_raster file s ext E Hr).
      unfold processImageFile.
      destruct (readAsDataURL file) as [[| w h] |]; repeat split. }
    assert (P : In ext ["pdf"; "ai"] ->
                (forall pdf, currentPDF (handle (Upload file) s) = Some pdf ->
                   asDocument file = Parses pdf) /\
                selectedArtboard (handle (Upload file) s) = None).
    { intro Hd. unfold handle. rewrite (handleFile_document file s ext E Hd).
      unfold processPDFFile. cbv zeta.
      destruct (asDocument file) as [e | e | pdf];
        [split; [intros p H; discriminate H | reflexivity] .. |].
      destruct (1 <? numPages pdf)%Z.
      - rewrite showArtboardSelector_spec. split; [| reflexivity].
        intros p H. injection H as <-. reflexivity.
      - destruct (renderPDFPage_cases pdf 1
                    (set_currentPDF (Some pdf) (accepted file s)))
          as [(page & _ & _ & R) | R]; rewrite R.
        + destruct (pageRaster page 1); (split; [| reflexivity]);
            intros p H; injection H as <-; reflexivity.
        + split; [| reflexivity]. intros p H. injection H as <-. reflexivity. }
    split; [exact I |]. split.
    + intros pdf H. destruct C as [Hr | Hd].
      * destruct (I Hr) as (Hi & _). unfold idle in Hi. congruence.
      * split; [exact (proj1 (P Hd) pdf H) | exact Hd].
    + destruct C as [Hr | Hd]; [apply (I Hr) | apply (P Hd)].
  - split; [apply reachable_run; constructor |].
    repeat split; vm_compute; reflexivity.
Qed.

Lemma upload_replaces_document_witness :
  extensionOf (name logo_png) = Some "png" /\
  JsString.includes_elem validExtensions "png" = true /\
  currentPDF loadedThree = Some threePages /\
  idle (handle (Upload logo_png) loadedThree) /\
  artboardGrid (handle (Upload logo_png) loadedThree) = [].
Proof.
  split; [reflexivity |]. split; [reflexivity |]. split; [reflexivity |].
  destruct upload_replaces_document as (U & _).
  destruct (U logo_png loadedThree "png" eq_refl eq_refl) as (H & _).
  destruct (H ltac:(right; right; left; reflexivity)) as (I & G & _).
  split; [exact I | exact G].
Defined.



(** ** Witnesses for the properties above *)


